(** * Smart garage control: the Tuya door-trigger device driver

    A shallow embedding of the driver class [GarageDoorTrigger], in its
    extended revision (with the write retry and the open-time alarm) and in
    the older revision of [drivers/Garage_Door_Opener/device.js], and the
    properties of its pulse, safety-timer and open-alarm logic.

    Conventions of the embedding.
    - JavaScript numbers that occur here are integers well inside the exact
      range of a double; they are modelled by [Z].  The one place where the
      source leaves that range is [<<], whose operand and result are wrapped
      to signed 32 bits ([toInt32]).
    - The device object [this] is the record [Device].  A handler is a
      state-passing function [Device -> Device] for each stretch of code
      that runs without giving control back to the host.
    - [homey.setTimeout] and [homey.clearTimeout] act on a table of pending
      timers keyed by handle.  A closure handed to [setTimeout] (countdown,
      safety check, open alarm, the 500 ms pause before the retry, the
      3000 ms status recovery) runs as an event of its own.
    - A transport write ([writeBool], [writeData32]) is in flight from the
      call until the host reports its outcome; what the source does after
      the [await] runs as an event of its own, with the outcome as input.
    - A call on the device's own capabilities ([setCapabilityValue]) is
      awaited too, and other handlers can run before it settles.  The
      handlers come in two forms.  [triggerDoorPulse], [sendPulse],
      [handleDataPoint] and the closures, and the events of [step], are the
      handlers when each awaited call on a capability settles before
      anything else happens.  The module [Interleaved] has the same
      handlers cut at each of these awaits, with the suspended handlers
      kept in the state; [run_serial] shows that a run of [step] is the
      interleaved run in which every event is on its own.  What depends on
      handlers overlapping is stated on [Interleaved.run]. *)

From Stdlib Require Import ZArith String Ascii List Bool Lia.
From Stdlib.Strings Require Import Byte.
From stdpp Require Import base option gmap strings pretty.
Import ListNotations.

Local Open Scope string_scope.
Local Open Scope Z_scope.

(** ** JavaScript values *)

Inductive JsVal :=
| VUndefined
| VNull
| VBool (b : bool)
| VNum (n : Z)
| VStr (s : string)
| VBytes (data : list byte).   (* a Buffer *)

(** [!!v] *)
Definition truthy (v : JsVal) : bool :=
  match v with
  | VUndefined | VNull => false
  | VBool b => b
  | VNum n => negb (n =? 0)
  | VStr s => negb (String.eqb s "")
  | VBytes _ => true
  end.

(** [v === b] for a boolean [b]. *)
Definition strictEqBool (v : JsVal) (b : bool) : bool :=
  match v with
  | VBool b' => Bool.eqb b' b
  | _ => false
  end.

(** A Buffer read as a string, byte for byte (strings are kept in their
    UTF-8 encoding, so this is [Buffer.prototype.toString] on well-formed
    input). *)
Definition bufferToString (data : list byte) : string :=
  string_of_list_byte data.

(** [v.toString()]; [None] is the TypeError raised on [undefined] and
    [null]. *)
Definition toString (v : JsVal) : option string :=
  match v with
  | VUndefined | VNull => None
  | VBool true => Some "true"
  | VBool false => Some "false"
  | VNum n => Some (pretty n)
  | VStr s => Some s
  | VBytes data => Some (bufferToString data)
  end.

(** [s.includes(pat)] *)
Fixpoint includes (s pat : string) : bool :=
  String.prefix pat s ||
  match s with
  | EmptyString => false
  | String _ s' => includes s' pat
  end.

(** ** [parseInt] with no radix argument

    [None] stands for NaN.  Leading white space is skipped (the ASCII white
    space here), then come an optional sign, an optional [0x] prefix, and
    the longest run of digits of the radix. *)

Definition isWhiteSpace (c : ascii) : bool :=
  let n := Z.of_nat (nat_of_ascii c) in
  (n =? 9) || (n =? 10) || (n =? 11) || (n =? 12) || (n =? 13) || (n =? 32).

Fixpoint trimStart (s : string) : string :=
  match s with
  | String c s' => if isWhiteSpace c then trimStart s' else s
  | EmptyString => s
  end.

Definition digitValue (c : ascii) : option Z :=
  let n := Z.of_nat (nat_of_ascii c) in
  if (48 <=? n) && (n <=? 57) then Some (n - 48)
  else if (97 <=? n) && (n <=? 122) then Some (n - 97 + 10)
  else if (65 <=? n) && (n <=? 90) then Some (n - 65 + 10)
  else None.

(** The longest prefix of digits below [radix]; [acc] is [None] until a
    digit has been read. *)
Fixpoint parseDigits (radix : Z) (s : string) (acc : option Z) : option Z :=
  match s with
  | String c s' =>
      match digitValue c with
      | Some d =>
          if d <? radix then parseDigits radix s' (Some (default 0 acc * radix + d))
          else acc
      | None => acc
      end
  | EmptyString => acc
  end.

Definition parseIntString (s : string) : option Z :=
  let s := trimStart s in
  let '(sign, s) :=
    match s with
    | String "-" s' => (-1, s')
    | String "+" s' => (1, s')
    | _ => (1, s)
    end in
  let '(radix, s) :=
    match s with
    | String "0" (String "x" s') => (16, s')
    | String "0" (String "X" s') => (16, s')
    | _ => (10, s)
    end in
  match parseDigits radix s None with
  | Some n => Some (sign * n)
  | None => None
  end.

(** A stored setting: an integer number or a text; an absent key reads as
    [undefined].  [parseInt] of a number goes through its decimal text, so a
    number with a fraction is the same as its text here. *)
Inductive SettingVal :=
| SNum (n : Z)
| SText (s : string).

Definition parseInt (v : option SettingVal) : option Z :=
  match v with
  | None => None
  | Some (SNum n) => Some n
  | Some (SText s) => parseIntString s
  end.

(** [parseInt(v) || d]: NaN and 0 are falsy. *)
Definition orDefault (p : option Z) (d : Z) : Z :=
  match p with
  | Some n => if n =? 0 then d else n
  | None => d
  end.

(** ** Data parsing *)

Definition byteZ (b : byte) : Z := Z.of_N (Byte.to_N b).

(** ToInt32 *)
Definition toInt32 (x : Z) : Z := (x + 2 ^ 31) mod 2 ^ 32 - 2 ^ 31.

(** [v << k] for [0 <= k < 32] *)
Definition shl32 (v k : Z) : Z := toInt32 (Z.shiftl (toInt32 v) k).

Definition convertMultiByte (chunks : list byte) : Z :=
  fold_left (fun value c => shl32 value 8 + byteZ c) chunks 0.

(** One report of the Tuya cluster. *)
Record DpValue := {
  dp : Z;
  datatype : Z;
  data : list byte
}.

Definition getDataValue (dpValue : DpValue) : JsVal :=
  match datatype dpValue with
  | 0 => VBytes (data dpValue)
  | 1 => VBool match data dpValue with
               | b :: _ => byteZ b =? 1
               | [] => false
               end
  | 2 => VNum (convertMultiByte (data dpValue))
  | 4 => match data dpValue with
         | b :: _ => VNum (byteZ b)
         | [] => VUndefined
         end
  | _ => VBytes (data dpValue)
  end.

(** The big-endian unsigned reading of a payload. *)
Definition bigEndianUnsigned (chunks : list byte) : Z :=
  fold_left (fun value c => value * 256 + byteZ c) chunks 0.

(** ** The device object *)

(** What a rejected transport write throws: an error, of which the source
    reads [err.message], which may be missing. *)
Record JsError := { message : option string }.

Inductive WriteOutcome :=
| Acked
| Rejected (err : JsError).

(** [err.message && err.message.includes('Timeout')] *)
Definition isTimeout (err : JsError) : bool :=
  match message err with
  | Some m => truthy (VStr m) && includes m "Timeout"
  | None => false
  end.

(** The closures handed to [homey.setTimeout], with what they capture. *)
Inductive Callback :=
| SendPulse                                  (* [sendPulse], after the countdown *)
| ResumeAfterPause (expectedEndState : bool) (* [resolve] of the 500 ms pause in [sendPulse] *)
| RecoverStatus                              (* the 3000 ms closure after a failed retry *)
| SafetyCheck (expectedState : bool)         (* the closure of [startSafetyTimer] *)
| OpenAlarmCheck (openAlarmTimeSetting : Z). (* the closure of [startOpenAlarmTimer] *)

Record Timer := {
  delay : Z;          (* the milliseconds passed to [setTimeout] *)
  due : Z;            (* the host time at which it fires *)
  callback : Callback
}.

(** What a handler goes on with once an awaited transport write settles,
    with what it has captured. *)
Inductive Continuation :=
| AfterPulseWrite (expectedEndState : bool)  (* [sendPulse], after the first [writeBool] *)
| AfterRetryWrite (expectedEndState : bool)  (* [sendPulse], after the retry *)
| AfterSettingWrite (newSettings : gmap string SettingVal)
    (changedKeys rest : list string).        (* [onSettings], the rest of its loop *)

(** The members that every object literal inherits from
    [Object.prototype]: indexing an object with one of these names gives a
    function or an object, not [undefined]. *)
Definition objectPrototypeMembers : list string :=
  [ "constructor"; "__defineGetter__"; "__defineSetter__"; "hasOwnProperty";
    "__lookupGetter__"; "__lookupSetter__"; "isPrototypeOf"; "propertyIsEnumerable";
    "toString"; "valueOf"; "__proto__"; "toLocaleString" ].

Definition isInherited (key : string) : bool :=
  existsb (String.eqb key) objectPrototypeMembers.

(** What [settingsMap[key]] is when it is truthy: the number of a data
    point, or the member of that name inherited from [Object.prototype]. *)
Inductive DpRef :=
| DpNumber (dpId : Z)
| DpMember (name : string).

(** What [newSettings[key]] is: the value of the key, the inherited member
    of that name, or [undefined]. *)
Inductive SettingArg :=
| ArgUndefined
| ArgValue (v : SettingVal)
| ArgMember (name : string).

(** The calls of the transport: [writeBool(dpId, value)] and
    [writeData32(dp, value)], with their arguments. *)
Inductive Write :=
| WriteBool (dpId : Z) (value : bool)
| WriteData32 (dp : DpRef) (value : SettingArg).

Record Device := {
  capabilities : gmap string JsVal;   (* a key is present iff the device has the capability *)
  settings : gmap string SettingVal;  (* [this.getSettings()] *)
  flowCards : gset string;            (* the device trigger cards the app registers *)
  delayedTriggerTimer : option Z;     (* [undefined] until first assigned *)
  safetyTimer : option Z;
  openAlarmTimer : option Z;
  now : Z;                            (* host clock, ms *)
  nextTimer : Z;                      (* the next fresh timer handle *)
  pending : gmap Z Timer;             (* timers set and neither fired nor cleared *)
  nextCall : Z;                       (* the next fresh number of a transport call *)
  inFlight : gmap Z Continuation;     (* transport writes awaited *)
  writes : list Write;                (* transport writes issued, oldest first *)
  alerts : list string                (* flow cards triggered, oldest first *)
}.

Definition dp_doorTrigger : Z := 1.
Definition dp_countdown : Z := 2.
Definition dp_garageDoorContact : Z := 3.
Definition dp_runtime : Z := 4.
Definition dp_openAlarmTime : Z := 5.
Definition dp_status : Z := 12.

Definition alarm_contact : string := "alarm_contact".
Definition garage_Door_Button : string := "garage_Door_Button".
Definition garage_Door_State_Capability : string := "garage_Door_State_Capability".

Definition with_capabilities (c : gmap string JsVal) (st : Device) : Device :=
  {| capabilities := c; settings := settings st; flowCards := flowCards st;
     delayedTriggerTimer := delayedTriggerTimer st; safetyTimer := safetyTimer st;
     openAlarmTimer := openAlarmTimer st; now := now st; nextTimer := nextTimer st;
     pending := pending st; nextCall := nextCall st; inFlight := inFlight st;
     writes := writes st; alerts := alerts st |}.

Definition with_settings (s : gmap string SettingVal) (st : Device) : Device :=
  {| capabilities := capabilities st; settings := s; flowCards := flowCards st;
     delayedTriggerTimer := delayedTriggerTimer st; safetyTimer := safetyTimer st;
     openAlarmTimer := openAlarmTimer st; now := now st; nextTimer := nextTimer st;
     pending := pending st; nextCall := nextCall st; inFlight := inFlight st;
     writes := writes st; alerts := alerts st |}.

Definition with_delayedTriggerTimer (h : option Z) (st : Device) : Device :=
  {| capabilities := capabilities st; settings := settings st; flowCards := flowCards st;
     delayedTriggerTimer := h; safetyTimer := safetyTimer st;
     openAlarmTimer := openAlarmTimer st; now := now st; nextTimer := nextTimer st;
     pending := pending st; nextCall := nextCall st; inFlight := inFlight st;
     writes := writes st; alerts := alerts st |}.

Definition with_safetyTimer (h : option Z) (st : Device) : Device :=
  {| capabilities := capabilities st; settings := settings st; flowCards := flowCards st;
     delayedTriggerTimer := delayedTriggerTimer st; safetyTimer := h;
     openAlarmTimer := openAlarmTimer st; now := now st; nextTimer := nextTimer st;
     pending := pending st; nextCall := nextCall st; inFlight := inFlight st;
     writes := writes st; alerts := alerts st |}.

Definition with_openAlarmTimer (h : option Z) (st : Device) : Device :=
  {| capabilities := capabilities st; settings := settings st; flowCards := flowCards st;
     delayedTriggerTimer := delayedTriggerTimer st; safetyTimer := safetyTimer st;
     openAlarmTimer := h; now := now st; nextTimer := nextTimer st;
     pending := pending st; nextCall := nextCall st; inFlight := inFlight st;
     writes := writes st; alerts := alerts st |}.

Definition with_now (t : Z) (st : Device) : Device :=
  {| capabilities := capabilities st; settings := settings st; flowCards := flowCards st;
     delayedTriggerTimer := delayedTriggerTimer st; safetyTimer := safetyTimer st;
     openAlarmTimer := openAlarmTimer st; now := t; nextTimer := nextTimer st;
     pending := pending st; nextCall := nextCall st; inFlight := inFlight st;
     writes := writes st; alerts := alerts st |}.

Definition with_timers (next : Z) (p : gmap Z Timer) (st : Device) : Device :=
  {| capabilities := capabilities st; settings := settings st; flowCards := flowCards st;
     delayedTriggerTimer := delayedTriggerTimer st; safetyTimer := safetyTimer st;
     openAlarmTimer := openAlarmTimer st; now := now st; nextTimer := next;
     pending := p; nextCall := nextCall st; inFlight := inFlight st;
     writes := writes st; alerts := alerts st |}.

Definition with_calls (next : Z) (f : gmap Z Continuation) (w : list Write)
    (st : Device) : Device :=
  {| capabilities := capabilities st; settings := settings st; flowCards := flowCards st;
     delayedTriggerTimer := delayedTriggerTimer st; safetyTimer := safetyTimer st;
     openAlarmTimer := openAlarmTimer st; now := now st; nextTimer := nextTimer st;
     pending := pending st; nextCall := next; inFlight := f;
     writes := w; alerts := alerts st |}.

Definition with_alerts (a : list string) (st : Device) : Device :=
  {| capabilities := capabilities st; settings := settings st; flowCards := flowCards st;
     delayedTriggerTimer := delayedTriggerTimer st; safetyTimer := safetyTimer st;
     openAlarmTimer := openAlarmTimer st; now := now st; nextTimer := nextTimer st;
     pending := pending st; nextCall := nextCall st; inFlight := inFlight st;
     writes := writes st; alerts := a |}.

(** *** Host calls *)

Definition hasCapability (c : string) (st : Device) : bool :=
  bool_decide (is_Some (capabilities st !! c)).

(** The value of a capability is [null] until it is first set. *)
Definition getCapabilityValue (c : string) (st : Device) : JsVal :=
  default VNull (capabilities st !! c).

(** [await this.setCapabilityValue(c, v).catch(this.error)]: on a capability
    the device does not have the call rejects, and the rejection is logged. *)
Definition setCapabilityValue (c : string) (v : JsVal) (st : Device) : Device :=
  if hasCapability c st then with_capabilities (<[c := v]> (capabilities st)) st
  else st.

(** [if (this.hasCapability(c)) await this.setCapabilityValue(c, v)...] *)
Definition setIfHas (c : string) (v : JsVal) (st : Device) : Device :=
  if hasCapability c st then setCapabilityValue c v st else st.

(** Node runs a timer whose delay is below 1 ms or above 2^31-1 ms after
    1 ms. *)
Definition effectiveDelay (ms : Z) : Z :=
  if (1 <=? ms) && (ms <=? 2147483647) then ms else 1.

Definition setTimeout (cb : Callback) (ms : Z) (st : Device) : Z * Device :=
  let h := nextTimer st in
  (h, with_timers (h + 1)
        (<[h := {| delay := ms; due := now st + effectiveDelay ms; callback := cb |}]>
           (pending st)) st).

(** [clearTimeout(undefined)] and clearing a timer that has fired do
    nothing. *)
Definition clearTimeout (h : option Z) (st : Device) : Device :=
  match h with
  | Some h => with_timers (nextTimer st) (delete h (pending st)) st
  | None => st
  end.

(** [await this.writeBool(dpId, value)]: the write is issued, and the
    handler goes on with [k] when it settles. *)
Definition writeBool (dpId : Z) (value : bool) (k : Continuation) (st : Device) : Device :=
  with_calls (nextCall st + 1) (<[nextCall st := k]> (inFlight st))
    (writes st ++ [WriteBool dpId value]) st.

Definition writeData32 (dp : DpRef) (value : SettingArg) (k : Continuation)
    (st : Device) : Device :=
  with_calls (nextCall st + 1) (<[nextCall st := k]> (inFlight st))
    (writes st ++ [WriteData32 dp value]) st.

(** [getDeviceTriggerCard(id)] followed by [trigger(this, {}, {})]: a card
    that is not registered (a falsy result or an exception, both only
    logged) triggers nothing. *)
Definition triggerFlow (card : string) (st : Device) : Device :=
  if bool_decide (card ∈ flowCards st) then with_alerts (alerts st ++ [card]) st
  else st.

(** ** Core logic: trigger the door *)

Definition runTimeSetting (st : Device) : Z :=
  orDefault (parseInt (settings st !! "run_time")) 20.

Definition countdownSeconds (st : Device) : Z :=
  orDefault (parseInt (settings st !! "count_down")) 0.

Definition openAlarmTimeSetting (st : Device) : Z :=
  orDefault (parseInt (settings st !! "open_alarm_time")) 0.

Definition startSafetyTimer (expectedState : bool) (st : Device) : Device :=
  let st := clearTimeout (safetyTimer st) st in
  let '(h, st) := setTimeout (SafetyCheck expectedState) (runTimeSetting st * 1000) st in
  with_safetyTimer (Some h) st.

(** The closure of [startSafetyTimer], when it fires and nothing else runs
    while it awaits its calls (cut at its awaits it is
    [Interleaved.safetyCheck]). *)
Definition safetyCheck (expectedState : bool) (st : Device) : Device :=
  let currentContact := getCapabilityValue alarm_contact st in
  if negb (strictEqBool currentContact expectedState) then
    let st := setCapabilityValue garage_Door_Button currentContact st in
    let st := setIfHas garage_Door_State_Capability (VStr "1") st in
    triggerFlow "runtime_alarm_triggered" st
  else st.

(** [sendPulse], up to its first [await this.writeBool(...)], when nothing
    else runs while it awaits the call on the status (the two stretches on
    their own are [Interleaved.sendPulse] and [writePulse]). *)
Definition sendPulse (st : Device) : Device :=
  let st := setIfHas garage_Door_State_Capability (VStr "moving") st in
  let isCurrentlyOpen := strictEqBool (getCapabilityValue alarm_contact st) true in
  let expectedEndState := negb isCurrentlyOpen in
  writeBool dp_doorTrigger true (AfterPulseWrite expectedEndState) st.

(** [sendPulse], from the outcome of the first write to the safety timer or
    to the 500 ms pause. *)
Definition afterPulseWrite (expectedEndState : bool) (o : WriteOutcome) (st : Device)
    : Device :=
  match o with
  | Acked => startSafetyTimer expectedEndState st
  | Rejected err =>
      if isTimeout err then startSafetyTimer expectedEndState st
      else snd (setTimeout (ResumeAfterPause expectedEndState) 500 st)
  end.

(** [sendPulse], from the end of the pause: the retry is issued. *)
Definition resumeAfterPause (expectedEndState : bool) (st : Device) : Device :=
  writeBool dp_doorTrigger true (AfterRetryWrite expectedEndState) st.

(** [sendPulse], from the outcome of the retry, when nothing else runs
    while it awaits the call on the status (cut there it is
    [Interleaved.afterRetryWrite]). *)
Definition afterRetryWrite (expectedEndState : bool) (o : WriteOutcome) (st : Device)
    : Device :=
  match o with
  | Acked => startSafetyTimer expectedEndState st
  | Rejected retryErr =>
      let st := setIfHas garage_Door_State_Capability (VStr "error") st in
      snd (setTimeout RecoverStatus 3000 st)
  end.

(** The 3000 ms closure. *)
Definition recoverStatus (st : Device) : Device :=
  let currentState := getCapabilityValue alarm_contact st in
  setCapabilityValue garage_Door_State_Capability
    (VStr (if truthy currentState then "open" else "closed")) st.

(** [triggerDoorPulse], to its end or to the write of [sendPulse], when
    nothing else runs while it awaits the call on the status between its
    [clearTimeout] and its [setTimeout] (the two stretches on their own are
    [Interleaved.triggerDoorPulse] and [setCountdownTimer]). *)
Definition triggerDoorPulse (st : Device) : Device :=
  let st := clearTimeout (delayedTriggerTimer st) st in
  let st := clearTimeout (safetyTimer st) st in
  let countdownSeconds := countdownSeconds st in
  if countdownSeconds <=? 0 then sendPulse st
  else
    let st := setIfHas garage_Door_State_Capability (VStr "2") st in
    let '(h, st) := setTimeout SendPulse (countdownSeconds * 1000) st in
    with_delayedTriggerTimer (Some h) st.

(** ** Open time alarm logic *)

Definition startOpenAlarmTimer (st : Device) : Device :=
  let st := clearTimeout (openAlarmTimer st) st in
  let openAlarmTimeSetting := openAlarmTimeSetting st in
  if openAlarmTimeSetting <=? 0 then st
  else
    let '(h, st) := setTimeout (OpenAlarmCheck openAlarmTimeSetting)
                      (openAlarmTimeSetting * 1000) st in
    with_openAlarmTimer (Some h) st.

(** The closure of [startOpenAlarmTimer], when it fires. *)
Definition openAlarmCheck (st : Device) : Device :=
  let isStillOpen := strictEqBool (getCapabilityValue alarm_contact st) true in
  if isStillOpen then triggerFlow "opentime_alarm_triggered" st else st.

Definition stopOpenAlarmTimer (st : Device) : Device :=
  clearTimeout (openAlarmTimer st) st.

(** ** Zigbee events *)

(** [handleDataPoint], when nothing else runs while it awaits its calls on
    the capabilities (cut at its awaits it is [Interleaved.handleDataPoint]
    and what follows it). *)
Definition handleDataPoint (data : DpValue) (st : Device) : Device :=
  let value := getDataValue data in
  if dp data =? dp_garageDoorContact then
    let isOpen := truthy value in
    let st := clearTimeout (safetyTimer st) st in
    let st := clearTimeout (delayedTriggerTimer st) st in
    let st := setCapabilityValue alarm_contact (VBool isOpen) st in
    let st := setIfHas garage_Door_Button (VBool isOpen) st in
    let st := setIfHas garage_Door_State_Capability
                (VStr (if isOpen then "open" else "closed")) st in
    if isOpen then startOpenAlarmTimer st else stopOpenAlarmTimer st
  else if dp data =? dp_status then
    if hasCapability garage_Door_State_Capability st then
      match toString value with
      | Some s => setCapabilityValue garage_Door_State_Capability (VStr s) st
      | None => st          (* TypeError: the handler ends here *)
      end
    else st
  else st.

(** ** Settings and removal *)

(** [settingsMap[key]], [None] when it is [undefined].  The object literal
    has the three settings as its own keys and inherits the members of
    [Object.prototype]; every value it answers with is truthy. *)
Definition settingsMap (key : string) : option DpRef :=
  if String.eqb key "count_down" then Some (DpNumber dp_countdown)
  else if String.eqb key "run_time" then Some (DpNumber dp_runtime)
  else if String.eqb key "open_alarm_time" then Some (DpNumber dp_openAlarmTime)
  else if isInherited key then Some (DpMember key)
  else None.

(** [newSettings[key]], on the plain object the host hands over. *)
Definition readSetting (newSettings : gmap string SettingVal) (key : string)
    : SettingArg :=
  match newSettings !! key with
  | Some v => ArgValue v
  | None => if isInherited key then ArgMember key else ArgUndefined
  end.

(** [onSettings] after its loop. *)
Definition afterSettingWrites (changedKeys : list string) (st : Device) : Device :=
  if existsb (String.eqb "open_alarm_time") changedKeys then
    let isCurrentlyOpen := strictEqBool (getCapabilityValue alarm_contact st) true in
    if isCurrentlyOpen then startOpenAlarmTimer st else st
  else st.

(** The loop of [onSettings] over the keys still to visit, up to its next
    [await this.writeData32(...)]. *)
Fixpoint writeChangedSettings (newSettings : gmap string SettingVal)
    (changedKeys rest : list string) (st : Device) : Device :=
  match rest with
  | [] => afterSettingWrites changedKeys st
  | key :: rest' =>
      match settingsMap key with
      | Some dp =>
          writeData32 dp (readSetting newSettings key)
            (AfterSettingWrite newSettings changedKeys rest') st
      | None => writeChangedSettings newSettings changedKeys rest' st
      end
  end.

Definition onSettings (newSettings : gmap string SettingVal) (changedKeys : list string)
    (st : Device) : Device :=
  writeChangedSettings newSettings changedKeys changedKeys st.

Definition onDeleted (st : Device) : Device :=
  let st := clearTimeout (safetyTimer st) st in
  let st := clearTimeout (delayedTriggerTimer st) st in
  clearTimeout (openAlarmTimer st) st.

(** ** The device as an event-driven system *)

Inductive Event :=
| Tick (t : Z)                          (* the host clock reaches [t] *)
| RequestTrigger                        (* UI button or flow action: [triggerDoorPulse] *)
| SensorReport (data : DpValue)         (* a ["response"] of the tuya cluster *)
| TimerFires (h : Z)                    (* the host runs a pending timer's closure *)
| WriteSettles (c : Z) (o : WriteOutcome) (* an awaited transport write settles *)
| SettingsChanged (newSettings : gmap string SettingVal) (changedKeys : list string)
| SettingsStored (s : gmap string SettingVal) (* the host replaces the stored settings *)
| Deleted.

Definition runCallback (cb : Callback) (st : Device) : Device :=
  match cb with
  | SendPulse => sendPulse st
  | ResumeAfterPause expectedEndState => resumeAfterPause expectedEndState st
  | RecoverStatus => recoverStatus st
  | SafetyCheck expectedState => safetyCheck expectedState st
  | OpenAlarmCheck _ => openAlarmCheck st
  end.

(** The host runs the closure of timer [h], which it has removed from its
    table. *)
Definition fire (h : Z) (st : Device) : Device :=
  match pending st !! h with
  | Some tm =>
      runCallback (callback tm) (with_timers (nextTimer st) (delete h (pending st)) st)
  | None => st
  end.

(** Both writes of [onSettings] are awaited with [.catch(this.error)]: the
    loop goes on whatever the outcome. *)
Definition runContinuation (k : Continuation) (o : WriteOutcome) (st : Device) : Device :=
  match k with
  | AfterPulseWrite expectedEndState => afterPulseWrite expectedEndState o st
  | AfterRetryWrite expectedEndState => afterRetryWrite expectedEndState o st
  | AfterSettingWrite newSettings changedKeys rest =>
      writeChangedSettings newSettings changedKeys rest st
  end.

(** The transport call [c] settles with outcome [o]. *)
Definition settle (c : Z) (o : WriteOutcome) (st : Device) : Device :=
  match inFlight st !! c with
  | Some k =>
      runContinuation k o
        (with_calls (nextCall st) (delete c (inFlight st)) (writes st) st)
  | None => st
  end.

Definition step (ev : Event) (st : Device) : Device :=
  match ev with
  | Tick t => with_now t st
  | RequestTrigger => triggerDoorPulse st
  | SensorReport data => handleDataPoint data st
  | TimerFires h => fire h st
  | WriteSettles c o => settle c o st
  | SettingsChanged newSettings changedKeys => onSettings newSettings changedKeys st
  | SettingsStored s => with_settings s st
  | Deleted => onDeleted st
  end.

Definition run (evs : list Event) (st : Device) : Device :=
  fold_left (fun st ev => step ev st) evs st.

(** What the host can do next: the clock only moves forward and never past
    a pending timer, a timer fires only once it is due, and only a write in
    flight settles. *)
Definition feasible (ev : Event) (st : Device) : bool :=
  match ev with
  | Tick t =>
      (now st <=? t) && bool_decide (map_Forall (fun _ tm => t <= due tm) (pending st))
  | TimerFires h =>
      match pending st !! h with
      | Some tm => due tm <=? now st
      | None => false
      end
  | WriteSettles c _ => bool_decide (is_Some (inFlight st !! c))
  | _ => true
  end.

Fixpoint feasibleRun (evs : list Event) (st : Device) : bool :=
  match evs with
  | [] => true
  | ev :: evs' => feasible ev st && feasibleRun evs' (step ev st)
  end.

(** The device after [onNodeInit]: no timer field assigned, no timer set,
    no write in flight. *)
Definition init (caps : gmap string JsVal) (s : gmap string SettingVal)
    (cards : gset string) : Device :=
  {| capabilities := caps; settings := s; flowCards := cards;
     delayedTriggerTimer := None; safetyTimer := None; openAlarmTimer := None;
     now := 0; nextTimer := 0; pending := ∅; nextCall := 0; inFlight := ∅;
     writes := []; alerts := [] |}.

(** ** The older revision, [drivers/Garage_Door_Opener/device.js]

    It shares the data parsing, [startSafetyTimer] and its closure with the
    extended revision, and [triggerDoorPulse] and [sendPulse] up to the
    write; it has no retry and no open-time alarm. *)
Module Legacy.

(** [await this.writeBool(...).catch(this.error)] and then
    [this.startSafetyTimer(expectedEndState)]: whatever the outcome. *)
Definition afterPulseWrite (expectedEndState : bool) (o : WriteOutcome) (st : Device)
    : Device :=
  startSafetyTimer expectedEndState st.

Definition handleDataPoint (data : DpValue) (st : Device) : Device :=
  let value := getDataValue data in
  if dp data =? dp_garageDoorContact then
    let isOpen := truthy value in
    let st := clearTimeout (safetyTimer st) st in
    let st := clearTimeout (delayedTriggerTimer st) st in
    let st := setCapabilityValue alarm_contact (VBool isOpen) st in
    let st := setIfHas garage_Door_Button (VBool isOpen) st in
    setIfHas garage_Door_State_Capability
      (VStr (if isOpen then "open" else "closed")) st
  else if dp data =? dp_status then
    if hasCapability garage_Door_State_Capability st then
      match toString value with
      | Some s => setCapabilityValue garage_Door_State_Capability (VStr s) st
      | None => st
      end
    else st
  else st.

(** The loop of [onSettings]; nothing follows it in this revision. *)
Fixpoint writeChangedSettings (newSettings : gmap string SettingVal)
    (changedKeys rest : list string) (st : Device) : Device :=
  match rest with
  | [] => st
  | key :: rest' =>
      match settingsMap key with
      | Some dp =>
          writeData32 dp (readSetting newSettings key)
            (AfterSettingWrite newSettings changedKeys rest') st
      | None => writeChangedSettings newSettings changedKeys rest' st
      end
  end.

Definition onSettings (newSettings : gmap string SettingVal) (changedKeys : list string)
    (st : Device) : Device :=
  writeChangedSettings newSettings changedKeys changedKeys st.

Definition runCallback (cb : Callback) (st : Device) : Device :=
  match cb with
  | SendPulse => sendPulse st
  | SafetyCheck expectedState => safetyCheck expectedState st
  | _ => st            (* closures this revision never creates *)
  end.

Definition fire (h : Z) (st : Device) : Device :=
  match pending st !! h with
  | Some tm =>
      runCallback (callback tm) (with_timers (nextTimer st) (delete h (pending st)) st)
  | None => st
  end.

Definition runContinuation (k : Continuation) (o : WriteOutcome) (st : Device) : Device :=
  match k with
  | AfterPulseWrite expectedEndState => afterPulseWrite expectedEndState o st
  | AfterRetryWrite _ => st   (* never created by this revision *)
  | AfterSettingWrite newSettings changedKeys rest =>
      writeChangedSettings newSettings changedKeys rest st
  end.

Definition settle (c : Z) (o : WriteOutcome) (st : Device) : Device :=
  match inFlight st !! c with
  | Some k =>
      runContinuation k o
        (with_calls (nextCall st) (delete c (inFlight st)) (writes st) st)
  | None => st
  end.

Definition step (ev : Event) (st : Device) : Device :=
  match ev with
  | Tick t => with_now t st
  | RequestTrigger => triggerDoorPulse st
  | SensorReport data => handleDataPoint data st
  | TimerFires h => fire h st
  | WriteSettles c o => settle c o st
  | SettingsChanged newSettings changedKeys => onSettings newSettings changedKeys st
  | SettingsStored s => with_settings s st
  | Deleted => st      (* no [onDeleted] in this revision *)
  end.

Definition run (evs : list Event) (st : Device) : Device :=
  fold_left (fun st ev => step ev st) evs st.

End Legacy.

(** ** Vocabulary of the properties *)

(** The values of the status capability and what the source calls them. *)
Definition status_open : JsVal := VStr "open".
Definition status_closed : JsVal := VStr "closed".
Definition status_moving : JsVal := VStr "moving".
Definition status_countdown : JsVal := VStr "2".   (* "Countdown active" *)
Definition status_alarm : JsVal := VStr "1".       (* "Set the status text to Alarm" *)
Definition status_error : JsVal := VStr "error".

Definition statusOf (isOpen : bool) : JsVal :=
  if isOpen then status_open else status_closed.

Definition pulse : Write := WriteBool dp_doorTrigger true.

Definition isCountdown (cb : Callback) : bool :=
  match cb with SendPulse => true | _ => false end.

Definition isSafety (cb : Callback) : bool :=
  match cb with SafetyCheck _ => true | _ => false end.

Definition isOpenAlarm (cb : Callback) : bool :=
  match cb with OpenAlarmCheck _ => true | _ => false end.

Definition isRetryPause (cb : Callback) : bool :=
  match cb with ResumeAfterPause _ => true | _ => false end.

(** A timer of the given kind is pending. *)
Definition pendingKind (kind : Callback -> bool) (st : Device) : Prop :=
  exists h tm, pending st !! h = Some tm /\ kind (callback tm) = true.

(** [setCapabilityValue] on the table of capabilities. *)
Definition storeCapability (c : string) (v : JsVal) (caps : gmap string JsVal)
    : gmap string JsVal :=
  if bool_decide (is_Some (caps !! c)) then <[c := v]> caps else caps.

(** [clearTimeout] on the table of timers. *)
Definition cancelTimer (h : option Z) (p : gmap Z Timer) : gmap Z Timer :=
  match h with
  | Some h => delete h p
  | None => p
  end.

(** No timer of the given kind is pending. *)
Definition nonePending (kind : Callback -> bool) (st : Device) : Prop :=
  forall h tm, pending st !! h = Some tm -> kind (callback tm) = false.

(** At most one timer of the given kind is pending. *)
Definition atMostOne (kind : Callback -> bool) (st : Device) : Prop :=
  forall h1 tm1 h2 tm2,
    pending st !! h1 = Some tm1 -> kind (callback tm1) = true ->
    pending st !! h2 = Some tm2 -> kind (callback tm2) = true ->
    h1 = h2.

(** Timers that [st'] has pending and [st] had not. *)
Definition startedSince (st st' : Device) (kind : Callback -> bool) : Prop :=
  exists h tm, pending st' !! h = Some tm /\ kind (callback tm) = true /\
               pending st !! h <> Some tm.

(** The discipline of the three timer fields: handles are fresh, and a
    pending countdown, safety or open-alarm timer is the one its field
    refers to. *)
Record TimersOwned (st : Device) : Prop := {
  handles_fresh :
    forall h tm, pending st !! h = Some tm -> h < nextTimer st;
  countdown_owned :
    forall h tm, pending st !! h = Some tm -> isCountdown (callback tm) = true ->
                 delayedTriggerTimer st = Some h;
  safety_owned :
    forall h tm, pending st !! h = Some tm -> isSafety (callback tm) = true ->
                 safetyTimer st = Some h;
  openAlarm_owned :
    forall h tm, pending st !! h = Some tm -> isOpenAlarm (callback tm) = true ->
                 openAlarmTimer st = Some h
}.

(** The open alarm is disabled and no open-alarm timer is pending. *)
Definition OpenAlarmOff (st : Device) : Prop :=
  openAlarmTimeSetting st <= 0 /\ nonePending isOpenAlarm st.

(** A countdown timer and a safety timer are not pending together. *)
Definition Exclusive (st : Device) : Prop :=
  nonePending isCountdown st \/ nonePending isSafety st.

(** A continuation of [sendPulse]. *)
Definition isPulseContinuation (k : Continuation) : bool :=
  match k with
  | AfterPulseWrite _ | AfterRetryWrite _ => true
  | AfterSettingWrite _ _ _ => false
  end.

(** No [sendPulse] is waiting for its write to settle. *)
Definition noPulseInFlight (st : Device) : Prop :=
  forall c k, inFlight st !! c = Some k -> isPulseContinuation k = false.

(** No [sendPulse] is between its write and its end: none waits for a
    write, none pauses before the retry. *)
Definition Idle (st : Device) : Prop :=
  noPulseInFlight st /\ nonePending isRetryPause st.

(** The countdown and safety timers are apart, and a countdown timer is
    pending only while no [sendPulse] is under way. *)
Definition Apart (st : Device) : Prop :=
  Exclusive st /\ (Idle st \/ nonePending isCountdown st).

(** On the run [evs] from [st], every trigger request comes when no
    [sendPulse] is under way. *)
Fixpoint requestsApart (evs : list Event) (st : Device) : Prop :=
  match evs with
  | [] => True
  | ev :: evs' =>
      (ev = RequestTrigger -> Idle st) /\ requestsApart evs' (step ev st)
  end.

(** What a settings event may store while the open alarm is to stay
    disabled. *)
Definition keepsOpenAlarmOff (ev : Event) : Prop :=
  match ev with
  | SettingsStored s => orDefault (parseInt (s !! "open_alarm_time")) 0 <= 0
  | _ => True
  end.

(** ** Sample devices and runs *)

Definition sampleCaps (contact : JsVal) : gmap string JsVal :=
  {[ alarm_contact := contact;
     garage_Door_Button := VBool false;
     garage_Door_State_Capability := status_closed ]}.

Definition sampleCards : gset string :=
  {[ "runtime_alarm_triggered"; "opentime_alarm_triggered" ]}.

(** A closed door, no countdown, the default run time. *)
Definition sampleDevice : Device := init (sampleCaps (VBool false)) ∅ sampleCards.

(** A countdown of 5 s. *)
Definition countdownDevice : Device :=
  init (sampleCaps (VBool false)) {[ "count_down" := SNum 5 ]} sampleCards.

(** A countdown of -3 s. *)
Definition negativeCountdownDevice : Device :=
  init (sampleCaps (VBool false)) {[ "count_down" := SNum (-3) ]} sampleCards.

(** A run time of -5 s. *)
Definition negativeRunTimeDevice : Device :=
  init (sampleCaps (VBool false)) {[ "run_time" := SNum (-5) ]} sampleCards.

(** An open-alarm time of 5 s. *)
Definition openAlarmDevice : Device :=
  init (sampleCaps (VBool false)) {[ "open_alarm_time" := SNum 5 ]} sampleCards.

Definition noRoute : JsError := {| message := Some "Error: no route to device" |}.
Definition ackTimeout : JsError := {| message := Some "Timeout: Expected Response" |}.

Definition reportContact (isOpen : bool) : DpValue :=
  {| dp := dp_garageDoorContact; datatype := 1;
     data := [if isOpen then x01 else x00]%byte |}.

Definition reportStatus (code : byte) : DpValue :=
  {| dp := dp_status; datatype := 4; data := [code] |}.

(** A four-byte payload with the top bit set. *)
Definition highBitReport : DpValue :=
  {| dp := dp_runtime; datatype := 2; data := [x80; x00; x00; x00]%byte |}.

(** The sample device after a request whose write was acknowledged: the
    safety timer runs. *)
Definition armedDevice : Device := run [RequestTrigger; WriteSettles 0 Acked] sampleDevice.

(** The sample device after a request whose write and retry were both
    rejected. *)
Definition failedDevice : Device :=
  run [RequestTrigger; WriteSettles 0 (Rejected noRoute); Tick 500; TimerFires 0;
       WriteSettles 1 (Rejected noRoute)] sampleDevice.

(** A request at 0 s starts the countdown; it ends at 5 s, the pulse is
    written and the write is rejected at 5.05 s, which starts the 500 ms
    pause; a second request comes at 5.2 s, inside the pause; the retry is
    written at 5.55 s and acknowledged at 5.6 s. *)
Definition retryOverlapsRequest : list Event :=
  [ RequestTrigger; Tick 5000; TimerFires 0; Tick 5050; WriteSettles 0 (Rejected noRoute);
    Tick 5200; RequestTrigger;
    Tick 5550; TimerFires 1; Tick 5600; WriteSettles 1 Acked ].

(** The same without any rejection: a request at 0 s starts the countdown;
    it ends at 5 s and the pulse is written; a second request comes at
    5.1 s, while the write is awaited; the write is acknowledged at 5.3 s. *)
Definition writeOverlapsRequest : list Event :=
  [ RequestTrigger; Tick 5000; TimerFires 0;
    Tick 5100; RequestTrigger; Tick 5300; WriteSettles 0 Acked ].

(** A countdown of 5 s and a run time of 20 s: a request at 0 s, the
    countdown ends at 5 s, the write is acknowledged 20 ms later. *)
Definition scenarioDevice : Device :=
  init (sampleCaps (VBool false)) {[ "count_down" := SNum 5; "run_time" := SNum 20 ]}
    sampleCards.

Definition countdownThenPulse : list Event :=
  [ RequestTrigger; Tick 5000; TimerFires 0; Tick 5020; WriteSettles 0 Acked ].

(** The door opens at 1 s and stays open; the open alarm fires at 6 s. *)
Definition doorLeftOpen : list Event :=
  [ Tick 1000; SensorReport (reportContact true); Tick 6000; TimerFires 0 ].

(** ** Further vocabulary *)

(** A timer that no field of the device refers to: the pause before the
    retry and the status recovery. *)
Definition isUntracked (cb : Callback) : bool :=
  match cb with
  | ResumeAfterPause _ | RecoverStatus => true
  | _ => false
  end.

(** What the three timer fields hold: a handle that was handed out, and, if
    that timer is still pending, a timer of the field's kind. *)
Record FieldsTyped (st : Device) : Prop := {
  delayed_handed_out :
    forall h, delayedTriggerTimer st = Some h -> h < nextTimer st;
  safety_handed_out :
    forall h, safetyTimer st = Some h -> h < nextTimer st;
  openAlarm_handed_out :
    forall h, openAlarmTimer st = Some h -> h < nextTimer st;
  delayed_is_countdown :
    forall h tm, delayedTriggerTimer st = Some h -> pending st !! h = Some tm ->
                 isCountdown (callback tm) = true;
  safety_is_safety :
    forall h tm, safetyTimer st = Some h -> pending st !! h = Some tm ->
                 isSafety (callback tm) = true;
  openAlarm_is_openAlarm :
    forall h tm, openAlarmTimer st = Some h -> pending st !! h = Some tm ->
                 isOpenAlarm (callback tm) = true
}.

(** The transport calls of one call of [onSettings]: one for each changed
    key that [settingsMap] answers, in the order of [changedKeys], with
    what [newSettings] has for the key. *)
Definition settingWrites (newSettings : gmap string SettingVal)
    (changedKeys : list string) : list Write :=
  omap (fun key =>
          (fun dp => WriteData32 dp (readSetting newSettings key)) <$> settingsMap key)
    changedKeys.

(** The transport calls numbered from [c] on settle one after the other,
    with the outcomes [os]. *)
Fixpoint settlesFrom (c : Z) (os : list WriteOutcome) : list Event :=
  match os with
  | [] => []
  | o :: os' => WriteSettles c o :: settlesFrom (c + 1) os'
  end.

(** A write to the data point of the door trigger: a call whose data
    point is the number of the door trigger. *)
Definition writesToDoor (w : Write) : bool :=
  match w with
  | WriteBool dpId _ => dpId =? dp_doorTrigger
  | WriteData32 (DpNumber dpId) _ => dpId =? dp_doorTrigger
  | WriteData32 (DpMember _) _ => false
  end.

(** Nothing of a door cycle is under way: no countdown timer and no safety
    timer is pending, and no [sendPulse] is between its write and its
    end. *)
Definition Quiet (st : Device) : Prop :=
  nonePending isCountdown st /\ nonePending isSafety st /\ Idle st.

(** [l'] is [l] followed by elements that satisfy [P]. *)
Definition extendedBy {A : Type} (P : A -> Prop) (l l' : list A) : Prop :=
  exists new, l' = (l ++ new)%list /\ Forall P new.

(** The events of a run that are not trigger requests. *)
Definition noRequest (ev : Event) : Prop := ev <> RequestTrigger.

(** The settings the host stored last on a run, [s] if it stored none. *)
Definition lastStored (evs : list Event) (s : gmap string SettingVal)
    : gmap string SettingVal :=
  fold_left (fun s ev => match ev with SettingsStored s' => s' | _ => s end) evs s.

(** How many entries of a table satisfy [P]. *)
Definition countIn {A : Type} (P : A -> bool) (m : gmap Z A) : nat :=
  size (filter (fun kv => P kv.2 = true) m).

(** A countdown timer, and a pause before the retry. *)
Definition countdownTimer (tm : Timer) : bool := isCountdown (callback tm).
Definition pauseTimer (tm : Timer) : bool := isRetryPause (callback tm).

(** The continuation of [sendPulse] after its first write. *)
Definition isFirstWrite (k : Continuation) : bool :=
  match k with
  | AfterPulseWrite _ => true
  | _ => false
  end.

(** The writes to the door trigger that the device has issued. *)
Definition doorWrites (st : Device) : nat :=
  length (List.filter writesToDoor (writes st)).

(** The writes to the door trigger that what is under way can still issue:
    two for a pending countdown, one for a pending pause, one for a first
    write in flight. *)
Definition pulsesOwed (st : Device) : nat :=
  (2 * countIn countdownTimer (pending st) + countIn pauseTimer (pending st) +
   countIn isFirstWrite (inFlight st))%nat.

(** A press of the UI button or a run of the flow action. *)
Definition isRequest (ev : Event) : bool :=
  match ev with
  | RequestTrigger => true
  | _ => false
  end.

(** The trigger requests of a run. *)
Definition requests (evs : list Event) : nat := length (List.filter isRequest evs).

(** A report of the contact data point. *)
Definition isContactReport (ev : Event) : bool :=
  match ev with
  | SensorReport data => dp data =? dp_garageDoorContact
  | _ => false
  end.

(** ** Further sample devices *)

(** The sample device in the pause before the retry: a request whose write
    was rejected. *)
Definition pausedDevice : Device :=
  run [RequestTrigger; WriteSettles 0 (Rejected noRoute)] sampleDevice.

(** An app that registers no trigger card: the safety timer runs after an
    acknowledged write. *)
Definition armedWithoutCards : Device :=
  run [RequestTrigger; WriteSettles 0 Acked] (init (sampleCaps (VBool false)) ∅ ∅).

(** The door has been reported open at 1 s with an open-alarm time of 5 s,
    and it is 6 s. *)
Definition openSinceDevice : Device :=
  run [Tick 1000; SensorReport (reportContact true); Tick 6000] openAlarmDevice.

(** What the settings page hands to [onSettings]: a run time of 30 s, a
    countdown of 5 s, an open-alarm time of 60 s. *)
Definition changedSettings : gmap string SettingVal :=
  {[ "run_time" := SNum 30; "count_down" := SNum 5; "open_alarm_time" := SNum 60 ]}.

(** ** The handlers between their awaits

    [await this.setCapabilityValue(...)] gives control back to the host:
    what the handler does after it runs once the call has settled, and a
    trigger request, a report, a timer or a settled write can run in
    between.  Here every handler is cut at each of these awaits.  The call
    itself stores the value when it is made; the handler that made it is
    suspended until the host reports that the call has settled.  An [await]
    after which the handler does nothing more (the status report, the
    3000 ms closure, a flow card's [trigger]) suspends nothing. *)

(** [sendPulse], from the contact it reads to its first
    [await this.writeBool(...)]. *)
Definition writePulse (st : Device) : Device :=
  let isCurrentlyOpen := strictEqBool (getCapabilityValue alarm_contact st) true in
  let expectedEndState := negb isCurrentlyOpen in
  writeBool dp_doorTrigger true (AfterPulseWrite expectedEndState) st.

(** [this.delayedTriggerTimer = this.homey.setTimeout(sendPulse, ...)] *)
Definition setCountdownTimer (countdownSeconds : Z) (st : Device) : Device :=
  let '(h, st) := setTimeout SendPulse (countdownSeconds * 1000) st in
  with_delayedTriggerTimer (Some h) st.

(** The 3000 ms closure is handed to [setTimeout]. *)
Definition setRecoveryTimer (st : Device) : Device :=
  snd (setTimeout RecoverStatus 3000 st).

(** What a handler goes on with once an awaited call on a capability has
    settled, with what it has captured. *)
Inductive Resumption :=
| AfterCountdownStatus (countdownSeconds : Z) (* [triggerDoorPulse], after the status '2' *)
| AfterMovingStatus                          (* [sendPulse], after the status 'moving' *)
| AfterErrorStatus                           (* [sendPulse], after the status 'error' *)
| AfterButtonForced                          (* the safety closure, after the button *)
| AfterAlarmStatus                           (* the safety closure, after the status '1' *)
| AfterContactStored (isOpen : bool)         (* [handleDataPoint], after [alarm_contact] *)
| AfterButtonSynced (isOpen : bool)          (* [handleDataPoint], after the button *)
| AfterStatusStored (isOpen : bool).         (* [handleDataPoint], after the status *)

(** The device together with its suspended handlers. *)
Record Host := {
  device : Device;
  nextAwait : Z;                  (* the next fresh number of an awaited call *)
  awaited : gmap Z Resumption     (* the calls on capabilities that are awaited *)
}.

Definition onDevice (f : Device -> Device) (s : Host) : Host :=
  {| device := f (device s); nextAwait := nextAwait s; awaited := awaited s |}.

(** [await this.setCapabilityValue(c, v).catch(this.error)], after which the
    handler goes on with [k]. *)
Definition awaitCapability (c : string) (v : JsVal) (k : Resumption) (s : Host) : Host :=
  {| device := setCapabilityValue c v (device s);
     nextAwait := nextAwait s + 1;
     awaited := <[nextAwait s := k]> (awaited s) |}.

Module Interleaved.

(** [sendPulse], up to its first [await]. *)
Definition sendPulse (s : Host) : Host :=
  if hasCapability garage_Door_State_Capability (device s) then
    awaitCapability garage_Door_State_Capability (VStr "moving") AfterMovingStatus s
  else onDevice writePulse s.

(** [triggerDoorPulse], up to its first [await]. *)
Definition triggerDoorPulse (s : Host) : Host :=
  let s := onDevice (fun st => clearTimeout (delayedTriggerTimer st) st) s in
  let s := onDevice (fun st => clearTimeout (safetyTimer st) st) s in
  let countdownSeconds := countdownSeconds (device s) in
  if countdownSeconds <=? 0 then sendPulse s
  else if hasCapability garage_Door_State_Capability (device s) then
    awaitCapability garage_Door_State_Capability (VStr "2")
      (AfterCountdownStatus countdownSeconds) s
  else onDevice (setCountdownTimer countdownSeconds) s.

(** [sendPulse], from the outcome of the retry to its next [await]. *)
Definition afterRetryWrite (expectedEndState : bool) (o : WriteOutcome) (s : Host) : Host :=
  match o with
  | Acked => onDevice (startSafetyTimer expectedEndState) s
  | Rejected retryErr =>
      if hasCapability garage_Door_State_Capability (device s) then
        awaitCapability garage_Door_State_Capability (VStr "error") AfterErrorStatus s
      else onDevice setRecoveryTimer s
  end.

(** The closure of [startSafetyTimer], up to its first [await]. *)
Definition safetyCheck (expectedState : bool) (s : Host) : Host :=
  let currentContact := getCapabilityValue alarm_contact (device s) in
  if negb (strictEqBool currentContact expectedState) then
    awaitCapability garage_Door_Button currentContact AfterButtonForced s
  else s.

(** The closure of [startSafetyTimer], from the button to the flow card. *)
Definition afterButtonForced (s : Host) : Host :=
  if hasCapability garage_Door_State_Capability (device s) then
    awaitCapability garage_Door_State_Capability (VStr "1") AfterAlarmStatus s
  else onDevice (triggerFlow "runtime_alarm_triggered") s.

(** [handleDataPoint] on a contact report, after its three awaits. *)
Definition afterStatusStored (isOpen : bool) (s : Host) : Host :=
  onDevice (if isOpen then startOpenAlarmTimer else stopOpenAlarmTimer) s.

Definition afterButtonSynced (isOpen : bool) (s : Host) : Host :=
  if hasCapability garage_Door_State_Capability (device s) then
    awaitCapability garage_Door_State_Capability
      (VStr (if isOpen then "open" else "closed")) (AfterStatusStored isOpen) s
  else afterStatusStored isOpen s.

Definition afterContactStored (isOpen : bool) (s : Host) : Host :=
  if hasCapability garage_Door_Button (device s) then
    awaitCapability garage_Door_Button (VBool isOpen) (AfterButtonSynced isOpen) s
  else afterButtonSynced isOpen s.

(** [handleDataPoint], up to its first [await]. *)
Definition handleDataPoint (data : DpValue) (s : Host) : Host :=
  let value := getDataValue data in
  if dp data =? dp_garageDoorContact then
    let isOpen := truthy value in
    let s := onDevice (fun st => clearTimeout (safetyTimer st) st) s in
    let s := onDevice (fun st => clearTimeout (delayedTriggerTimer st) st) s in
    awaitCapability alarm_contact (VBool isOpen) (AfterContactStored isOpen) s
  else if dp data =? dp_status then
    if hasCapability garage_Door_State_Capability (device s) then
      match toString value with
      | Some str =>
          onDevice (setCapabilityValue garage_Door_State_Capability (VStr str)) s
      | None => s
      end
    else s
  else s.

(** A suspended handler goes on, up to its next [await] or its end. *)
Definition resume (k : Resumption) (s : Host) : Host :=
  match k with
  | AfterCountdownStatus countdownSeconds => onDevice (setCountdownTimer countdownSeconds) s
  | AfterMovingStatus => onDevice writePulse s
  | AfterErrorStatus => onDevice setRecoveryTimer s
  | AfterButtonForced => afterButtonForced s
  | AfterAlarmStatus => onDevice (triggerFlow "runtime_alarm_triggered") s
  | AfterContactStored isOpen => afterContactStored isOpen s
  | AfterButtonSynced isOpen => afterButtonSynced isOpen s
  | AfterStatusStored isOpen => afterStatusStored isOpen s
  end.

(** The awaited call [a] settles. *)
Definition capabilitySettles (a : Z) (s : Host) : Host :=
  match awaited s !! a with
  | Some k =>
      resume k {| device := device s; nextAwait := nextAwait s;
                  awaited := delete a (awaited s) |}
  | None => s
  end.

Definition runCallback (cb : Callback) (s : Host) : Host :=
  match cb with
  | SendPulse => sendPulse s
  | ResumeAfterPause expectedEndState => onDevice (resumeAfterPause expectedEndState) s
  | RecoverStatus => onDevice recoverStatus s
  | SafetyCheck expectedState => safetyCheck expectedState s
  | OpenAlarmCheck _ => onDevice openAlarmCheck s
  end.

Definition fire (h : Z) (s : Host) : Host :=
  match pending (device s) !! h with
  | Some tm =>
      runCallback (callback tm)
        (onDevice (fun st => with_timers (nextTimer st) (delete h (pending st)) st) s)
  | None => s
  end.

Definition runContinuation (k : Continuation) (o : WriteOutcome) (s : Host) : Host :=
  match k with
  | AfterPulseWrite expectedEndState => onDevice (afterPulseWrite expectedEndState o) s
  | AfterRetryWrite expectedEndState => afterRetryWrite expectedEndState o s
  | AfterSettingWrite newSettings changedKeys rest =>
      onDevice (writeChangedSettings newSettings changedKeys rest) s
  end.

Definition settle (c : Z) (o : WriteOutcome) (s : Host) : Host :=
  match inFlight (device s) !! c with
  | Some k =>
      runContinuation k o
        (onDevice (fun st => with_calls (nextCall st) (delete c (inFlight st)) (writes st) st)
           s)
  | None => s
  end.

(** What happens next: an event arrives and its handler runs up to its
    first [await], or an awaited call settles and the handler that awaited
    it goes on. *)
Inductive Occurrence :=
| Arrives (ev : Event)
| CapabilitySettles (a : Z).

Definition step (oc : Occurrence) (s : Host) : Host :=
  match oc with
  | Arrives (Tick t) => onDevice (with_now t) s
  | Arrives RequestTrigger => triggerDoorPulse s
  | Arrives (SensorReport data) => handleDataPoint data s
  | Arrives (TimerFires h) => fire h s
  | Arrives (WriteSettles c o) => settle c o s
  | Arrives (SettingsChanged newSettings changedKeys) =>
      onDevice (onSettings newSettings changedKeys) s
  | Arrives (SettingsStored stored) => onDevice (with_settings stored) s
  | Arrives Deleted => onDevice onDeleted s
  | CapabilitySettles a => capabilitySettles a s
  end.

Definition run (ocs : list Occurrence) (s : Host) : Host :=
  fold_left (fun s oc => step oc s) ocs s.

(** Only a call that is awaited settles. *)
Definition feasible (oc : Occurrence) (s : Host) : bool :=
  match oc with
  | Arrives ev => feasible ev (device s)
  | CapabilitySettles a => bool_decide (is_Some (awaited s !! a))
  end.

Fixpoint feasibleRun (ocs : list Occurrence) (s : Host) : bool :=
  match ocs with
  | [] => true
  | oc :: ocs' => feasible oc s && feasibleRun ocs' (step oc s)
  end.

(** No handler is suspended. *)
Definition boot (st : Device) : Host :=
  {| device := st; nextAwait := 0; awaited := ∅ |}.

(** The event [ev] on its own: every call its handler awaits settles
    before anything else happens.  A handler awaits at most three calls,
    which get the next three numbers; a number that is not awaited settles
    nothing. *)
Definition alone (ev : Event) (s : Host) : list Occurrence :=
  [ Arrives ev; CapabilitySettles (nextAwait s); CapabilitySettles (nextAwait s + 1);
    CapabilitySettles (nextAwait s + 2) ].

(** The events [evs] one after the other, each on its own. *)
Fixpoint serial (evs : list Event) (s : Host) : list Occurrence :=
  match evs with
  | [] => []
  | ev :: evs' => (alone ev s ++ serial evs' (run (alone ev s) s))%list
  end.

End Interleaved.

Import Interleaved (Occurrence, Arrives, CapabilitySettles).

(** The numbers of the awaited calls have been handed out. *)
Definition awaitsFresh (s : Host) : Prop :=
  forall a k, awaited s !! a = Some k -> a < nextAwait s.

(** The timers of kind [kind] that are pending are the one that [field]
    refers to. *)
Definition ownedBy (kind : Callback -> bool) (field : Device -> option Z) (st : Device)
    : Prop :=
  forall h tm, pending st !! h = Some tm -> kind (callback tm) = true -> field st = Some h.

(** The part of the timer discipline that no interleaving breaks: handles
    are fresh, and a pending safety or open-alarm timer is the one its field
    refers to. *)
Record TimersTracked (st : Device) : Prop := {
  tracked_fresh : forall h tm, pending st !! h = Some tm -> h < nextTimer st;
  tracked_safety : ownedBy isSafety safetyTimer st;
  tracked_openAlarm : ownedBy isOpenAlarm openAlarmTimer st
}.

(** Two trigger requests in quick succession: the second arrives while the
    first awaits the status, then both go on. *)
Definition overlappingRequests : list Occurrence :=
  [ Arrives RequestTrigger; Arrives RequestTrigger;
    CapabilitySettles 0; CapabilitySettles 1 ].

(** After them the door is reported open at 1 s and closed at 2 s, and each
    report is handled to its end. *)
Definition reportsAfterOverlap : list Occurrence :=
  [ Arrives (Tick 1000); Arrives (SensorReport (reportContact true));
    CapabilitySettles 2; CapabilitySettles 3; CapabilitySettles 4;
    Arrives (Tick 2000); Arrives (SensorReport (reportContact false));
    CapabilitySettles 5; CapabilitySettles 6; CapabilitySettles 7 ].

(** At 5 s the countdown timer of the first request fires. *)
Definition staleCountdownFires : list Occurrence :=
  [ Arrives (Tick 5000); Arrives (TimerFires 0); CapabilitySettles 8 ].

(** After the two overlapping requests a third one comes at 1 s. *)
Definition requestAfterOverlap : list Occurrence :=
  [ Arrives (Tick 1000); Arrives RequestTrigger; CapabilitySettles 2 ].

(** The two countdown timers then fire, at 5 s and at 6 s, and each write
    is acknowledged. *)
Definition bothCountdownsFire : list Occurrence :=
  [ Arrives (Tick 5000); Arrives (TimerFires 0); CapabilitySettles 3;
    Arrives (WriteSettles 0 Acked);
    Arrives (Tick 6000); Arrives (TimerFires 2); CapabilitySettles 4;
    Arrives (WriteSettles 1 Acked) ].

(** ** Vocabulary of the suspended handlers *)

(** A trigger request that awaits the status before it sets its countdown
    timer, a [sendPulse] that awaits the status before its write, and a
    safety closure that awaits its calls before it raises the alarm. *)
Definition awaitsCountdown (k : Resumption) : bool :=
  match k with AfterCountdownStatus _ => true | _ => false end.

Definition awaitsMoving (k : Resumption) : bool :=
  match k with AfterMovingStatus => true | _ => false end.

Definition awaitsAlarm (k : Resumption) : bool :=
  match k with AfterButtonForced | AfterAlarmStatus => true | _ => false end.

(** A suspended handler of a door cycle. *)
Definition ofCycleAwait (k : Resumption) : bool :=
  awaitsCountdown k || awaitsMoving k || awaitsAlarm k.

(** A timer of a door cycle: countdown, pause before the retry, safety. *)
Definition ofCycle (cb : Callback) : bool :=
  isCountdown cb || isRetryPause cb || isSafety cb.

(** No suspended handler is of the given kind. *)
Definition noneAwaited (kind : Resumption -> bool) (s : Host) : Prop :=
  forall a k, awaited s !! a = Some k -> kind k = false.

(** No trigger request is suspended before its countdown timer, and no
    [sendPulse] is under way: none awaits the status, its write or the end
    of the pause. *)
Definition AtRest (s : Host) : Prop :=
  noneAwaited awaitsCountdown s /\ noneAwaited awaitsMoving s /\ Idle (device s).

(** The same as a test. *)
Definition atRest (s : Host) : bool :=
  bool_decide (map_Forall (fun _ k => awaitsCountdown k = false) (awaited s)) &&
  bool_decide (map_Forall (fun _ k => awaitsMoving k = false) (awaited s)) &&
  bool_decide (map_Forall (fun _ k => isPulseContinuation k = false) (inFlight (device s))) &&
  bool_decide (map_Forall (fun _ tm => isRetryPause (callback tm) = false)
                 (pending (device s))).

(** On the run [ocs] from [s], every trigger request comes at rest. *)
Fixpoint requestsAtRest (ocs : list Occurrence) (s : Host) : bool :=
  match ocs with
  | [] => true
  | oc :: ocs' =>
      match oc with
      | Arrives RequestTrigger => atRest s
      | _ => true
      end && requestsAtRest ocs' (Interleaved.step oc s)
  end.

(** Nothing of a door cycle is under way or suspended. *)
Definition QuietHost (s : Host) : Prop :=
  Quiet (device s) /\ noneAwaited ofCycleAwait s.

(** What happens next does not belong to a door cycle: it is not a trigger
    request, the timer that fires is not a timer of a cycle, the write that
    settles is not the pulse, and the handler that goes on is not a
    suspended handler of a cycle. *)
Definition calm (oc : Occurrence) (s : Host) : bool :=
  match oc with
  | Arrives RequestTrigger => false
  | Arrives (TimerFires h) =>
      match pending (device s) !! h with
      | Some tm => negb (ofCycle (callback tm))
      | None => true
      end
  | Arrives (WriteSettles c _) =>
      match inFlight (device s) !! c with
      | Some k => negb (isPulseContinuation k)
      | None => true
      end
  | Arrives _ => true
  | CapabilitySettles a =>
      match awaited s !! a with
      | Some k => negb (ofCycleAwait k)
      | None => true
      end
  end.

(** [st'] has nothing of a door cycle that [st] has not: the timers of a
    cycle and the pulse writes in flight were there before, the timer
    discipline is kept, no write goes to the door trigger and no alert but
    the open-time alarm is raised. *)
Record CalmDevice (st st' : Device) : Prop := {
  calm_owned : TimersOwned st -> TimersOwned st';
  calm_pending :
    forall h tm, pending st' !! h = Some tm -> ofCycle (callback tm) = true ->
                 pending st !! h = Some tm;
  calm_inFlight :
    forall c k, inFlight st' !! c = Some k -> isPulseContinuation k = true ->
                inFlight st !! c = Some k;
  calm_writes : extendedBy (fun w => writesToDoor w = false) (writes st) (writes st');
  calm_alerts :
    extendedBy (fun a => a = "opentime_alarm_triggered") (alerts st) (alerts st')
}.

(** The same of the device with its suspended handlers. *)
Definition Calm (s s' : Host) : Prop :=
  CalmDevice (device s) (device s') /\
  forall a k, awaited s' !! a = Some k -> ofCycleAwait k = true -> awaited s !! a = Some k.

(** The cycles are apart: the timer discipline holds, a countdown timer and
    a safety timer are not pending together, a countdown timer is pending
    only at rest, and a trigger request is suspended before its countdown
    timer only while no safety timer is pending and no [sendPulse] is under
    way; at most one is. *)
Record CyclesApart (s : Host) : Prop := {
  apart_owned : TimersOwned (device s);
  apart_exclusive : Exclusive (device s);
  apart_rest : AtRest s \/ nonePending isCountdown (device s);
  apart_request :
    noneAwaited awaitsCountdown s \/
    (nonePending isSafety (device s) /\ Idle (device s) /\ noneAwaited awaitsMoving s);
  apart_one :
    forall a k a' k',
      awaited s !! a = Some k -> awaitsCountdown k = true ->
      awaited s !! a' = Some k' -> awaitsCountdown k' = true -> a = a'
}.

(** The sample device after a request whose write was acknowledged, with
    the awaited calls settled: the safety timer runs. *)
Definition armedHost : Host :=
  Interleaved.run
    [ Arrives RequestTrigger; CapabilitySettles 0; Arrives (WriteSettles 0 Acked) ]
    (Interleaved.boot sampleDevice).

(** A countdown of 5 s: a request, the countdown ends at 5 s, the write is
    acknowledged; a second request comes at 7 s, while the safety timer
    runs, and sets its countdown timer. *)
Definition requestDuringSafety : list Occurrence :=
  [ Arrives RequestTrigger; CapabilitySettles 0;
    Arrives (Tick 5000); Arrives (TimerFires 0); CapabilitySettles 1;
    Arrives (WriteSettles 0 Acked);
    Arrives (Tick 7000); Arrives RequestTrigger; CapabilitySettles 2 ].

(** The sample device with the door open, after a request whose write was
    acknowledged: the safety timer runs and expects the door closed. *)
Definition armedOpenDevice : Device :=
  run [RequestTrigger; WriteSettles 0 Acked] (init (sampleCaps (VBool true)) ∅ sampleCards).

(** * Properties *)

(** ** Data parsing *)

Lemma byteZ_range b : 0 <= byteZ b < 256.
Proof. unfold byteZ. pose proof (Byte.to_N_bounded b). lia. Qed.

Lemma toInt32_range x : - 2 ^ 31 <= toInt32 x < 2 ^ 31.
Proof. unfold toInt32. pose proof (Z.mod_pos_bound (x + 2 ^ 31) (2 ^ 32)). lia. Qed.

Lemma toInt32_small x : - 2 ^ 31 <= x < 2 ^ 31 -> toInt32 x = x.
Proof. intros H. unfold toInt32. rewrite Z.mod_small; lia. Qed.

(** One turn of the loop of [convertMultiByte], on an accumulator that is
    already wrapped. *)
Lemma shl32_8_add a b :
  0 <= b < 256 -> shl32 (toInt32 a) 8 + b = toInt32 (a * 256 + b).
Proof.
  intros Hb. unfold shl32. rewrite (toInt32_small (toInt32 a)) by apply toInt32_range.
  rewrite Z.shiftl_mul_pow2 by lia. unfold toInt32.
  change (2 ^ 8) with 256. change (2 ^ 31) with 2147483648.
  change (2 ^ 32) with 4294967296.
  Z.div_mod_to_equations; lia.
Qed.

Lemma convertMultiByte_from chunks : forall acc,
  fold_left (fun value c => shl32 value 8 + byteZ c) chunks (toInt32 acc) =
  toInt32 (fold_left (fun value c => value * 256 + byteZ c) chunks acc).
Proof.
  induction chunks as [|c chunks IH]; intros acc; simpl; [reflexivity|].
  rewrite shl32_8_add by apply byteZ_range. apply IH.
Qed.

Lemma convertMultiByte_wraps chunks :
  convertMultiByte chunks = toInt32 (bigEndianUnsigned chunks).
Proof.
  unfold convertMultiByte, bigEndianUnsigned.
  rewrite <- convertMultiByte_from. reflexivity.
Qed.

Lemma bigEndianUnsigned_snoc chunks c :
  bigEndianUnsigned (chunks ++ [c]) = bigEndianUnsigned chunks * 256 + byteZ c.
Proof. unfold bigEndianUnsigned. rewrite fold_left_app. reflexivity. Qed.

Lemma bigEndianUnsigned_nonneg chunks : 0 <= bigEndianUnsigned chunks.
Proof.
  induction chunks as [|c chunks IH] using rev_ind; [done|].
  rewrite bigEndianUnsigned_snoc. pose proof (byteZ_range c). lia.
Qed.

Lemma bigEndianUnsigned_bound chunks :
  bigEndianUnsigned chunks < 256 ^ Z.of_nat (length chunks).
Proof.
  induction chunks as [|c chunks IH] using rev_ind; [done|].
  rewrite bigEndianUnsigned_snoc, length_app, Nat2Z.inj_add, Z.pow_add_r by lia.
  change (256 ^ Z.of_nat (length [c])) with 256.
  pose proof (byteZ_range c). lia.
Qed.

(** A payload of at most three bytes decodes to its unsigned reading. *)
Lemma convertMultiByte_short chunks :
  (length chunks <= 3)%nat -> convertMultiByte chunks = bigEndianUnsigned chunks.
Proof.
  intros Hlen. rewrite convertMultiByte_wraps. apply toInt32_small.
  pose proof (bigEndianUnsigned_nonneg chunks).
  pose proof (bigEndianUnsigned_bound chunks).
  assert (256 ^ Z.of_nat (length chunks) <= 256 ^ 3)
    by (apply Z.pow_le_mono_r; lia).
  lia.
Qed.

(** C8, amended.  [getDataValue] decodes by datatype: 0 gives the raw
    bytes; 1 gives true iff the first byte is 1; 2 gives the big-endian
    reading of all the bytes wrapped to signed 32 bits, which is the
    unsigned reading whenever that is below 2^31; 4 gives the first byte
    ([undefined] on an empty payload); any other datatype gives the raw
    bytes. *)
Theorem getDataValue_by_datatype (v : DpValue) :
  (datatype v = 0 -> getDataValue v = VBytes (data v)) /\
  (datatype v = 1 ->
     getDataValue v = VBool (bool_decide (byteZ <$> head (data v) = Some 1))) /\
  (datatype v = 2 ->
     getDataValue v = VNum (toInt32 (bigEndianUnsigned (data v))) /\
     (bigEndianUnsigned (data v) < 2 ^ 31 ->
        getDataValue v = VNum (bigEndianUnsigned (data v)))) /\
  (datatype v = 4 ->
     getDataValue v = from_option (fun b => VNum (byteZ b)) VUndefined (head (data v))) /\
  (datatype v <> 0 -> datatype v <> 1 -> datatype v <> 2 -> datatype v <> 4 ->
     getDataValue v = VBytes (data v)).
Proof.
  unfold getDataValue. split; [|split; [|split; [|split]]].
  - intros ->. reflexivity.
  - intros ->. destruct (data v) as [|b rest]; simpl; [reflexivity|].
    f_equal. destruct (Z.eqb_spec (byteZ b) 1) as [->|Hne].
    + by rewrite bool_decide_eq_true_2.
    + rewrite bool_decide_eq_false_2; [done|]. intros [=]. done.
  - intros ->. rewrite convertMultiByte_wraps. split; [done|].
    intros Hlt. rewrite toInt32_small; [done|].
    pose proof (bigEndianUnsigned_nonneg (data v)). lia.
  - intros ->. by destruct (data v).
  - intros H0 H1 H2 H4. destruct (datatype v) as [|p|p]; [done| |done].
    repeat (destruct p as [p|p|]; try done).
Qed.

(** ** Host calls and the timer discipline *)

(** Splits a lookup in a table of timers after [setTimeout] and
    [clearTimeout]. *)
Ltac lookups :=
  repeat match goal with
    | H : <[_ := _]> _ !! _ = Some _ |- _ =>
        apply lookup_insert_Some in H as [[<- <-]|[? H]]
    | H : delete _ _ !! _ = Some _ |- _ =>
        apply lookup_delete_Some in H as [? H]
    end.

(** [st'] has the timers of [st]: same table, same fields. *)
Lemma TimersOwned_same st st' :
  pending st' = pending st -> nextTimer st' = nextTimer st ->
  delayedTriggerTimer st' = delayedTriggerTimer st ->
  safetyTimer st' = safetyTimer st -> openAlarmTimer st' = openAlarmTimer st ->
  TimersOwned st -> TimersOwned st'.
Proof.
  intros Hp Hn Hd Hs Ho [? ? ? ?]. split; rewrite Hp, ?Hn, ?Hd, ?Hs, ?Ho; done.
Qed.

(** The cases of [TimersOwned] after a handler: a timer is the new one, or
    an old one that was not cleared. *)
Ltac own_solve :=
  match goal with
  | Hf : forall h tm, pending ?st !! h = Some tm -> h < nextTimer ?st,
    Hl : pending ?st !! ?h = Some _ |- _ =>
      pose proof (Hf _ _ Hl); simpl in *; first [lia | congruence | by eauto]
  | _ => simpl in *; first [lia | congruence | by eauto]
  end.

Ltac own_cases :=
  split; simpl; intros ? ? Hl; lookups; simpl in *; try done; try intros Hk;
  try own_solve.

Lemma TimersOwned_setCapabilityValue c v st :
  TimersOwned st -> TimersOwned (setCapabilityValue c v st).
Proof.
  apply TimersOwned_same; unfold setCapabilityValue; by destruct (hasCapability c st).
Qed.

Lemma TimersOwned_setIfHas c v st :
  TimersOwned st -> TimersOwned (setIfHas c v st).
Proof.
  unfold setIfHas. destruct (hasCapability c st); [|done].
  apply TimersOwned_setCapabilityValue.
Qed.

Lemma TimersOwned_triggerFlow card st :
  TimersOwned st -> TimersOwned (triggerFlow card st).
Proof. apply TimersOwned_same; unfold triggerFlow; by case_bool_decide. Qed.

Lemma TimersOwned_writeBool d b k st :
  TimersOwned st -> TimersOwned (writeBool d b k st).
Proof. by apply TimersOwned_same. Qed.

Lemma TimersOwned_writeData32 d v k st :
  TimersOwned st -> TimersOwned (writeData32 d v k st).
Proof. by apply TimersOwned_same. Qed.

Lemma TimersOwned_clearTimeout h st : TimersOwned st -> TimersOwned (clearTimeout h st).
Proof. intros [Hf Hc Hs Ho]. destruct h as [h|]; [|done]. own_cases. Qed.

(** A timer that no field tracks can be set at any time. *)
Lemma TimersOwned_setTimeout cb ms st :
  isCountdown cb = false -> isSafety cb = false -> isOpenAlarm cb = false ->
  TimersOwned st -> TimersOwned (snd (setTimeout cb ms st)).
Proof. intros ? ? ? [Hf Hc Hs Ho]. own_cases. Qed.

Lemma TimersOwned_startSafetyTimer e st :
  TimersOwned st -> TimersOwned (startSafetyTimer e st).
Proof.
  intros [Hf Hc Hs Ho]. unfold startSafetyTimer.
  destruct (safetyTimer st) as [h0|] eqn:E; simpl; own_cases.
  all: match goal with H : pending _ !! _ = Some _ |- _ =>
         specialize (Hs _ _ H Hk); congruence end.
Qed.

Lemma TimersOwned_startOpenAlarmTimer st :
  TimersOwned st -> TimersOwned (startOpenAlarmTimer st).
Proof.
  intros [Hf Hc Hs Ho]. unfold startOpenAlarmTimer.
  destruct (openAlarmTimer st) as [h0|] eqn:E; simpl;
    destruct (_ <=? 0); simpl; own_cases.
  all: match goal with H : pending _ !! _ = Some _ |- _ =>
         specialize (Ho _ _ H Hk); congruence end.
Qed.

Lemma nonePending_same kind st st' :
  pending st' = pending st -> nonePending kind st -> nonePending kind st'.
Proof. unfold nonePending. by intros ->. Qed.

Lemma nonePending_clearTimeout kind h st :
  nonePending kind st -> nonePending kind (clearTimeout h st).
Proof.
  intros Hn. destruct h as [h|]; [|done]. intros h' tm Hl. simpl in Hl. lookups. eauto.
Qed.

Lemma nonePending_setTimeout kind cb ms st :
  kind cb = false -> nonePending kind st -> nonePending kind (snd (setTimeout cb ms st)).
Proof. intros Hk Hn h tm Hl. simpl in Hl. lookups; eauto. Qed.

Lemma nonePending_setCapabilityValue kind c v st :
  nonePending kind st -> nonePending kind (setCapabilityValue c v st).
Proof.
  apply nonePending_same. unfold setCapabilityValue. by destruct (hasCapability c st).
Qed.

Lemma nonePending_setIfHas kind c v st :
  nonePending kind st -> nonePending kind (setIfHas c v st).
Proof.
  unfold setIfHas. destruct (hasCapability c st); [|done].
  apply nonePending_setCapabilityValue.
Qed.

(** Clearing the field of a kind leaves no timer of that kind. *)
Lemma nonePending_clear_countdown st :
  TimersOwned st -> nonePending isCountdown (clearTimeout (delayedTriggerTimer st) st).
Proof.
  intros [Hf Hc Hs Ho] h tm Hl. destruct (isCountdown (callback tm)) eqn:Hk; [|done].
  destruct (delayedTriggerTimer st) as [h0|] eqn:E; simpl in Hl; lookups;
    specialize (Hc _ _ Hl Hk); congruence.
Qed.

Lemma nonePending_clear_safety st :
  TimersOwned st -> nonePending isSafety (clearTimeout (safetyTimer st) st).
Proof.
  intros [Hf Hc Hs Ho] h tm Hl. destruct (isSafety (callback tm)) eqn:Hk; [|done].
  destruct (safetyTimer st) as [h0|] eqn:E; simpl in Hl; lookups;
    specialize (Hs _ _ Hl Hk); congruence.
Qed.

Lemma nonePending_clear_openAlarm st :
  TimersOwned st -> nonePending isOpenAlarm (clearTimeout (openAlarmTimer st) st).
Proof.
  intros [Hf Hc Hs Ho] h tm Hl. destruct (isOpenAlarm (callback tm)) eqn:Hk; [|done].
  destruct (openAlarmTimer st) as [h0|] eqn:E; simpl in Hl; lookups;
    specialize (Ho _ _ Hl Hk); congruence.
Qed.

(** Setting the countdown timer and recording its handle. *)
Lemma TimersOwned_countdown ms st :
  TimersOwned st -> nonePending isCountdown st ->
  TimersOwned (with_delayedTriggerTimer (Some (nextTimer st)) (snd (setTimeout SendPulse ms st))).
Proof.
  intros [Hf Hc Hs Ho] Hn. own_cases.
  match goal with H : pending _ !! _ = Some _ |- _ =>
    specialize (Hn _ _ H); congruence end.
Qed.

Lemma TimersOwned_safetyCheck e st : TimersOwned st -> TimersOwned (safetyCheck e st).
Proof.
  intros H. unfold safetyCheck. destruct (negb _); [|done].
  by apply TimersOwned_triggerFlow, TimersOwned_setIfHas, TimersOwned_setCapabilityValue.
Qed.

Lemma TimersOwned_openAlarmCheck st : TimersOwned st -> TimersOwned (openAlarmCheck st).
Proof.
  intros H. unfold openAlarmCheck. destruct (strictEqBool _ _); [|done].
  by apply TimersOwned_triggerFlow.
Qed.

Lemma TimersOwned_recoverStatus st : TimersOwned st -> TimersOwned (recoverStatus st).
Proof. apply TimersOwned_setCapabilityValue. Qed.

Lemma TimersOwned_sendPulse st : TimersOwned st -> TimersOwned (sendPulse st).
Proof. intros H. by apply TimersOwned_writeBool, TimersOwned_setIfHas. Qed.

Lemma TimersOwned_afterPulseWrite e o st :
  TimersOwned st -> TimersOwned (afterPulseWrite e o st).
Proof.
  intros H. unfold afterPulseWrite.
  destruct o as [|err]; [by apply TimersOwned_startSafetyTimer|].
  destruct (isTimeout err); [by apply TimersOwned_startSafetyTimer|].
  by apply TimersOwned_setTimeout.
Qed.

Lemma TimersOwned_resumeAfterPause e st :
  TimersOwned st -> TimersOwned (resumeAfterPause e st).
Proof. apply TimersOwned_writeBool. Qed.

Lemma TimersOwned_afterRetryWrite e o st :
  TimersOwned st -> TimersOwned (afterRetryWrite e o st).
Proof.
  intros H. unfold afterRetryWrite. destruct o as [|err].
  - by apply TimersOwned_startSafetyTimer.
  - by apply TimersOwned_setTimeout, TimersOwned_setIfHas.
Qed.

Lemma TimersOwned_triggerDoorPulse st :
  TimersOwned st -> TimersOwned (triggerDoorPulse st).
Proof.
  intros H. unfold triggerDoorPulse.
  set (st1 := clearTimeout (delayedTriggerTimer st) st).
  set (st2 := clearTimeout (safetyTimer st1) st1).
  assert (TimersOwned st2) as H2 by by do 2 apply TimersOwned_clearTimeout.
  assert (nonePending isCountdown st2) as Hn
    by by apply nonePending_clearTimeout, nonePending_clear_countdown.
  destruct (countdownSeconds st2 <=? 0); [by apply TimersOwned_sendPulse|].
  set (st3 := setIfHas _ _ st2).
  change (TimersOwned (with_delayedTriggerTimer (Some (nextTimer st3))
            (snd (setTimeout SendPulse (countdownSeconds st2 * 1000) st3)))).
  apply TimersOwned_countdown.
  - by apply TimersOwned_setIfHas.
  - by apply nonePending_setIfHas.
Qed.

Lemma TimersOwned_handleDataPoint data st :
  TimersOwned st -> TimersOwned (handleDataPoint data st).
Proof.
  intros H. unfold handleDataPoint.
  destruct (dp data =? dp_garageDoorContact).
  - destruct (truthy _); [apply TimersOwned_startOpenAlarmTimer|apply TimersOwned_clearTimeout].
    all: do 2 apply TimersOwned_setIfHas; apply TimersOwned_setCapabilityValue.
    all: by do 2 apply TimersOwned_clearTimeout.
  - destruct (dp data =? dp_status); [|done].
    destruct (hasCapability _ _); [|done]. destruct (toString _); [|done].
    by apply TimersOwned_setCapabilityValue.
Qed.

Lemma TimersOwned_afterSettingWrites changedKeys st :
  TimersOwned st -> TimersOwned (afterSettingWrites changedKeys st).
Proof.
  intros H. unfold afterSettingWrites.
  destruct (existsb _ _); [|done]. destruct (strictEqBool _ _); [|done].
  by apply TimersOwned_startOpenAlarmTimer.
Qed.

Lemma TimersOwned_writeChangedSettings newSettings changedKeys rest st :
  TimersOwned st -> TimersOwned (writeChangedSettings newSettings changedKeys rest st).
Proof.
  induction rest as [|key rest IH]; intros H; simpl.
  - by apply TimersOwned_afterSettingWrites.
  - destruct (settingsMap key); [by apply TimersOwned_writeData32|by apply IH].
Qed.

Lemma TimersOwned_onSettings newSettings changedKeys st :
  TimersOwned st -> TimersOwned (onSettings newSettings changedKeys st).
Proof. apply TimersOwned_writeChangedSettings. Qed.

Lemma TimersOwned_onDeleted st : TimersOwned st -> TimersOwned (onDeleted st).
Proof. intros H. unfold onDeleted. by do 3 apply TimersOwned_clearTimeout. Qed.

Lemma TimersOwned_runCallback cb st :
  TimersOwned st -> TimersOwned (runCallback cb st).
Proof.
  intros H. destruct cb; simpl.
  - by apply TimersOwned_sendPulse.
  - by apply TimersOwned_resumeAfterPause.
  - by apply TimersOwned_recoverStatus.
  - by apply TimersOwned_safetyCheck.
  - by apply TimersOwned_openAlarmCheck.
Qed.

Lemma TimersOwned_fire h st : TimersOwned st -> TimersOwned (fire h st).
Proof.
  intros H. unfold fire. destruct (pending st !! h) as [tm|]; [|done].
  apply TimersOwned_runCallback. by apply (TimersOwned_clearTimeout (Some h)).
Qed.

Lemma TimersOwned_runContinuation k o st :
  TimersOwned st -> TimersOwned (runContinuation k o st).
Proof.
  intros H. destruct k; simpl.
  - by apply TimersOwned_afterPulseWrite.
  - by apply TimersOwned_afterRetryWrite.
  - by apply TimersOwned_writeChangedSettings.
Qed.

Lemma TimersOwned_settle c o st : TimersOwned st -> TimersOwned (settle c o st).
Proof.
  intros H. unfold settle. destruct (inFlight st !! c) as [k|]; [|done].
  apply TimersOwned_runContinuation. by apply (TimersOwned_same st).
Qed.

Lemma TimersOwned_step ev st : TimersOwned st -> TimersOwned (step ev st).
Proof.
  intros H. destruct ev as [t| |data|h|c o|newSettings changedKeys|s|]; simpl.
  - by apply (TimersOwned_same st).
  - by apply TimersOwned_triggerDoorPulse.
  - by apply TimersOwned_handleDataPoint.
  - by apply TimersOwned_fire.
  - by apply TimersOwned_settle.
  - by apply TimersOwned_onSettings.
  - by apply (TimersOwned_same st).
  - by apply TimersOwned_onDeleted.
Qed.

Lemma TimersOwned_run evs : forall st, TimersOwned st -> TimersOwned (run evs st).
Proof.
  induction evs as [|ev evs IH]; intros st H; simpl; [done|].
  by apply IH, TimersOwned_step.
Qed.

Lemma TimersOwned_init caps s cards : TimersOwned (init caps s cards).
Proof. split; simpl; intros h tm Hl; by rewrite lookup_empty in Hl. Qed.

(** Every state the device reaches when each event is on its own (no two
    handlers overlap at an awaited call) keeps the timer discipline. *)
Lemma TimersOwned_reachable caps s cards evs : TimersOwned (run evs (init caps s cards)).
Proof. apply TimersOwned_run, TimersOwned_init. Qed.

Lemma TimersOwned_atMostOne st :
  TimersOwned st ->
  atMostOne isCountdown st /\ atMostOne isSafety st /\ atMostOne isOpenAlarm st.
Proof.
  intros [Hf Hc Hs Ho]. repeat split; intros h1 tm1 h2 tm2 H1 K1 H2 K2.
  - pose proof (Hc _ _ H1 K1). pose proof (Hc _ _ H2 K2). congruence.
  - pose proof (Hs _ _ H1 K1). pose proof (Hs _ _ H2 K2). congruence.
  - pose proof (Ho _ _ H1 K1). pose proof (Ho _ _ H2 K2). congruence.
Qed.

(** ** Handlers as record updates *)

Lemma with_capabilities_id st : with_capabilities (capabilities st) st = st.
Proof. by destruct st. Qed.

Lemma setCapabilityValue_store c v st :
  setCapabilityValue c v st =
  with_capabilities (storeCapability c v (capabilities st)) st.
Proof.
  unfold setCapabilityValue, storeCapability, hasCapability.
  case_bool_decide; [done|]. by rewrite with_capabilities_id.
Qed.

Lemma setIfHas_store c v st :
  setIfHas c v st = with_capabilities (storeCapability c v (capabilities st)) st.
Proof.
  unfold setIfHas. destruct (hasCapability c st) eqn:E.
  - apply setCapabilityValue_store.
  - unfold storeCapability. unfold hasCapability in E. rewrite E.
    by rewrite with_capabilities_id.
Qed.

Lemma clearTimeout_cancel h st :
  clearTimeout h st = with_timers (nextTimer st) (cancelTimer h (pending st)) st.
Proof. destruct h; [done|]. by destruct st. Qed.

Lemma hasCapability_is_Some c st :
  hasCapability c st = true <-> is_Some (capabilities st !! c).
Proof. unfold hasCapability. apply bool_decide_eq_true. Qed.

Lemma lookup_storeCapability_eq c v (caps : gmap string JsVal) :
  is_Some (caps !! c) -> storeCapability c v caps !! c = Some v.
Proof.
  intros H. unfold storeCapability. rewrite bool_decide_eq_true_2 by done.
  apply lookup_insert_eq.
Qed.

Lemma lookup_storeCapability_ne c c' v (caps : gmap string JsVal) :
  c' <> c -> storeCapability c' v caps !! c = caps !! c.
Proof.
  intros H. unfold storeCapability. case_bool_decide; [|done].
  by apply lookup_insert_ne.
Qed.

Lemma is_Some_storeCapability c c' v (caps : gmap string JsVal) :
  is_Some (storeCapability c' v caps !! c) <-> is_Some (caps !! c).
Proof.
  destruct (decide (c' = c)) as [->|Hne].
  - unfold storeCapability. case_bool_decide; [|done].
    rewrite lookup_insert_eq. split; eauto.
  - by rewrite lookup_storeCapability_ne.
Qed.

Lemma strictEqBool_true v b : strictEqBool v b = true <-> v = VBool b.
Proof.
  destruct v; simpl; try (split; [discriminate|by intros [=]]).
  destruct b0, b; simpl; split; (done || by intros [=]).
Qed.

Lemma strictEqBool_false v b : strictEqBool v b = false <-> v <> VBool b.
Proof.
  rewrite <- strictEqBool_true. destruct (strictEqBool v b); split; done.
Qed.

(** Symbolic execution of a handler: every host call becomes a record
    update, and projections compute. *)
Ltac exec :=
  unfold handleDataPoint, triggerDoorPulse, sendPulse, afterPulseWrite, resumeAfterPause,
    afterRetryWrite, recoverStatus, safetyCheck, openAlarmCheck, startSafetyTimer,
    startOpenAlarmTimer, stopOpenAlarmTimer, onDeleted, Legacy.handleDataPoint,
    Legacy.afterPulseWrite in *;
  cbv zeta in *;
  rewrite ?setIfHas_store, ?setCapabilityValue_store, ?clearTimeout_cancel in *;
  unfold setTimeout, writeBool, writeData32, getCapabilityValue in *;
  cbn [capabilities settings flowCards delayedTriggerTimer safetyTimer openAlarmTimer
       now nextTimer pending nextCall inFlight writes alerts with_capabilities
       with_settings with_delayedTriggerTimer with_safetyTimer with_openAlarmTimer
       with_now with_timers with_calls with_alerts fst snd] in *.

Lemma nonePending_startOpenAlarmTimer kind st :
  (forall n, kind (OpenAlarmCheck n) = false) ->
  nonePending kind st -> nonePending kind (startOpenAlarmTimer st).
Proof.
  intros Hk Hn. unfold startOpenAlarmTimer. cbv zeta.
  destruct (_ <=? 0); [by apply nonePending_clearTimeout|].
  intros h tm Hl. exec. lookups; [apply Hk|]. destruct (openAlarmTimer st); simpl in *;
    lookups; eauto.
Qed.

Lemma nonePending_startSafetyTimer kind e st :
  kind (SafetyCheck e) = false ->
  nonePending kind st -> nonePending kind (startSafetyTimer e st).
Proof.
  intros Hk Hn h tm Hl. exec. lookups; [done|]. destruct (safetyTimer st); simpl in *;
    lookups; eauto.
Qed.

(** Lookups in a table after a chain of [setCapabilityValue]. *)
Ltac caps :=
  repeat first
    [ rewrite lookup_storeCapability_ne by done
    | rewrite lookup_storeCapability_eq by (rewrite ?is_Some_storeCapability; done) ];
  try done.

(** A report of the contact data point, handled in one stretch in a state
    that keeps the timer discipline, leaves no safety timer and no countdown
    timer pending, stores the reported value as [alarm_contact] and sets the
    status to open or closed from that value alone.  The discipline is lost
    when trigger requests overlap ([stale_countdown_survives_report]). *)
Lemma contact_report (st : Device) (data : DpValue) :
  TimersOwned st ->
  dp data = dp_garageDoorContact ->
  hasCapability alarm_contact st = true ->
  hasCapability garage_Door_State_Capability st = true ->
  let isOpen := truthy (getDataValue data) in
  let st' := handleDataPoint data st in
  nonePending isSafety st' /\ nonePending isCountdown st' /\
  capabilities st' !! alarm_contact = Some (VBool isOpen) /\
  capabilities st' !! garage_Door_State_Capability = Some (statusOf isOpen).
Proof.
  intros Hown Hdp Hc%hasCapability_is_Some Hs%hasCapability_is_Some isOpen st'.
  assert (nonePending isSafety st' /\ nonePending isCountdown st') as [H1 H2].
  { subst st'. unfold handleDataPoint. rewrite Hdp, Z.eqb_refl. fold isOpen.
    set (st1 := clearTimeout (safetyTimer st) st).
    set (st2 := clearTimeout (delayedTriggerTimer st1) st1).
    assert (TimersOwned st1) as Hown1 by by apply TimersOwned_clearTimeout.
    assert (nonePending isSafety st2 /\ nonePending isCountdown st2) as [Hn1 Hn2].
    { split; [by apply nonePending_clearTimeout, nonePending_clear_safety|].
      by apply nonePending_clear_countdown. }
    set (st5 := setIfHas _ _ (setIfHas _ _ (setCapabilityValue _ _ st2))).
    assert (nonePending isSafety st5 /\ nonePending isCountdown st5) as [Hn3 Hn4].
    { split; by do 2 apply nonePending_setIfHas; apply nonePending_setCapabilityValue. }
    destruct isOpen.
    - split; by apply nonePending_startOpenAlarmTimer.
    - split; by apply nonePending_clearTimeout. }
  split; [done|]. split; [done|].
  subst st'. unfold handleDataPoint. rewrite Hdp, Z.eqb_refl. fold isOpen.
  assert (alarm_contact <> garage_Door_Button) by done.
  assert (alarm_contact <> garage_Door_State_Capability) by done.
  assert (garage_Door_Button <> garage_Door_State_Capability) by done.
  destruct isOpen; exec; destruct (_ <=? 0); exec.
  all: split; caps.
Qed.

(** C1.  When the safety timer fires, the closure compares the contact
    value with the expected end state captured when the pulse was sent.  If
    they differ it sets the door button to the contact value, the status to
    Alarm, and triggers the runtime alarm card once; if they are equal the
    device is left as it was (the fired timer apart).  For a device that has
    the button and status capabilities and an app that registers the
    card. *)
Theorem safety_timer_fires (st : Device) (h : Z) (tm : Timer) (expected : bool) :
  pending st !! h = Some tm ->
  callback tm = SafetyCheck expected ->
  hasCapability garage_Door_Button st = true ->
  hasCapability garage_Door_State_Capability st = true ->
  "runtime_alarm_triggered" ∈ flowCards st ->
  let contact := getCapabilityValue alarm_contact st in
  let st' := fire h st in
  (contact <> VBool expected ->
     capabilities st' !! garage_Door_Button = Some contact /\
     capabilities st' !! garage_Door_State_Capability = Some status_alarm /\
     alerts st' = (alerts st ++ ["runtime_alarm_triggered"])%list) /\
  (contact = VBool expected ->
     st' = clearTimeout (Some h) st) /\
  capabilities st' !! alarm_contact = capabilities st !! alarm_contact /\
  writes st' = writes st /\
  pending st' = delete h (pending st).
Proof.
  intros Hl Hcb Hb%hasCapability_is_Some Hs%hasCapability_is_Some Hcard contact st'.
  subst st'. unfold fire. rewrite Hl, Hcb. cbn [runCallback]. unfold safetyCheck.
  cbv zeta.
  change (getCapabilityValue alarm_contact
            (with_timers (nextTimer st) (delete h (pending st)) st)) with contact.
  assert (garage_Door_Button <> garage_Door_State_Capability) by done.
  assert (garage_Door_Button <> alarm_contact) by done.
  assert (garage_Door_State_Capability <> alarm_contact) by done.
  destruct (strictEqBool contact expected) eqn:E; cbn [negb].
  - apply strictEqBool_true in E. repeat split; done.
  - apply strictEqBool_false in E. unfold triggerFlow. exec.
    rewrite bool_decide_eq_true_2 by done. exec.
    split; [intros _|split; [done|]]; repeat split; caps.
Qed.

(** The expectation that [sendPulse] captures never equals the contact
    value it is computed from: if no report changes [alarm_contact] before
    the safety timer fires, the closure finds a difference. *)
Lemma expected_differs_from_contact (contact : JsVal) :
  contact <> VBool (negb (strictEqBool contact true)).
Proof. destruct contact as [| |[]| | |]; done. Qed.

(** ** The pulse write *)

Lemma startSafetyTimer_timer e st :
  safetyTimer (startSafetyTimer e st) = Some (nextTimer st) /\
  pending (startSafetyTimer e st) !! nextTimer st =
    Some {| delay := runTimeSetting st * 1000;
            due := now st + effectiveDelay (runTimeSetting st * 1000);
            callback := SafetyCheck e |}.
Proof. exec. split; [done|]. by rewrite lookup_insert_eq. Qed.

(** What [startSafetyTimer] leaves pending is what was pending, or the
    timer it set. *)
Lemma startSafetyTimer_pending e st h tm :
  pending (startSafetyTimer e st) !! h = Some tm ->
  pending st !! h = Some tm \/ (h = nextTimer st /\ callback tm = SafetyCheck e).
Proof.
  exec. intros Hl. lookups; [by right|left].
  destruct (safetyTimer st); simpl in Hl; lookups; done.
Qed.

(** [sendPulse] reads the contact after it has set the status. *)
Lemma contact_after_moving st :
  getCapabilityValue alarm_contact
    (setIfHas garage_Door_State_Capability (VStr "moving") st) =
  getCapabilityValue alarm_contact st.
Proof. exec. by rewrite lookup_storeCapability_ne. Qed.

(** The first stretch of [sendPulse]: the status, one write, and the
    captured expectation in flight. *)
Lemma sendPulse_effect st :
  let expected := negb (strictEqBool (getCapabilityValue alarm_contact st) true) in
  sendPulse st =
  with_calls (nextCall st + 1)
    (<[nextCall st := AfterPulseWrite expected]> (inFlight st))
    (writes st ++ [pulse])
    (with_capabilities
       (storeCapability garage_Door_State_Capability (VStr "moving") (capabilities st)) st).
Proof.
  intros expected. unfold sendPulse. cbv zeta. rewrite contact_after_moving.
  fold expected. by exec.
Qed.

(** The outcome of the first write, when it is a rejection that is not a
    timeout: the 500 ms pause, and no other timer touched. *)
Lemma afterPulseWrite_pause e err st :
  isTimeout err = false ->
  afterPulseWrite e (Rejected err) st =
  with_timers (nextTimer st + 1)
    (<[nextTimer st := {| delay := 500; due := now st + 500;
                          callback := ResumeAfterPause e |}]> (pending st)) st.
Proof. intros Herr. unfold afterPulseWrite. by rewrite Herr. Qed.

Lemma afterPulseWrite_timeout e err st :
  isTimeout err = true -> afterPulseWrite e (Rejected err) st = afterPulseWrite e Acked st.
Proof. intros Herr. unfold afterPulseWrite. by rewrite Herr. Qed.

Lemma not_startedSince_startSafetyTimer kind e st0 st :
  kind (SafetyCheck e) = false ->
  (forall h tm, pending st !! h = Some tm -> pending st0 !! h = Some tm) ->
  ~ startedSince st0 (startSafetyTimer e st) kind.
Proof.
  intros Hk Hsub (h & tm & Hl & Hkind & Hnew).
  apply startSafetyTimer_pending in Hl as [Hl|[_ Hc]]; [|congruence].
  by apply Hnew, Hsub.
Qed.

(** C3, amended.  The pulse write and its retry, stage by stage.
    [sendPulse] issues one write and waits for it.  In the extended
    revision, when that write settles: acknowledged, the safety timer is
    started and no pause is set; rejected with a timeout, the same happens
    as when acknowledged; rejected otherwise, one pause of 500 ms is set and
    the safety timer is left alone.  When the pause ends the write is issued
    once more.  When the retry settles no further pause is set:
    acknowledged, the safety timer is started; rejected with an error that
    is not a timeout, the cycle ends with the 3000 ms recovery timer and no
    safety timer.  No other closure writes, so one cycle issues at most two
    writes.  In the older revision the safety timer is started whatever the
    outcome of the write, no pause is ever set and no closure but the
    countdown writes: one cycle issues one write. *)
Theorem pulse_write_retry_policy (st : Device) :
  let expected := negb (strictEqBool (getCapabilityValue alarm_contact st) true) in
  (writes (writePulse st) = (writes st ++ [pulse])%list /\
   inFlight (writePulse st) = <[nextCall st := AfterPulseWrite expected]> (inFlight st) /\
   pending (writePulse st) = pending st) /\
  (forall st1 c e o,
     inFlight st1 !! c = Some (AfterPulseWrite e) ->
     let st2 := settle c o st1 in
     writes st2 = writes st1 /\
     inFlight st2 = delete c (inFlight st1) /\
     (o = Acked ->
        safetyTimer st2 = Some (nextTimer st1) /\
        pending st2 !! nextTimer st1 =
          Some {| delay := runTimeSetting st1 * 1000;
                  due := now st1 + effectiveDelay (runTimeSetting st1 * 1000);
                  callback := SafetyCheck e |} /\
        ~ startedSince st1 st2 isRetryPause) /\
     (forall err, o = Rejected err -> isTimeout err = true ->
        st2 = settle c Acked st1) /\
     (forall err, o = Rejected err -> isTimeout err = false ->
        pending st2 =
          <[nextTimer st1 := {| delay := 500; due := now st1 + 500;
                                callback := ResumeAfterPause e |}]> (pending st1) /\
        safetyTimer st2 = safetyTimer st1)) /\
  (forall st3 h tm e,
     pending st3 !! h = Some tm -> callback tm = ResumeAfterPause e ->
     let st4 := fire h st3 in
     writes st4 = (writes st3 ++ [pulse])%list /\
     inFlight st4 = <[nextCall st3 := AfterRetryWrite e]> (inFlight st3) /\
     pending st4 = delete h (pending st3)) /\
  (forall st5 c e o,
     inFlight st5 !! c = Some (AfterRetryWrite e) ->
     let st6 := settle c o st5 in
     writes st6 = writes st5 /\
     inFlight st6 = delete c (inFlight st5) /\
     ~ startedSince st5 st6 isRetryPause /\
     (o = Acked ->
        safetyTimer st6 = Some (nextTimer st5) /\
        pending st6 !! nextTimer st5 =
          Some {| delay := runTimeSetting st5 * 1000;
                  due := now st5 + effectiveDelay (runTimeSetting st5 * 1000);
                  callback := SafetyCheck e |}) /\
     (forall err, o = Rejected err -> isTimeout err = false ->
        safetyTimer st6 = safetyTimer st5 /\
        pending st6 =
          <[nextTimer st5 := {| delay := 3000; due := now st5 + 3000;
                                callback := RecoverStatus |}]> (pending st5))) /\
  (forall cb st7, isCountdown cb = false -> isRetryPause cb = false ->
     writes (runCallback cb st7) = writes st7 /\
     inFlight (runCallback cb st7) = inFlight st7) /\
  (forall st1 c e o,
     inFlight st1 !! c = Some (AfterPulseWrite e) ->
     let st2 := Legacy.settle c o st1 in
     writes st2 = writes st1 /\
     inFlight st2 = delete c (inFlight st1) /\
     safetyTimer st2 = Some (nextTimer st1) /\
     pending st2 !! nextTimer st1 =
       Some {| delay := runTimeSetting st1 * 1000;
               due := now st1 + effectiveDelay (runTimeSetting st1 * 1000);
               callback := SafetyCheck e |} /\
     ~ startedSince st1 st2 isRetryPause) /\
  (forall cb st7, isCountdown cb = false ->
     writes (Legacy.runCallback cb st7) = writes st7 /\
     inFlight (Legacy.runCallback cb st7) = inFlight st7).
Proof.
  intros expected.
  assert (forall cb st7, isCountdown cb = false -> isRetryPause cb = false ->
            writes (runCallback cb st7) = writes st7 /\
            inFlight (runCallback cb st7) = inFlight st7) as Hclosures.
  { clear. intros cb st7 Hc Hr. destruct cb; try done; simpl.
    + unfold recoverStatus. by exec.
    + unfold safetyCheck, triggerFlow. destruct (negb _); [|done]. exec.
      by case_bool_decide.
    + unfold openAlarmCheck, triggerFlow. destruct (strictEqBool _ _); [|done].
      by case_bool_decide. }
  split; [|split; [|split; [|split; [|split; [|split]]]]].
  - subst expected. unfold writePulse. by exec.
  - intros st1 c e o Hc st2. subst st2. unfold settle. rewrite Hc. cbn [runContinuation].
    set (st1' := with_calls _ _ _ st1).
    assert (forall o', writes (afterPulseWrite e o' st1') = writes st1 /\
                       inFlight (afterPulseWrite e o' st1') = delete c (inFlight st1))
      as Hframe.
    { intros o'. subst st1'. destruct o' as [|err]; [|destruct (isTimeout err) eqn:E];
        unfold afterPulseWrite; rewrite ?E; by exec. }
    destruct (Hframe o) as [Hw Hf]. split; [done|]. split; [done|].
    split; [|split].
    + intros ->. destruct (startSafetyTimer_timer e st1') as [Hs Hp].
      split; [done|]. split; [done|].
      by apply not_startedSince_startSafetyTimer.
    + intros err -> Herr. by apply afterPulseWrite_timeout.
    + intros err -> Herr. rewrite afterPulseWrite_pause by done. by exec.
  - intros st3 h tm e Hl Hcb st4. subst st4. unfold fire. rewrite Hl, Hcb.
    cbn [runCallback]. unfold resumeAfterPause. by exec.
  - intros st5 c e o Hc st6. subst st6. unfold settle. rewrite Hc. cbn [runContinuation].
    set (st5' := with_calls _ _ _ st5).
    split; [|split; [|split; [|split]]].
    + destruct o; by exec.
    + destruct o; by exec.
    + destruct o as [|err].
      * by apply not_startedSince_startSafetyTimer.
      * intros (h & tm & Hl & Hk & Hnew). revert Hl. subst st5'. exec. intros Hl.
        lookups; [by simpl in Hk|done].
    + intros ->. apply (startSafetyTimer_timer e st5').
    + intros err -> _. subst st5'. by exec.
  - exact Hclosures.
  - intros st1 c e o Hc st2. subst st2. unfold Legacy.settle. rewrite Hc.
    cbn [Legacy.runContinuation]. unfold Legacy.afterPulseWrite.
    set (st1' := with_calls _ _ _ st1).
    split; [subst st1'; by exec|]. split; [subst st1'; by exec|].
    destruct (startSafetyTimer_timer e st1') as [Hs Hp].
    split; [exact Hs|]. split; [exact Hp|].
    by apply not_startedSince_startSafetyTimer.
  - clear. intros cb st7 Hc. destruct cb; simpl; try done.
    unfold safetyCheck, triggerFlow. destruct (negb _); [|done]. exec.
    by case_bool_decide.
Qed.


(** ** The trigger request *)

Lemma triggerDoorPulse_unfold st :
  let cleared :=
    clearTimeout (safetyTimer st) (clearTimeout (delayedTriggerTimer st) st) in
  triggerDoorPulse st =
  if countdownSeconds st <=? 0 then sendPulse cleared
  else with_delayedTriggerTimer (Some (nextTimer st))
         (snd (setTimeout SendPulse (countdownSeconds st * 1000)
                 (setIfHas garage_Door_State_Capability (VStr "2") cleared))).
Proof.
  unfold triggerDoorPulse, countdownSeconds. cbv zeta.
  destruct (delayedTriggerTimer st); simpl; destruct (safetyTimer st); simpl;
    rewrite ?setIfHas_store; done.
Qed.

(** After the two clears of a trigger request. *)
Lemma cleared_both st :
  TimersOwned st ->
  let cleared :=
    clearTimeout (safetyTimer st) (clearTimeout (delayedTriggerTimer st) st) in
  nonePending isCountdown cleared /\ nonePending isSafety cleared.
Proof.
  intros Hown cleared. subst cleared. split.
  - by apply nonePending_clearTimeout, nonePending_clear_countdown.
  - assert (safetyTimer (clearTimeout (delayedTriggerTimer st) st) = safetyTimer st)
      as Hs by by destruct (delayedTriggerTimer st).
    rewrite <- Hs. by apply nonePending_clear_safety, TimersOwned_clearTimeout.
Qed.

(** A trigger request handled in one stretch, in a state that keeps the
    timer discipline.  [triggerDoorPulse] first clears the countdown and
    safety timers.  With a countdown that is zero or negative it sends the
    pulse at once; with a positive countdown it sets the status to
    countdown-active, writes nothing, and sets the countdown timer for that
    many seconds, whose closure is the same [sendPulse].  [sendPulse] sets
    the status to moving and captures the negation of
    [alarm_contact === true] as the expected end state.  The discipline is
    lost when trigger requests overlap
    ([stale_countdown_survives_request]). *)
Lemma triggerDoorPulse_paths (st : Device) :
  TimersOwned st ->
  hasCapability garage_Door_State_Capability st = true ->
  let cleared :=
    clearTimeout (safetyTimer st) (clearTimeout (delayedTriggerTimer st) st) in
  let st' := triggerDoorPulse st in
  (nonePending isCountdown cleared /\ nonePending isSafety cleared) /\
  (countdownSeconds st <= 0 -> st' = sendPulse cleared) /\
  (0 < countdownSeconds st ->
     capabilities st' !! garage_Door_State_Capability = Some status_countdown /\
     writes st' = writes st /\
     delayedTriggerTimer st' = Some (nextTimer st) /\
     pending st' !! nextTimer st =
       Some {| delay := countdownSeconds st * 1000;
               due := now st + effectiveDelay (countdownSeconds st * 1000);
               callback := SendPulse |} /\
     nonePending isSafety st' /\
     forall st2 tm,
       pending st2 !! nextTimer st = Some tm -> callback tm = SendPulse ->
       fire (nextTimer st) st2 = sendPulse (clearTimeout (Some (nextTimer st)) st2)) /\
  (forall st0,
     hasCapability garage_Door_State_Capability st0 = true ->
     let expected := negb (strictEqBool (getCapabilityValue alarm_contact st0) true) in
     capabilities (sendPulse st0) !! garage_Door_State_Capability = Some status_moving /\
     writes (sendPulse st0) = (writes st0 ++ [pulse])%list /\
     inFlight (sendPulse st0) !! nextCall st0 = Some (AfterPulseWrite expected)).
Proof.
  intros Hown Hcap%hasCapability_is_Some cleared st'.
  destruct (cleared_both st Hown) as [Hnc Hns]. fold cleared in Hnc, Hns.
  pose proof (triggerDoorPulse_unfold st) as Heq. cbv zeta in Heq. fold cleared in Heq.
  split; [done|]. split; [|split].
  - intros Hle. subst st'. rewrite Heq.
    by destruct (Z.leb_spec (countdownSeconds st) 0); [|lia].
  - intros Hlt. subst st'. rewrite Heq.
    destruct (Z.leb_spec (countdownSeconds st) 0); [lia|].
    split; [|split; [|split; [|split; [|split]]]].
    + subst cleared. exec. by caps.
    + subst cleared. by exec.
    + by exec.
    + subst cleared. exec. by rewrite lookup_insert_eq.
    + apply (nonePending_same _ (snd (setTimeout SendPulse (countdownSeconds st * 1000)
               (setIfHas garage_Door_State_Capability (VStr "2") cleared)))); [done|].
      by apply nonePending_setTimeout, nonePending_setIfHas.
    + intros st2 tm Hl Hcb. unfold fire. by rewrite Hl, Hcb.
  - intros st0 Hcap0%hasCapability_is_Some expected. subst expected.
    rewrite sendPulse_effect. exec. split; [by caps|]. split; [done|].
    by rewrite lookup_insert_eq.
Qed.

(** ** The status report *)

(** C10.  A report of the status data point changes nothing but the
    table of capabilities, and there nothing but the status capability,
    which becomes the string form of the decoded value. *)
Theorem status_report_frame (st : Device) (data : DpValue) :
  dp data = dp_status ->
  let st' := handleDataPoint data st in
  st' = with_capabilities (capabilities st') st /\
  (forall c, c <> garage_Door_State_Capability ->
             capabilities st' !! c = capabilities st !! c) /\
  (forall s, hasCapability garage_Door_State_Capability st = true ->
             toString (getDataValue data) = Some s ->
             capabilities st' !! garage_Door_State_Capability = Some (VStr s)) /\
  (toString (getDataValue data) = None -> st' = st).
Proof.
  intros Hdp st'. subst st'. unfold handleDataPoint. rewrite Hdp. cbv zeta.
  change (dp_status =? dp_garageDoorContact) with false.
  change (dp_status =? dp_status) with true. cbv iota.
  destruct (hasCapability garage_Door_State_Capability st) eqn:Hcap.
  - apply hasCapability_is_Some in Hcap.
    destruct (toString (getDataValue data)) as [s|]; exec.
    + repeat split; try done.
      * intros c Hne. by rewrite lookup_storeCapability_ne.
      * intros s' _ [= <-]. by caps.
    + by rewrite with_capabilities_id.
  - by rewrite with_capabilities_id.
Qed.

(** ** The safety window *)

(** C9, amended.  [startSafetyTimer] sets the safety timer for
    [runTimeSetting] seconds: 20 when [run_time] parses to 0 or to no
    number, the parsed number otherwise.  The window is strictly positive
    whenever [run_time] does not parse to a negative number. *)
Theorem safety_window (st : Device) (expected : bool) :
  let parsed := parseInt (settings st !! "run_time") in
  let st' := startSafetyTimer expected st in
  (safetyTimer st' = Some (nextTimer st) /\
   pending st' !! nextTimer st =
     Some {| delay := runTimeSetting st * 1000;
             due := now st + effectiveDelay (runTimeSetting st * 1000);
             callback := SafetyCheck expected |}) /\
  (parsed = None \/ parsed = Some 0 -> runTimeSetting st = 20) /\
  (forall n, parsed = Some n -> n <> 0 -> runTimeSetting st = n) /\
  ((forall n, parsed = Some n -> 0 <= n) -> 0 < runTimeSetting st * 1000).
Proof.
  intros parsed st'. split; [apply startSafetyTimer_timer|].
  unfold runTimeSetting. fold parsed. unfold orDefault.
  split; [|split].
  - by intros [->| ->].
  - intros n -> Hn. destruct (Z.eqb_spec n 0); [done|done].
  - intros Hpos. destruct parsed as [n|]; [|lia].
    specialize (Hpos n eq_refl). destruct (Z.eqb_spec n 0); lia.
Qed.

(** ** Which timers a handler can set *)

Lemma nonePending_triggerFlow kind card st :
  nonePending kind st -> nonePending kind (triggerFlow card st).
Proof. apply nonePending_same. unfold triggerFlow. by case_bool_decide. Qed.

Lemma nonePending_sendPulse kind st :
  nonePending kind st -> nonePending kind (sendPulse st).
Proof.
  intros H. apply (nonePending_same _ (setIfHas garage_Door_State_Capability
                                         (VStr "moving") st)); [done|].
  by apply nonePending_setIfHas.
Qed.

Lemma nonePending_safetyCheck kind e st :
  nonePending kind st -> nonePending kind (safetyCheck e st).
Proof.
  intros H. unfold safetyCheck. cbv zeta. destruct (negb _); [|done].
  by apply nonePending_triggerFlow, nonePending_setIfHas, nonePending_setCapabilityValue.
Qed.

Lemma nonePending_openAlarmCheck kind st :
  nonePending kind st -> nonePending kind (openAlarmCheck st).
Proof.
  intros H. unfold openAlarmCheck. cbv zeta. destruct (strictEqBool _ _); [|done].
  by apply nonePending_triggerFlow.
Qed.

(** No closure of a timer sets a timer. *)
Lemma nonePending_fire kind h st : nonePending kind st -> nonePending kind (fire h st).
Proof.
  intros H. unfold fire. destruct (pending st !! h) as [tm|]; [|done].
  assert (nonePending kind (with_timers (nextTimer st) (delete h (pending st)) st)) as H'
    by by apply (nonePending_clearTimeout _ (Some h)).
  destruct (callback tm); simpl.
  - by apply nonePending_sendPulse.
  - by apply (nonePending_same _ (with_timers (nextTimer st) (delete h (pending st)) st)).
  - by apply nonePending_setCapabilityValue.
  - by apply nonePending_safetyCheck.
  - by apply nonePending_openAlarmCheck.
Qed.

Lemma nonePending_afterPulseWrite kind e o st :
  kind (SafetyCheck e) = false -> kind (ResumeAfterPause e) = false ->
  nonePending kind st -> nonePending kind (afterPulseWrite e o st).
Proof.
  intros Hs Hr H. unfold afterPulseWrite.
  destruct o as [|err]; [by apply nonePending_startSafetyTimer|].
  destruct (isTimeout err); [by apply nonePending_startSafetyTimer|].
  by apply nonePending_setTimeout.
Qed.

Lemma nonePending_afterRetryWrite kind e o st :
  kind (SafetyCheck e) = false -> kind RecoverStatus = false ->
  nonePending kind st -> nonePending kind (afterRetryWrite e o st).
Proof.
  intros Hs Hr H. unfold afterRetryWrite.
  destruct o as [|err]; [by apply nonePending_startSafetyTimer|].
  by apply nonePending_setTimeout, nonePending_setIfHas.
Qed.

Lemma nonePending_afterSettingWrites kind changedKeys st :
  (forall n, kind (OpenAlarmCheck n) = false) ->
  nonePending kind st -> nonePending kind (afterSettingWrites changedKeys st).
Proof.
  intros Hk H. unfold afterSettingWrites.
  destruct (existsb _ _); [|done]. cbv zeta. destruct (strictEqBool _ _); [|done].
  by apply nonePending_startOpenAlarmTimer.
Qed.

Lemma nonePending_writeChangedSettings kind newSettings changedKeys rest st :
  (forall n, kind (OpenAlarmCheck n) = false) ->
  nonePending kind st ->
  nonePending kind (writeChangedSettings newSettings changedKeys rest st).
Proof.
  intros Hk. induction rest as [|key rest IH]; intros H; simpl.
  - by apply nonePending_afterSettingWrites.
  - destruct (settingsMap key); [by apply (nonePending_same _ st)|by apply IH].
Qed.

(** A contact or status report sets no timer but the open-alarm timer. *)
Lemma nonePending_handleDataPoint kind data st :
  (forall n, kind (OpenAlarmCheck n) = false) ->
  nonePending kind st -> nonePending kind (handleDataPoint data st).
Proof.
  intros Hk H. unfold handleDataPoint. cbv zeta. destruct (dp data =? dp_garageDoorContact).
  - assert (nonePending kind
              (setIfHas garage_Door_State_Capability
                 (VStr (if truthy (getDataValue data) then "open" else "closed"))
                 (setIfHas garage_Door_Button (VBool (truthy (getDataValue data)))
                    (setCapabilityValue alarm_contact (VBool (truthy (getDataValue data)))
                       (clearTimeout
                          (delayedTriggerTimer (clearTimeout (safetyTimer st) st))
                          (clearTimeout (safetyTimer st) st)))))) as H5.
    { do 2 apply nonePending_setIfHas. apply nonePending_setCapabilityValue.
      by do 2 apply nonePending_clearTimeout. }
    destruct (truthy _); [by apply nonePending_startOpenAlarmTimer|].
    by apply nonePending_clearTimeout.
  - destruct (dp data =? dp_status); [|done]. destruct (hasCapability _ _); [|done].
    destruct (toString _); [|done]. by apply nonePending_setCapabilityValue.
Qed.

Lemma nonePending_onDeleted kind st :
  nonePending kind st -> nonePending kind (onDeleted st).
Proof. intros H. unfold onDeleted. by do 3 apply nonePending_clearTimeout. Qed.

Lemma nonePending_init kind caps s cards : nonePending kind (init caps s cards).
Proof. intros h tm Hl. simpl in Hl. by rewrite lookup_empty in Hl. Qed.

Lemma nonePending_not_pendingKind kind st :
  nonePending kind st -> ~ pendingKind kind st.
Proof. intros Hn (h & tm & Hl & Hk). specialize (Hn _ _ Hl). congruence. Qed.

(** ** The settings are the host's *)

Lemma settings_startSafetyTimer e st : settings (startSafetyTimer e st) = settings st.
Proof. by exec. Qed.

Lemma settings_startOpenAlarmTimer st : settings (startOpenAlarmTimer st) = settings st.
Proof. unfold startOpenAlarmTimer. cbv zeta. destruct (_ <=? 0); by exec. Qed.

Lemma settings_triggerFlow card st : settings (triggerFlow card st) = settings st.
Proof. unfold triggerFlow. by case_bool_decide. Qed.

Lemma settings_runCallback cb st : settings (runCallback cb st) = settings st.
Proof.
  destruct cb; simpl.
  - by exec.
  - by exec.
  - by exec.
  - unfold safetyCheck. cbv zeta. destruct (negb _); [|done].
    rewrite settings_triggerFlow. by exec.
  - unfold openAlarmCheck. cbv zeta. destruct (strictEqBool _ _); [|done].
    apply settings_triggerFlow.
Qed.

Lemma settings_triggerDoorPulse st : settings (triggerDoorPulse st) = settings st.
Proof. unfold triggerDoorPulse. cbv zeta. destruct (_ <=? 0); by exec. Qed.

Lemma settings_handleDataPoint data st : settings (handleDataPoint data st) = settings st.
Proof.
  unfold handleDataPoint. cbv zeta. destruct (dp data =? dp_garageDoorContact).
  - destruct (truthy _); rewrite ?settings_startOpenAlarmTimer; by exec.
  - destruct (dp data =? dp_status); [|done]. destruct (hasCapability _ _); [|done].
    destruct (toString _); [|done]. by exec.
Qed.

Lemma settings_writeChangedSettings newSettings changedKeys rest st :
  settings (writeChangedSettings newSettings changedKeys rest st) = settings st.
Proof.
  induction rest as [|key rest IH]; simpl.
  - unfold afterSettingWrites. destruct (existsb _ _); [|done]. cbv zeta.
    destruct (strictEqBool _ _); [|done]. apply settings_startOpenAlarmTimer.
  - by destruct (settingsMap key).
Qed.

Lemma settings_runContinuation k o st : settings (runContinuation k o st) = settings st.
Proof.
  destruct k; simpl.
  - destruct o as [|err]; [|destruct (isTimeout err) eqn:E]; unfold afterPulseWrite;
      rewrite ?E, ?settings_startSafetyTimer; done.
  - destruct o; unfold afterRetryWrite; rewrite ?settings_startSafetyTimer; by exec.
  - apply settings_writeChangedSettings.
Qed.

(** No handler changes the settings; only the host stores new ones. *)
Lemma settings_step ev st :
  settings (step ev st) =
  match ev with SettingsStored s => s | _ => settings st end.
Proof.
  destruct ev as [t| |data|h|c o|newSettings changedKeys|s|]; simpl; try done.
  - apply settings_triggerDoorPulse.
  - apply settings_handleDataPoint.
  - unfold fire. destruct (pending st !! h); [|done]. by rewrite settings_runCallback.
  - unfold settle. destruct (inFlight st !! c); [|done]. by rewrite settings_runContinuation.
  - apply settings_writeChangedSettings.
  - unfold onDeleted. by exec.
Qed.

(** ** The open-time alarm *)

(** With the open alarm disabled, [startOpenAlarmTimer] only clears. *)
Lemma startOpenAlarmTimer_off st :
  openAlarmTimeSetting st <= 0 ->
  startOpenAlarmTimer st = clearTimeout (openAlarmTimer st) st.
Proof.
  intros Hoff. unfold startOpenAlarmTimer. cbv zeta.
  assert (openAlarmTimeSetting (clearTimeout (openAlarmTimer st) st) =
          openAlarmTimeSetting st) as -> by (unfold openAlarmTimeSetting; by exec).
  by destruct (Z.leb_spec (openAlarmTimeSetting st) 0); [|lia].
Qed.

Lemma OpenAlarmOff_writeChangedSettings newSettings changedKeys rest st :
  OpenAlarmOff st -> nonePending isOpenAlarm
                       (writeChangedSettings newSettings changedKeys rest st).
Proof.
  intros [Hoff Hnone]. induction rest as [|key rest IH]; simpl.
  - unfold afterSettingWrites. destruct (existsb _ _); [|done]. cbv zeta.
    destruct (strictEqBool _ _); [|done].
    rewrite startOpenAlarmTimer_off by done. by apply nonePending_clearTimeout.
  - destruct (settingsMap key); [by apply (nonePending_same _ st)|done].
Qed.

Lemma OpenAlarmOff_step ev st :
  keepsOpenAlarmOff ev -> OpenAlarmOff st -> OpenAlarmOff (step ev st).
Proof.
  intros Hev [Hoff Hnone]. split.
  - unfold openAlarmTimeSetting in *. rewrite settings_step. by destruct ev.
  - destruct ev as [t| |data|h|c o|newSettings changedKeys|s|]; simpl.
    + done.
    + unfold triggerDoorPulse. cbv zeta. destruct (_ <=? 0).
      * by apply nonePending_sendPulse; do 2 apply nonePending_clearTimeout.
      * apply (nonePending_same _ (snd (setTimeout SendPulse
                 (countdownSeconds (clearTimeout (safetyTimer (clearTimeout
                    (delayedTriggerTimer st) st)) (clearTimeout (delayedTriggerTimer st) st))
                  * 1000)
                 (setIfHas garage_Door_State_Capability (VStr "2")
                    (clearTimeout (safetyTimer (clearTimeout (delayedTriggerTimer st) st))
                       (clearTimeout (delayedTriggerTimer st) st)))))); [done|].
        apply nonePending_setTimeout; [done|]. apply nonePending_setIfHas.
        by do 2 apply nonePending_clearTimeout.
    + unfold handleDataPoint. cbv zeta. destruct (dp data =? dp_garageDoorContact).
      * set (st5 := setIfHas _ _ (setIfHas _ _ (setCapabilityValue _ _ _))).
        assert (nonePending isOpenAlarm st5) as H5.
        { subst st5. do 2 apply nonePending_setIfHas.
          apply nonePending_setCapabilityValue. by do 2 apply nonePending_clearTimeout. }
        assert (openAlarmTimeSetting st5 <= 0) as Hoff5.
        { subst st5. unfold openAlarmTimeSetting in *. by exec. }
        destruct (truthy _); [rewrite startOpenAlarmTimer_off by done|];
          by apply nonePending_clearTimeout.
      * destruct (dp data =? dp_status); [|done]. destruct (hasCapability _ _); [|done].
        destruct (toString _); [|done]. by apply nonePending_setCapabilityValue.
    + by apply nonePending_fire.
    + unfold settle. destruct (inFlight st !! c) as [k|]; [|done].
      set (st' := with_calls _ _ _ st).
      assert (OpenAlarmOff st') as Hoff' by done.
      destruct k; simpl.
      * by apply nonePending_afterPulseWrite.
      * by apply nonePending_afterRetryWrite.
      * by apply OpenAlarmOff_writeChangedSettings.
    + by apply OpenAlarmOff_writeChangedSettings.
    + done.
    + by apply nonePending_onDeleted.
Qed.

Lemma OpenAlarmOff_run evs : forall st,
  Forall keepsOpenAlarmOff evs -> OpenAlarmOff st -> OpenAlarmOff (run evs st).
Proof.
  induction evs as [|ev evs IH]; intros st Hevs Hoff; simpl; [done|].
  inversion Hevs; subst. by apply IH, OpenAlarmOff_step.
Qed.

Lemma startOpenAlarmTimer_on st :
  0 < openAlarmTimeSetting st ->
  openAlarmTimer (startOpenAlarmTimer st) = Some (nextTimer st) /\
  pending (startOpenAlarmTimer st) !! nextTimer st =
    Some {| delay := openAlarmTimeSetting st * 1000;
            due := now st + effectiveDelay (openAlarmTimeSetting st * 1000);
            callback := OpenAlarmCheck (openAlarmTimeSetting st) |}.
Proof.
  intros Hpos. unfold startOpenAlarmTimer. cbv zeta.
  assert (openAlarmTimeSetting (clearTimeout (openAlarmTimer st) st) =
          openAlarmTimeSetting st) as -> by (unfold openAlarmTimeSetting; by exec).
  destruct (Z.leb_spec (openAlarmTimeSetting st) 0); [lia|]. exec.
  by rewrite lookup_insert_eq.
Qed.

Lemma ownedBy_atMostOne kind field st : ownedBy kind field st -> atMostOne kind st.
Proof.
  intros Ho h1 tm1 h2 tm2 H1 K1 H2 K2.
  pose proof (Ho _ _ H1 K1). pose proof (Ho _ _ H2 K2). congruence.
Qed.

(** Clearing the field that owns a kind leaves no timer of that kind. *)
Lemma nonePending_cancel_owned kind field st :
  ownedBy kind field st -> nonePending kind (clearTimeout (field st) st).
Proof.
  intros Ho h tm Hl. destruct (kind (callback tm)) eqn:Hk; [|done].
  destruct (field st) as [h0|] eqn:E; simpl in Hl; lookups;
    specialize (Ho _ _ Hl Hk); congruence.
Qed.

(** What a contact report leaves of the timers is what was pending. *)
Lemma ownedBy_subset kind field st st' :
  (forall h tm, pending st' !! h = Some tm -> pending st !! h = Some tm) ->
  field st' = field st -> ownedBy kind field st -> ownedBy kind field st'.
Proof. intros Hsub Hf Ho h tm Hl Hk. rewrite Hf. apply (Ho h tm); [by apply Hsub|done]. Qed.

Lemma pending_clearTimeout_subset f st h tm :
  pending (clearTimeout f st) !! h = Some tm -> pending st !! h = Some tm.
Proof. destruct f as [h0|]; [|done]. simpl. intros Hl. by lookups. Qed.

(** When the closure of an open-alarm timer has run, the timer is gone and
    nothing else has changed but the alerts. *)
Lemma fire_openAlarm st h tm :
  pending st !! h = Some tm -> isOpenAlarm (callback tm) = true ->
  pending (fire h st) = delete h (pending st) /\
  openAlarmTimer (fire h st) = openAlarmTimer st /\
  capabilities (fire h st) = capabilities st /\
  settings (fire h st) = settings st.
Proof.
  intros Hl Hk. unfold fire. rewrite Hl. destruct (callback tm); try done.
  cbn [runCallback]. unfold openAlarmCheck, triggerFlow. cbv zeta.
  destruct (strictEqBool _ _); [|done]. by case_bool_decide.
Qed.

(** C6, amended.  Right after a report of the contact data point an
    open-alarm timer is pending iff the report said open and the configured
    open-alarm time is strictly positive.  A report of open starts the
    timer again: the timer for the configured number of seconds is set, and
    it is the only open-alarm timer pending, the one before being
    cancelled.  A report of closed leaves none pending, and while the
    configured time stays at 0 (or unset, or negative) no open-alarm timer
    is pending after any further events.  The timer is one-shot: when it
    has fired it is no longer pending and none is set in its place,
    whatever the contact is.  For a device whose pending open-alarm timers
    are the one [openAlarmTimer] refers to, as they are on every run. *)
Theorem open_alarm_after_contact_report (st : Device) (data : DpValue) :
  ownedBy isOpenAlarm openAlarmTimer st ->
  dp data = dp_garageDoorContact ->
  let isOpen := truthy (getDataValue data) in
  let seconds := openAlarmTimeSetting st in
  let st' := handleDataPoint data st in
  (pendingKind isOpenAlarm st' <-> isOpen = true /\ 0 < seconds) /\
  (isOpen = true -> 0 < seconds ->
     openAlarmTimer st' = Some (nextTimer st) /\
     pending st' !! nextTimer st =
       Some {| delay := seconds * 1000;
               due := now st + effectiveDelay (seconds * 1000);
               callback := OpenAlarmCheck seconds |} /\
     forall h tm, pending st' !! h = Some tm -> isOpenAlarm (callback tm) = true ->
                  h = nextTimer st) /\
  (isOpen = false -> nonePending isOpenAlarm st') /\
  (seconds <= 0 ->
     forall evs, Forall keepsOpenAlarmOff evs -> nonePending isOpenAlarm (run evs st')) /\
  (forall h tm,
     pending st !! h = Some tm -> isOpenAlarm (callback tm) = true ->
     let fired := fire h st in
     pending fired = delete h (pending st) /\
     nonePending isOpenAlarm fired /\
     capabilities fired = capabilities st /\
     openAlarmTimeSetting fired = seconds).
Proof.
  intros Hown Hdp isOpen seconds st'.
  assert (forall h tm,
            pending st !! h = Some tm -> isOpenAlarm (callback tm) = true ->
            let fired := fire h st in
            pending fired = delete h (pending st) /\
            nonePending isOpenAlarm fired /\
            capabilities fired = capabilities st /\
            openAlarmTimeSetting fired = seconds) as Hshot.
  { intros h tm Hl Hk fired.
    destruct (fire_openAlarm st h tm Hl Hk) as (Hp & _ & Hc & Hset). fold fired in Hp, Hc, Hset.
    split; [done|]. split; [|split; [done|]].
    - intros h' tm' Hl'. rewrite Hp in Hl'. apply lookup_delete_Some in Hl' as [Hne Hl'].
      destruct (isOpenAlarm (callback tm')) eqn:Hk'; [|done].
      pose proof (Hown _ _ Hl Hk). pose proof (Hown _ _ Hl' Hk'). congruence.
    - subst seconds. unfold openAlarmTimeSetting. by rewrite Hset. }
  subst st'. unfold handleDataPoint. rewrite Hdp, Z.eqb_refl. cbv zeta. fold isOpen.
  set (st5 := setIfHas _ _ (setIfHas _ _ (setCapabilityValue _ _ _))).
  assert (ownedBy isOpenAlarm openAlarmTimer st5) as Hown5.
  { apply (ownedBy_subset _ _ st); [|subst st5; by exec|done].
    intros h tm Hl. subst st5. revert Hl. rewrite !setIfHas_store, setCapabilityValue_store.
    cbn [pending with_capabilities]. intros Hl.
    by do 2 apply pending_clearTimeout_subset in Hl. }
  assert (settings st5 = settings st) as Hset by (subst st5; by exec).
  assert (openAlarmTimeSetting st5 = seconds) as Hsec
    by (subst seconds; unfold openAlarmTimeSetting; by rewrite Hset).
  assert (nextTimer st5 = nextTimer st /\ now st5 = now st) as [Hnext Hnow]
    by (subst st5; by exec).
  pose proof (nonePending_cancel_owned _ _ st5 Hown5) as Hclear.
  assert (0 < seconds ->
          openAlarmTimer (startOpenAlarmTimer st5) = Some (nextTimer st) /\
          pending (startOpenAlarmTimer st5) !! nextTimer st =
            Some {| delay := seconds * 1000;
                    due := now st + effectiveDelay (seconds * 1000);
                    callback := OpenAlarmCheck seconds |} /\
          forall h tm, pending (startOpenAlarmTimer st5) !! h = Some tm ->
                       isOpenAlarm (callback tm) = true -> h = nextTimer st) as Hstart.
  { intros Hpos. destruct (startOpenAlarmTimer_on st5) as [H1 H2]; [lia|].
    rewrite Hsec, Hnext, Hnow in *. split; [done|]. split; [done|].
    intros h tm Hl Hk. revert Hl. unfold startOpenAlarmTimer. cbv zeta.
    assert (openAlarmTimeSetting (clearTimeout (openAlarmTimer st5) st5) = seconds)
      as -> by (rewrite <- Hsec; unfold openAlarmTimeSetting; by exec).
    destruct (Z.leb_spec seconds 0); [lia|].
    cbn [setTimeout pending with_openAlarmTimer with_timers].
    intros Hl. apply lookup_insert_Some in Hl as [[<- _]|[_ Hl]].
    - by destruct (openAlarmTimer st5).
    - specialize (Hclear _ _ Hl). congruence. }
  assert (seconds <= 0 -> nonePending isOpenAlarm (startOpenAlarmTimer st5)) as Hoff.
  { intros Hle. rewrite startOpenAlarmTimer_off by lia. done. }
  split; [|split; [|split; [|split]]].
  - destruct isOpen.
    + split.
      * intros Hp. split; [done|]. destruct (Z.leb_spec seconds 0) as [Hle|]; [|done].
        by destruct (nonePending_not_pendingKind _ _ (Hoff Hle)).
      * intros [_ Hpos]. destruct (Hstart Hpos) as (_ & Hl & _). by do 2 eexists.
    + split; [|by intros [? _]].
      intros Hp. by destruct (nonePending_not_pendingKind _ _ Hclear).
  - intros -> Hpos. by apply Hstart.
  - by intros ->.
  - intros Hle evs Hevs. apply OpenAlarmOff_run; [done|]. split.
    + unfold openAlarmTimeSetting, stopOpenAlarmTimer.
      destruct isOpen; rewrite ?settings_startOpenAlarmTimer; exec; by rewrite Hset.
    + destruct isOpen; [by apply Hoff|done].
  - exact Hshot.
Qed.

(** C6 as stated fails once the timer has fired: the door is open, the
    alarm time is 5 s, and nothing is pending. *)
Lemma open_alarm_not_rearmed :
  feasibleRun doorLeftOpen openAlarmDevice = true /\
  let st := run doorLeftOpen openAlarmDevice in
  capabilities st !! alarm_contact = Some (VBool true) /\
  openAlarmTimeSetting st = 5 /\
  pending st = ∅ /\
  alerts st = ["opentime_alarm_triggered"].
Proof. vm_compute. repeat split. Qed.

(** ** Countdown and safety timers together *)

Lemma inFlight_triggerFlow card st : inFlight (triggerFlow card st) = inFlight st.
Proof. unfold triggerFlow. by case_bool_decide. Qed.

Lemma inFlight_startOpenAlarmTimer st : inFlight (startOpenAlarmTimer st) = inFlight st.
Proof. unfold startOpenAlarmTimer. cbv zeta. destruct (_ <=? 0); by exec. Qed.

Lemma inFlight_handleDataPoint data st : inFlight (handleDataPoint data st) = inFlight st.
Proof.
  unfold handleDataPoint. cbv zeta. destruct (dp data =? dp_garageDoorContact).
  - destruct (truthy _); rewrite ?inFlight_startOpenAlarmTimer; by exec.
  - destruct (dp data =? dp_status); [|done]. destruct (hasCapability _ _); [|done].
    destruct (toString _); [|done]. by exec.
Qed.

Lemma noPulseInFlight_same st st' :
  inFlight st' = inFlight st -> noPulseInFlight st -> noPulseInFlight st'.
Proof. unfold noPulseInFlight. by intros ->. Qed.

Lemma noPulseInFlight_writeChangedSettings newSettings changedKeys rest st :
  noPulseInFlight st ->
  noPulseInFlight (writeChangedSettings newSettings changedKeys rest st).
Proof.
  induction rest as [|key rest IH]; intros H; simpl.
  - apply (noPulseInFlight_same st); [|done]. unfold afterSettingWrites.
    destruct (existsb _ _); [|done]. cbv zeta. destruct (strictEqBool _ _); [|done].
    apply inFlight_startOpenAlarmTimer.
  - destruct (settingsMap key); [|by apply IH].
    intros c k Hl. simpl in Hl.
    apply lookup_insert_Some in Hl as [[_ <-]|[_ Hl]]; [done|by apply (H c)].
Qed.

(** When the countdown timer fires, no countdown timer is left. *)
Lemma nonePending_countdown_fired h tm st :
  TimersOwned st -> pending st !! h = Some tm -> callback tm = SendPulse ->
  nonePending isCountdown (clearTimeout (Some h) st).
Proof.
  intros Hown Hl Hcb h' tm' Hl'. simpl in Hl'. lookups.
  destruct (isCountdown (callback tm')) eqn:Hk; [|done].
  destruct (TimersOwned_atMostOne st Hown) as [Hone _].
  destruct (Hone h tm h' tm'); try done. by rewrite Hcb.
Qed.

Lemma Apart_no_countdown st : nonePending isCountdown st -> Apart st.
Proof. intros H. split; [by left|by right]. Qed.

(** A handler that sets no countdown, safety or retry timer and issues no
    pulse write keeps the timers apart. *)
Lemma Apart_preserved st st' :
  (forall kind, kind = isCountdown \/ kind = isSafety \/ kind = isRetryPause ->
                nonePending kind st -> nonePending kind st') ->
  (noPulseInFlight st -> noPulseInFlight st') ->
  Apart st -> Apart st'.
Proof.
  intros Hk Hf [Hex Hidle]. split.
  - destruct Hex; [left|right]; apply Hk; auto.
  - destruct Hidle as [[Hp Hr]|Hc]; [left|right].
    + split; [by apply Hf|]. apply Hk; auto.
    + apply Hk; auto.
Qed.

Ltac kinds := intros ? [->|[->| ->]]; try done.

Lemma Apart_step ev st :
  (ev = RequestTrigger -> Idle st) ->
  TimersOwned st -> Apart st -> Apart (step ev st).
Proof.
  intros Hreq Hown Hap.
  destruct ev as [t| |data|h|c o|newSettings changedKeys|s|]; simpl.
  - done.
  - destruct (Hreq eq_refl) as [Hp Hr]. rewrite triggerDoorPulse_unfold. cbv zeta.
    destruct (cleared_both st Hown) as [Hc Hs].
    destruct (_ <=? 0).
    + by apply Apart_no_countdown, nonePending_sendPulse.
    + split.
      * right. apply (nonePending_same _ (snd (setTimeout SendPulse
            (countdownSeconds st * 1000) (setIfHas garage_Door_State_Capability (VStr "2")
               (clearTimeout (safetyTimer st) (clearTimeout (delayedTriggerTimer st) st))))));
          [done|]. by apply nonePending_setTimeout, nonePending_setIfHas.
      * left. split.
        -- apply (noPulseInFlight_same st); [|done]. by exec.
        -- apply (nonePending_same _ (snd (setTimeout SendPulse
            (countdownSeconds st * 1000) (setIfHas garage_Door_State_Capability (VStr "2")
               (clearTimeout (safetyTimer st) (clearTimeout (delayedTriggerTimer st) st))))));
             [done|]. apply nonePending_setTimeout; [done|]. apply nonePending_setIfHas.
           by do 2 apply nonePending_clearTimeout.
  - apply (Apart_preserved st); [|by apply noPulseInFlight_same, inFlight_handleDataPoint|done].
    kinds; by apply nonePending_handleDataPoint.
  - unfold fire. destruct (pending st !! h) as [tm|] eqn:Hl; [|done].
    change (with_timers (nextTimer st) (delete h (pending st)) st)
      with (clearTimeout (Some h) st).
    assert (Apart (clearTimeout (Some h) st)) as Hap'.
    { apply (Apart_preserved st); [|by apply noPulseInFlight_same|done].
      intros kind _. apply nonePending_clearTimeout. }
    destruct (callback tm) eqn:Hcb; simpl.
    + apply Apart_no_countdown, nonePending_sendPulse.
      by apply (nonePending_countdown_fired h tm).
    + apply Apart_no_countdown.
      apply (nonePending_same _ (clearTimeout (Some h) st)); [done|].
      apply nonePending_clearTimeout.
      destruct Hap as [_ [[_ Hr]|Hc]]; [|done].
      specialize (Hr _ _ Hl). by rewrite Hcb in Hr.
    + apply (Apart_preserved (clearTimeout (Some h) st)); [|by apply noPulseInFlight_same; exec|done].
      intros kind _. apply nonePending_setCapabilityValue.
    + apply (Apart_preserved (clearTimeout (Some h) st)); [| |done].
      * intros kind _. apply nonePending_safetyCheck.
      * apply noPulseInFlight_same. unfold safetyCheck. cbv zeta.
        destruct (negb _); [|done]. rewrite inFlight_triggerFlow. by exec.
    + apply (Apart_preserved (clearTimeout (Some h) st)); [| |done].
      * intros kind _. apply nonePending_openAlarmCheck.
      * apply noPulseInFlight_same. unfold openAlarmCheck. cbv zeta.
        destruct (strictEqBool _ _); [|done]. apply inFlight_triggerFlow.
  - unfold settle. destruct (inFlight st !! c) as [k|] eqn:Hl; [|done].
    set (st' := with_calls _ _ _ st).
    assert (forall kind, nonePending kind st -> nonePending kind st') as Hsame
      by (intros kind; by apply nonePending_same).
    destruct k as [e|e|newSettings changedKeys rest]; simpl.
    + apply Apart_no_countdown. apply nonePending_afterPulseWrite; [done|done|].
      apply Hsame. destruct Hap as [_ [[Hp _]|Hc]]; [|done]. by specialize (Hp _ _ Hl).
    + apply Apart_no_countdown. apply nonePending_afterRetryWrite; [done|done|].
      apply Hsame. destruct Hap as [_ [[Hp _]|Hc]]; [|done]. by specialize (Hp _ _ Hl).
    + apply (Apart_preserved st); [| |done].
      * kinds; intros H; by apply nonePending_writeChangedSettings, Hsame.
      * intros Hp. apply noPulseInFlight_writeChangedSettings.
        intros c' k' Hl'. simpl in Hl'. apply lookup_delete_Some in Hl' as [_ Hl'].
        by apply (Hp c').
  - apply (Apart_preserved st); [| |done].
    + kinds; intros H; by apply nonePending_writeChangedSettings.
    + apply noPulseInFlight_writeChangedSettings.
  - done.
  - apply (Apart_preserved st); [|by apply noPulseInFlight_same; unfold onDeleted; exec|done].
    intros kind _. apply nonePending_onDeleted.
Qed.

Lemma Apart_run evs : forall st,
  requestsApart evs st -> TimersOwned st -> Apart st -> Apart (run evs st).
Proof.
  induction evs as [|ev evs IH]; intros st Hreq Hown Hap; simpl; [done|].
  destruct Hreq as [Hreq Hrest].
  apply IH; [done|by apply TimersOwned_step|by apply Apart_step].
Qed.

(** What holds of the claim C5 when each event is on its own: on every
    run of [step] at most one countdown timer and at most one safety timer
    are pending, and on the runs where every trigger request comes when no
    [sendPulse] is under way the two are never pending together.  (With
    handlers that overlap at an awaited call, see [one_timer_of_each_kind]
    and [countdown_safety_exclusive].) *)
Lemma timers_of_reachable caps s cards evs :
  let st := run evs (init caps s cards) in
  atMostOne isCountdown st /\ atMostOne isSafety st /\
  (requestsApart evs (init caps s cards) -> Exclusive st).
Proof.
  intros st. destruct (TimersOwned_atMostOne st) as (Hc & Hs & _);
    [apply TimersOwned_reachable|].
  split; [done|]. split; [done|]. intros Hevs.
  apply Apart_run; [done|apply TimersOwned_init|].
  apply Apart_no_countdown, nonePending_init.
Qed.

(** C5.  The claim fails on the extended revision: on this run, which the
    host clock allows, a trigger request arrives during the pause before
    the retry, and afterwards the countdown timer of that request and the
    safety timer of the first cycle are pending together. *)
Theorem overlapping_cycles_both_pending :
  feasibleRun retryOverlapsRequest countdownDevice = true /\
  let st := run retryOverlapsRequest countdownDevice in
  delayedTriggerTimer st = Some 2 /\
  pending st !! 2 = Some {| delay := 5000; due := 10200; callback := SendPulse |} /\
  safetyTimer st = Some 3 /\
  pending st !! 3 = Some {| delay := 20000; due := 25600; callback := SafetyCheck true |} /\
  ~ Exclusive st.
Proof.
  split; [by vm_compute|]. cbv zeta.
  assert (pending (run retryOverlapsRequest countdownDevice) !! 2 =
            Some {| delay := 5000; due := 10200; callback := SendPulse |}) as H2
    by by vm_compute.
  assert (pending (run retryOverlapsRequest countdownDevice) !! 3 =
            Some {| delay := 20000; due := 25600; callback := SafetyCheck true |}) as H3
    by by vm_compute.
  split; [by vm_compute|]. split; [exact H2|].
  split; [by vm_compute|]. split; [exact H3|].
  intros [H|H]; [specialize (H _ _ H2)|specialize (H _ _ H3)]; discriminate H.
Qed.

(** The same happens with no rejection at all, and in both revisions, when
    the second request arrives while the pulse write is awaited. *)
Lemma overlapping_write_both_pending :
  feasibleRun writeOverlapsRequest countdownDevice = true /\
  let st := run writeOverlapsRequest countdownDevice in
  pending st !! 1 = Some {| delay := 5000; due := 10100; callback := SendPulse |} /\
  pending st !! 2 = Some {| delay := 20000; due := 25300; callback := SafetyCheck true |} /\
  ~ Exclusive st /\
  Legacy.run writeOverlapsRequest countdownDevice = st.
Proof.
  split; [by vm_compute|]. cbv zeta.
  assert (pending (run writeOverlapsRequest countdownDevice) !! 1 =
            Some {| delay := 5000; due := 10100; callback := SendPulse |}) as H1
    by by vm_compute.
  assert (pending (run writeOverlapsRequest countdownDevice) !! 2 =
            Some {| delay := 20000; due := 25300; callback := SafetyCheck true |}) as H2
    by by vm_compute.
  split; [exact H1|]. split; [exact H2|]. split; [|by vm_compute].
  intros [H|H]; [specialize (H _ _ H1)|specialize (H _ _ H2)]; discriminate H.
Qed.

(** ** The older revision *)

(** No retry: whatever the outcome of the write, the older revision does
    what the extended one does on an acknowledged write. *)
Lemma legacy_no_retry e o st :
  Legacy.afterPulseWrite e o st = afterPulseWrite e Acked st.
Proof. done. Qed.

(** The older revision handles a status report as the extended one does. *)
Lemma legacy_status_report data st :
  dp data <> dp_garageDoorContact ->
  Legacy.handleDataPoint data st = handleDataPoint data st.
Proof.
  intros Hne. unfold Legacy.handleDataPoint, handleDataPoint.
  by destruct (Z.eqb_spec (dp data) dp_garageDoorContact).
Qed.

(** X22.  On a contact report the older revision does what the extended
    one does before it turns to the open-alarm timer.  It cancels the timers
    that [safetyTimer] and [delayedTriggerTimer] refer to and no other, and
    it sets no timer: no safety timer is left pending where the pending
    safety timers are the one the field refers to, and the same holds of
    the countdown timers.  It stores the reported value as [alarm_contact]
    and sets the status to open or closed from that value. *)
Lemma legacy_contact_report (st : Device) (data : DpValue) :
  dp data = dp_garageDoorContact ->
  hasCapability alarm_contact st = true ->
  hasCapability garage_Door_State_Capability st = true ->
  let isOpen := truthy (getDataValue data) in
  let st' := Legacy.handleDataPoint data st in
  handleDataPoint data st =
    (if isOpen then startOpenAlarmTimer st' else stopOpenAlarmTimer st') /\
  pending st' =
    cancelTimer (delayedTriggerTimer st) (cancelTimer (safetyTimer st) (pending st)) /\
  nextTimer st' = nextTimer st /\ openAlarmTimer st' = openAlarmTimer st /\
  safetyTimer st' = safetyTimer st /\ delayedTriggerTimer st' = delayedTriggerTimer st /\
  (ownedBy isSafety safetyTimer st -> nonePending isSafety st') /\
  (ownedBy isCountdown delayedTriggerTimer st -> nonePending isCountdown st') /\
  capabilities st' !! alarm_contact = Some (VBool isOpen) /\
  capabilities st' !! garage_Door_State_Capability = Some (statusOf isOpen).
Proof.
  intros Hdp Hc%hasCapability_is_Some Hs%hasCapability_is_Some isOpen st'.
  assert (pending st' =
            cancelTimer (delayedTriggerTimer st) (cancelTimer (safetyTimer st) (pending st)))
    as Hp.
  { subst st'. unfold Legacy.handleDataPoint. rewrite Hdp, Z.eqb_refl. by exec. }
  split; [|split; [done|]].
  { subst st'. unfold handleDataPoint, Legacy.handleDataPoint.
    rewrite Hdp, Z.eqb_refl. cbv zeta. fold isOpen. by destruct isOpen. }
  subst st'. unfold Legacy.handleDataPoint in *. rewrite Hdp, Z.eqb_refl in *.
  cbv zeta in *. fold isOpen in Hp |- *.
  assert (alarm_contact <> garage_Door_Button) by done.
  assert (alarm_contact <> garage_Door_State_Capability) by done.
  assert (garage_Door_Button <> garage_Door_State_Capability) by done.
  split; [by exec|]. split; [by exec|]. split; [by exec|]. split; [by exec|].
  split; [|split].
  - intros Ho h tm Hl. rewrite Hp in Hl. destruct (isSafety (callback tm)) eqn:Hk; [|done].
    destruct (delayedTriggerTimer st) as [h1|]; destruct (safetyTimer st) as [h2|] eqn:E;
      simpl in Hl; lookups; pose proof (Ho _ _ Hl Hk); congruence.
  - intros Ho h tm Hl. rewrite Hp in Hl. destruct (isCountdown (callback tm)) eqn:Hk; [|done].
    destruct (delayedTriggerTimer st) as [h1|] eqn:E; destruct (safetyTimer st) as [h2|];
      simpl in Hl; lookups; pose proof (Ho _ _ Hl Hk); congruence.
  - clear Hp. destruct isOpen; exec; split; caps.
Qed.

Lemma legacy_TimersOwned_writeChangedSettings newSettings changedKeys rest st :
  TimersOwned st ->
  TimersOwned (Legacy.writeChangedSettings newSettings changedKeys rest st).
Proof.
  induction rest as [|key rest IH]; intros H; simpl; [done|].
  destruct (settingsMap key); [by apply TimersOwned_writeData32|by apply IH].
Qed.

Lemma legacy_TimersOwned_step ev st : TimersOwned st -> TimersOwned (Legacy.step ev st).
Proof.
  intros H. destruct ev as [t| |data|h|c o|newSettings changedKeys|s|]; simpl.
  - by apply (TimersOwned_same st).
  - by apply TimersOwned_triggerDoorPulse.
  - unfold Legacy.handleDataPoint. cbv zeta. destruct (dp data =? dp_garageDoorContact).
    + do 2 apply TimersOwned_setIfHas. apply TimersOwned_setCapabilityValue.
      by do 2 apply TimersOwned_clearTimeout.
    + destruct (dp data =? dp_status); [|done]. destruct (hasCapability _ _); [|done].
      destruct (toString _); [|done]. by apply TimersOwned_setCapabilityValue.
  - unfold Legacy.fire. destruct (pending st !! h) as [tm|]; [|done].
    assert (TimersOwned (clearTimeout (Some h) st)) as H'
      by by apply TimersOwned_clearTimeout.
    destruct (callback tm); simpl; try done.
    + by apply TimersOwned_sendPulse.
    + by apply TimersOwned_safetyCheck.
  - unfold Legacy.settle. destruct (inFlight st !! c) as [k|]; [|done].
    assert (TimersOwned (with_calls (nextCall st) (delete c (inFlight st)) (writes st) st))
      as H' by by apply (TimersOwned_same st).
    destruct k; simpl; try done.
    + by apply TimersOwned_startSafetyTimer.
    + by apply legacy_TimersOwned_writeChangedSettings.
  - by apply legacy_TimersOwned_writeChangedSettings.
  - by apply (TimersOwned_same st).
  - done.
Qed.

(** The older revision keeps the timer discipline too when each event is
    on its own: on every run of [Legacy.step] at most one countdown timer
    and at most one safety timer are pending. *)
Lemma legacy_timers_of_reachable caps s cards evs :
  let st := Legacy.run evs (init caps s cards) in
  atMostOne isCountdown st /\ atMostOne isSafety st.
Proof.
  intros st.
  assert (forall st0, TimersOwned st0 -> TimersOwned (Legacy.run evs st0)) as Hrun.
  { induction evs as [|ev evs IH]; intros st0 H0; simpl; [done|].
    by apply IH, legacy_TimersOwned_step. }
  destruct (TimersOwned_atMostOne st) as (Hc & Hs & _); [|done].
  apply Hrun, TimersOwned_init.
Qed.

(** ** The handlers between their awaits *)

(** [sendPulse] is its first call on the status followed by [writePulse]. *)
Lemma sendPulse_writePulse st :
  sendPulse st = writePulse (setIfHas garage_Door_State_Capability (VStr "moving") st).
Proof. reflexivity. Qed.

Lemma triggerDoorPulse_setCountdownTimer st :
  triggerDoorPulse st =
  let st := clearTimeout (delayedTriggerTimer st) st in
  let st := clearTimeout (safetyTimer st) st in
  if countdownSeconds st <=? 0 then sendPulse st
  else setCountdownTimer (countdownSeconds st)
         (setIfHas garage_Door_State_Capability (VStr "2") st).
Proof. reflexivity. Qed.

Lemma TimersOwned_TimersTracked st : TimersOwned st -> TimersTracked st.
Proof. intros [Hf Hc Hs Ho]. by split. Qed.

Lemma TimersTracked_same st st' :
  pending st' = pending st -> nextTimer st' = nextTimer st ->
  safetyTimer st' = safetyTimer st -> openAlarmTimer st' = openAlarmTimer st ->
  TimersTracked st -> TimersTracked st'.
Proof.
  intros Hp Hn Hs Ho [? ? ?]. split; unfold ownedBy in *; rewrite Hp, ?Hn, ?Hs, ?Ho; done.
Qed.

Ltac tracked_cases :=
  split; unfold ownedBy in *; simpl; intros ? ? Hl; lookups; simpl in *; try done;
  try intros Hk; try own_solve.

Lemma TimersTracked_clearTimeout h st : TimersTracked st -> TimersTracked (clearTimeout h st).
Proof. intros [Hf Hs Ho]. destruct h as [h|]; [|done]. tracked_cases. Qed.

Lemma TimersTracked_setTimeout cb ms st :
  isSafety cb = false -> isOpenAlarm cb = false ->
  TimersTracked st -> TimersTracked (snd (setTimeout cb ms st)).
Proof. intros ? ? [Hf Hs Ho]. tracked_cases. Qed.

Lemma TimersTracked_setCapabilityValue c v st :
  TimersTracked st -> TimersTracked (setCapabilityValue c v st).
Proof.
  apply TimersTracked_same; unfold setCapabilityValue; by destruct (hasCapability c st).
Qed.

Lemma TimersTracked_triggerFlow card st :
  TimersTracked st -> TimersTracked (triggerFlow card st).
Proof. apply TimersTracked_same; unfold triggerFlow; by case_bool_decide. Qed.

Lemma TimersTracked_setCountdownTimer cd st :
  TimersTracked st -> TimersTracked (setCountdownTimer cd st).
Proof. intros [Hf Hs Ho]. tracked_cases. Qed.

Lemma TimersTracked_startSafetyTimer e st :
  TimersTracked st -> TimersTracked (startSafetyTimer e st).
Proof.
  intros [Hf Hs Ho]. unfold startSafetyTimer.
  destruct (safetyTimer st) as [h0|] eqn:E; simpl; tracked_cases.
  all: match goal with H : pending _ !! _ = Some _ |- _ =>
         specialize (Hs _ _ H Hk); congruence end.
Qed.

Lemma TimersTracked_startOpenAlarmTimer st :
  TimersTracked st -> TimersTracked (startOpenAlarmTimer st).
Proof.
  intros [Hf Hs Ho]. unfold startOpenAlarmTimer.
  destruct (openAlarmTimer st) as [h0|] eqn:E; simpl;
    destruct (_ <=? 0); simpl; tracked_cases.
  all: match goal with H : pending _ !! _ = Some _ |- _ =>
         specialize (Ho _ _ H Hk); congruence end.
Qed.

Lemma TimersTracked_afterPulseWrite e o st :
  TimersTracked st -> TimersTracked (afterPulseWrite e o st).
Proof.
  intros H. unfold afterPulseWrite.
  destruct o as [|err]; [by apply TimersTracked_startSafetyTimer|].
  destruct (isTimeout err); [by apply TimersTracked_startSafetyTimer|].
  by apply TimersTracked_setTimeout.
Qed.

Lemma TimersTracked_writeChangedSettings newSettings changedKeys rest st :
  TimersTracked st -> TimersTracked (writeChangedSettings newSettings changedKeys rest st).
Proof.
  induction rest as [|key rest IH]; intros H; simpl.
  - unfold afterSettingWrites. destruct (existsb _ _); [|done].
    destruct (strictEqBool _ _); [|done]. by apply TimersTracked_startOpenAlarmTimer.
  - destruct (settingsMap key); [by apply (TimersTracked_same st)|by apply IH].
Qed.

Lemma TimersTracked_awaitCapability c v k s :
  TimersTracked (device s) -> TimersTracked (device (awaitCapability c v k s)).
Proof. apply TimersTracked_setCapabilityValue. Qed.

Lemma TimersTracked_sendPulse s :
  TimersTracked (device s) -> TimersTracked (device (Interleaved.sendPulse s)).
Proof.
  intros H. unfold Interleaved.sendPulse. destruct (hasCapability _ _).
  - by apply TimersTracked_awaitCapability.
  - by apply (TimersTracked_same (device s)).
Qed.

Lemma TimersTracked_afterStatusStored isOpen s :
  TimersTracked (device s) -> TimersTracked (device (Interleaved.afterStatusStored isOpen s)).
Proof.
  intros H. destruct isOpen; simpl.
  - by apply TimersTracked_startOpenAlarmTimer.
  - by apply TimersTracked_clearTimeout.
Qed.

Lemma TimersTracked_afterButtonSynced isOpen s :
  TimersTracked (device s) -> TimersTracked (device (Interleaved.afterButtonSynced isOpen s)).
Proof.
  intros H. unfold Interleaved.afterButtonSynced. destruct (hasCapability _ _).
  - by apply TimersTracked_awaitCapability.
  - by apply TimersTracked_afterStatusStored.
Qed.

Lemma TimersTracked_resume k s :
  TimersTracked (device s) -> TimersTracked (device (Interleaved.resume k s)).
Proof.
  intros H. destruct k; simpl.
  - by apply TimersTracked_setCountdownTimer.
  - by apply (TimersTracked_same (device s)).
  - by apply TimersTracked_setTimeout.
  - unfold Interleaved.afterButtonForced. destruct (hasCapability _ _).
    + by apply TimersTracked_awaitCapability.
    + by apply TimersTracked_triggerFlow.
  - by apply TimersTracked_triggerFlow.
  - unfold Interleaved.afterContactStored. destruct (hasCapability _ _).
    + by apply TimersTracked_awaitCapability.
    + by apply TimersTracked_afterButtonSynced.
  - by apply TimersTracked_afterButtonSynced.
  - by apply TimersTracked_afterStatusStored.
Qed.

Lemma TimersTracked_step oc s :
  TimersTracked (device s) -> TimersTracked (device (Interleaved.step oc s)).
Proof.
  intros H. destruct oc as [[t| |data|h|c o|newSettings changedKeys|stored|]|a]; simpl.
  - by apply (TimersTracked_same (device s)).
  - unfold Interleaved.triggerDoorPulse. cbv zeta.
    set (s2 := onDevice _ (onDevice _ s)).
    assert (TimersTracked (device s2)) as H2
      by (subst s2; simpl; by do 2 apply TimersTracked_clearTimeout).
    destruct (_ <=? 0); [by apply TimersTracked_sendPulse|].
    destruct (hasCapability _ _).
    + by apply TimersTracked_awaitCapability.
    + by apply TimersTracked_setCountdownTimer.
  - unfold Interleaved.handleDataPoint. cbv zeta.
    destruct (dp data =? dp_garageDoorContact).
    + apply TimersTracked_awaitCapability. simpl. by do 2 apply TimersTracked_clearTimeout.
    + destruct (dp data =? dp_status); [|done]. destruct (hasCapability _ _); [|done].
      destruct (toString _); [|done]. by apply TimersTracked_setCapabilityValue.
  - unfold Interleaved.fire. destruct (pending (device s) !! h) as [tm|]; [|done].
    set (s1 := onDevice _ s).
    assert (TimersTracked (device s1)) as H1
      by (subst s1; simpl; by apply (TimersTracked_clearTimeout (Some h))).
    destruct (callback tm); simpl.
    + by apply TimersTracked_sendPulse.
    + by apply (TimersTracked_same (device s1)).
    + by apply TimersTracked_setCapabilityValue.
    + unfold Interleaved.safetyCheck. cbv zeta. destruct (negb _); [|done].
      by apply TimersTracked_awaitCapability.
    + unfold openAlarmCheck. destruct (strictEqBool _ _); [|done].
      by apply TimersTracked_triggerFlow.
  - unfold Interleaved.settle. destruct (inFlight (device s) !! c) as [k|]; [|done].
    set (s1 := onDevice _ s).
    assert (TimersTracked (device s1)) as H1
      by (subst s1; simpl; by apply (TimersTracked_same (device s))).
    destruct k; simpl.
    + by apply TimersTracked_afterPulseWrite.
    + unfold Interleaved.afterRetryWrite. destruct o as [|err].
      * by apply TimersTracked_startSafetyTimer.
      * destruct (hasCapability _ _).
        -- by apply TimersTracked_awaitCapability.
        -- by apply TimersTracked_setTimeout.
    + by apply TimersTracked_writeChangedSettings.
  - by apply TimersTracked_writeChangedSettings.
  - by apply (TimersTracked_same (device s)).
  - unfold onDeleted. by do 3 apply TimersTracked_clearTimeout.
  - unfold Interleaved.capabilitySettles. destruct (awaited s !! a) as [k|]; [|done].
    by apply TimersTracked_resume.
Qed.

Lemma TimersTracked_run ocs : forall s,
  TimersTracked (device s) -> TimersTracked (device (Interleaved.run ocs s)).
Proof.
  induction ocs as [|oc ocs IH]; intros s H; simpl; [done|].
  by apply IH, TimersTracked_step.
Qed.

(** Under any interleaving the safety and open-alarm timers stay tracked. *)
Lemma TimersTracked_reachable caps s cards ocs :
  TimersTracked (device (Interleaved.run ocs (Interleaved.boot (init caps s cards)))).
Proof. apply TimersTracked_run, TimersOwned_TimersTracked, TimersOwned_init. Qed.

(** ** Every event on its own *)

Ltac settle_calls :=
  repeat first
    [ progress unfold Interleaved.capabilitySettles, onDevice, awaitCapability,
        Interleaved.afterContactStored, Interleaved.afterButtonSynced,
        Interleaved.afterStatusStored, Interleaved.afterButtonForced
    | progress rewrite <- Z.add_assoc
    | progress change (1 + 1) with 2
    | progress change (2 + 1) with 3
    | rewrite lookup_insert_ne by lia
    | progress cbn [Interleaved.step Interleaved.resume Interleaved.run Interleaved.alone
                    fold_left awaited nextAwait device]
    | rewrite lookup_insert_eq
    | rewrite delete_insert_id by done
    | match goal with
      | H : ?m !! ?a = None |- context [?m !! ?a] => rewrite H
      end ].

Ltac alone_cases :=
  settle_calls;
  repeat (match goal with
          | |- context [if ?b then _ else _] => destruct b eqn:?
          end; settle_calls);
  repeat split; try done; try lia.

Lemma step_alone ev s :
  awaitsFresh s ->
  let s' := Interleaved.run (Interleaved.alone ev s) s in
  device s' = step ev (device s) /\ awaited s' = awaited s /\ nextAwait s <= nextAwait s'.
Proof.
  intros Hfresh.
  assert (forall j, 0 <= j -> awaited s !! (nextAwait s + j) = None) as Hnone.
  { intros j Hj. destruct (awaited s !! _) eqn:E; [|done]. apply Hfresh in E. lia. }
  pose proof (Hnone 0 ltac:(lia)) as H0. rewrite Z.add_0_r in H0.
  pose proof (Hnone 1 ltac:(lia)) as H1. pose proof (Hnone 2 ltac:(lia)) as H2.
  pose proof (Hnone 3 ltac:(lia)) as H3.
  clear Hnone Hfresh. destruct s as [st n aw]. cbn [device nextAwait awaited] in *.
  destruct ev as [t| |data|h|c o|newSettings changedKeys|stored|]; cbv zeta.
  - settle_calls. repeat split; try done; lia.
  - cbn [step]. rewrite triggerDoorPulse_setCountdownTimer. cbv zeta.
    unfold Interleaved.alone. cbn [Interleaved.run fold_left Interleaved.step nextAwait].
    unfold Interleaved.triggerDoorPulse, Interleaved.sendPulse. cbv zeta.
    rewrite sendPulse_writePulse. unfold setIfHas. alone_cases.
  - cbn [step]. unfold handleDataPoint. cbv zeta.
    unfold Interleaved.alone. cbn [Interleaved.run fold_left Interleaved.step nextAwait].
    unfold Interleaved.handleDataPoint. cbv zeta. unfold setIfHas.
    destruct (dp data =? dp_garageDoorContact).
    + unfold Interleaved.afterContactStored, Interleaved.afterButtonSynced,
        Interleaved.afterStatusStored.
      destruct (truthy (getDataValue data)); alone_cases.
    + destruct (dp data =? dp_status); [|alone_cases].
      cbn [device]. destruct (hasCapability garage_Door_State_Capability st); [|alone_cases].
      destruct (toString _); alone_cases.
  - cbn [step]. unfold fire.
    unfold Interleaved.alone. cbn [Interleaved.run fold_left Interleaved.step nextAwait].
    unfold Interleaved.fire. cbn [device onDevice].
    destruct (pending st !! h) as [tm|]; [|alone_cases].
    destruct (callback tm); cbn [runCallback Interleaved.runCallback].
    + unfold Interleaved.sendPulse. rewrite sendPulse_writePulse. unfold setIfHas.
      alone_cases.
    + alone_cases.
    + alone_cases.
    + unfold Interleaved.safetyCheck, safetyCheck, Interleaved.afterButtonForced.
      cbv zeta. unfold setIfHas. cbn [device onDevice].
      destruct (negb _); alone_cases.
    + alone_cases.
  - cbn [step]. unfold settle.
    unfold Interleaved.alone. cbn [Interleaved.run fold_left Interleaved.step nextAwait].
    unfold Interleaved.settle. cbn [device onDevice].
    destruct (inFlight st !! c) as [k|]; [|alone_cases].
    destruct k; cbn [runContinuation Interleaved.runContinuation].
    + alone_cases.
    + unfold Interleaved.afterRetryWrite, afterRetryWrite. cbv zeta. unfold setIfHas.
      destruct o; alone_cases.
    + alone_cases.
  - settle_calls. repeat split; try done; lia.
  - settle_calls. repeat split; try done; lia.
  - settle_calls. repeat split; try done; lia.
Qed.

Lemma interleaved_run_app ocs1 ocs2 s :
  Interleaved.run (ocs1 ++ ocs2) s = Interleaved.run ocs2 (Interleaved.run ocs1 s).
Proof. apply fold_left_app. Qed.

Lemma awaitsFresh_boot st : awaitsFresh (Interleaved.boot st).
Proof. intros a k Hl. simpl in Hl. by rewrite lookup_empty in Hl. Qed.

(** X23.  The handlers of [step] are the handlers cut at their awaits,
    when every awaited call settles before the next event arrives: a run of
    [step] is the interleaved run in which each event is on its own. *)
Theorem run_serial (evs : list Event) (s : Host) :
  awaitsFresh s ->
  device (Interleaved.run (Interleaved.serial evs s) s) = run evs (device s).
Proof.
  revert s. induction evs as [|ev evs IH]; intros s Hfresh; [done|].
  cbn [Interleaved.serial run fold_left]. rewrite interleaved_run_app.
  destruct (step_alone ev s Hfresh) as (Hd & Ha & Hn).
  rewrite IH, Hd; [done|].
  intros a k Hl. rewrite Ha in Hl. apply Hfresh in Hl. lia.
Qed.

(** ** Overlapping trigger requests *)

(** C2.  The claim fails on the extended revision when two trigger requests
    overlap.  With a countdown of 5 s, the second request arrives while the
    first awaits [setCapabilityValue] between its [clearTimeout] and its
    [setTimeout]: both then set a countdown timer, and [delayedTriggerTimer]
    refers to the second only.  The contact reports that follow, open at
    1 s and closed at 2 s, are handled to their end and store the contact,
    but the countdown timer of the first request is still pending after
    each of them; at 5 s it fires and the pulse is written. *)
Theorem stale_countdown_survives_report :
  let start := Interleaved.boot countdownDevice in
  let stale := {| delay := 5000; due := 5000; callback := SendPulse |} in
  Interleaved.feasibleRun
    (overlappingRequests ++ reportsAfterOverlap ++ staleCountdownFires) start = true /\
  let s := Interleaved.run overlappingRequests start in
  delayedTriggerTimer (device s) = Some 1 /\
  pending (device s) !! 0 = Some stale /\ pending (device s) !! 1 = Some stale /\
  let s1 := Interleaved.step (Arrives (SensorReport (reportContact true))) s in
  pending (device s1) !! 0 = Some stale /\
  let s' := Interleaved.run reportsAfterOverlap s in
  awaited s' = ∅ /\
  pending (device s') !! 0 = Some stale /\
  ~ nonePending isCountdown (device s') /\
  capabilities (device s') !! alarm_contact = Some (VBool false) /\
  capabilities (device s') !! garage_Door_State_Capability = Some status_closed /\
  writes (device s') = [] /\
  writes (device (Interleaved.run staleCountdownFires s')) = [pulse].
Proof.
  cbv zeta. split; [by vm_compute|]. split; [by vm_compute|].
  split; [by vm_compute|]. split; [by vm_compute|]. split; [by vm_compute|].
  split; [by vm_compute|].
  assert (pending (device (Interleaved.run reportsAfterOverlap
                             (Interleaved.run overlappingRequests
                                (Interleaved.boot countdownDevice)))) !! 0 =
          Some {| delay := 5000; due := 5000; callback := SendPulse |}) as Hl
    by by vm_compute.
  split; [exact Hl|]. split.
  - intros Hnone. specialize (Hnone _ _ Hl). discriminate Hnone.
  - clear Hl. by vm_compute.
Qed.

(** C4.  The claim fails on the extended revision when two trigger requests
    overlap.  With a countdown of 5 s, the second request arrives while the
    first awaits [setCapabilityValue] between its [clearTimeout] and its
    [setTimeout], and the countdown timer of the first is left with no field
    that refers to it.  A third request at 1 s does not cancel it: it is
    pending before that request, right after its two [clearTimeout] and
    when the request has set its own countdown timer.  Both timers fire, at
    5 s and at 6 s, and the pulse is written twice. *)
Theorem stale_countdown_survives_request :
  let start := Interleaved.boot countdownDevice in
  let stale := {| delay := 5000; due := 5000; callback := SendPulse |} in
  Interleaved.feasibleRun
    (overlappingRequests ++ requestAfterOverlap ++ bothCountdownsFire) start = true /\
  let s := Interleaved.run (overlappingRequests ++ [Arrives (Tick 1000)]) start in
  pending (device s) !! 0 = Some stale /\
  delayedTriggerTimer (device s) = Some 1 /\
  let s1 := Interleaved.step (Arrives RequestTrigger) s in
  pending (device s1) !! 0 = Some stale /\ pending (device s1) !! 1 = None /\
  let s' := Interleaved.step (CapabilitySettles 2) s1 in
  awaited s' = ∅ /\
  delayedTriggerTimer (device s') = Some 2 /\
  pending (device s') !! 0 = Some stale /\
  pending (device s') !! 2 = Some {| delay := 5000; due := 6000; callback := SendPulse |} /\
  ~ atMostOne isCountdown (device s') /\
  writes (device s') = [] /\
  writes (device (Interleaved.run bothCountdownsFire s')) = [pulse; pulse].
Proof.
  cbv zeta. split; [by vm_compute|]. split; [by vm_compute|].
  split; [by vm_compute|]. split; [by vm_compute|]. split; [by vm_compute|].
  split; [by vm_compute|]. split; [by vm_compute|].
  set (s' := Interleaved.step _ (Interleaved.step _ _)).
  assert (pending (device s') !! 0 =
          Some {| delay := 5000; due := 5000; callback := SendPulse |}) as H0
    by by vm_compute.
  assert (pending (device s') !! 2 =
          Some {| delay := 5000; due := 6000; callback := SendPulse |}) as H2
    by (clear H0; by vm_compute).
  split; [exact H0|]. split; [exact H2|]. split.
  - intros Hone. specialize (Hone _ _ _ _ H0 eq_refl H2 eq_refl). discriminate Hone.
  - clear H0 H2. by vm_compute.
Qed.

(** ** Runs of the device *)

(** With the open-alarm time at 0, unset or negative, and kept so, no
    open-alarm timer is pending after any run. *)
Lemma open_alarm_never_started caps s cards evs :
  orDefault (parseInt (s !! "open_alarm_time")) 0 <= 0 ->
  Forall keepsOpenAlarmOff evs ->
  nonePending isOpenAlarm (run evs (init caps s cards)).
Proof.
  intros Hoff Hevs. apply OpenAlarmOff_run; [done|].
  split; [done|apply nonePending_init].
Qed.

(** Countdown of 5 s, run time of 20 s: the status is countdown-active
    after the request, moving once the countdown has ended, and the safety
    timer is set for 20 s when the write is acknowledged. *)
Example scenario_countdown_then_moving :
  capabilities (run [RequestTrigger] scenarioDevice) !! garage_Door_State_Capability =
    Some status_countdown /\
  feasibleRun countdownThenPulse scenarioDevice = true /\
  let st := run countdownThenPulse scenarioDevice in
  capabilities st !! garage_Door_State_Capability = Some status_moving /\
  map_to_list (pending st) =
    [(1, {| delay := 20000; due := 25020; callback := SafetyCheck true |})].
Proof. by vm_compute. Qed.

(** The sensor reports the expected value at 7 s: the status is open at
    once, no timer is left, and no alert is raised. *)
Example scenario_confirmed_by_sensor :
  let st := run (countdownThenPulse ++ [Tick 7000; SensorReport (reportContact true)])
              scenarioDevice in
  capabilities st !! garage_Door_State_Capability = Some status_open /\
  pending st = ∅ /\ alerts st = [].
Proof. by vm_compute. Qed.

(** No report within the run time: one runtime alarm, the status is
    Alarm. *)
Example scenario_no_confirmation :
  let st := run (countdownThenPulse ++ [Tick 25020; TimerFires 1]) scenarioDevice in
  feasibleRun (countdownThenPulse ++ [Tick 25020; TimerFires 1]) scenarioDevice = true /\
  capabilities st !! garage_Door_State_Capability = Some status_alarm /\
  alerts st = ["runtime_alarm_triggered"].
Proof. by vm_compute. Qed.

(** A write rejected with a timeout is followed by the safety timer, as an
    acknowledged one. *)
Example scenario_timeout_proceeds :
  run [RequestTrigger; WriteSettles 0 (Rejected ackTimeout)] sampleDevice = armedDevice.
Proof. by vm_compute. Qed.

(** The write and the retry are rejected: two writes, the status is error,
    and 3 s later it is closed again, the contact being closed. *)
Example scenario_failed_retry :
  writes failedDevice = [pulse; pulse] /\
  capabilities failedDevice !! garage_Door_State_Capability = Some status_error /\
  map_to_list (pending failedDevice) =
    [(1, {| delay := 3000; due := 3500; callback := RecoverStatus |})] /\
  capabilities (run [Tick 3500; TimerFires 1] failedDevice)
    !! garage_Door_State_Capability = Some status_closed.
Proof. by vm_compute. Qed.

(** ** The claims on the sample devices *)

Lemma safety_timer_fires_witness :
  pending armedDevice !! 0 =
    Some {| delay := 20000; due := 20000; callback := SafetyCheck true |} /\
  alerts (fire 0 armedDevice) = ["runtime_alarm_triggered"].
Proof.
  assert (pending armedDevice !! 0 =
            Some {| delay := 20000; due := 20000; callback := SafetyCheck true |}) as Hl
    by by vm_compute.
  split; [exact Hl|].
  destruct (safety_timer_fires armedDevice 0 _ true Hl) as [Hdiff _];
    [reflexivity|by vm_compute|by vm_compute|set_solver|].
  destruct Hdiff as (_ & _ & Ha); [by vm_compute|]. exact Ha.
Defined.

Lemma pulse_write_retry_policy_witness :
  isTimeout ackTimeout = true /\ isTimeout noRoute = false /\
  settle 0 (Rejected ackTimeout) (writePulse sampleDevice) =
    settle 0 Acked (writePulse sampleDevice) /\
  pending (settle 0 (Rejected noRoute) (writePulse sampleDevice)) =
    {[ 0 := {| delay := 500; due := 500; callback := ResumeAfterPause true |} ]} /\
  safetyTimer (settle 0 (Rejected noRoute) (writePulse sampleDevice)) = None /\
  safetyTimer (Legacy.settle 0 (Rejected noRoute) (writePulse sampleDevice)) = Some 0.
Proof.
  split; [reflexivity|]. split; [reflexivity|].
  destruct (pulse_write_retry_policy sampleDevice) as (_ & H & _ & _ & _ & HL & _).
  destruct (H (writePulse sampleDevice) 0 true (Rejected ackTimeout))
    as (_ & _ & _ & Ht & _); [reflexivity|].
  destruct (H (writePulse sampleDevice) 0 true (Rejected noRoute))
    as (_ & _ & _ & _ & Hp); [reflexivity|].
  destruct (Hp noRoute eq_refl eq_refl) as [Hp1 Hp2].
  destruct (HL (writePulse sampleDevice) 0 true (Rejected noRoute))
    as (_ & _ & Hs & _); [reflexivity|].
  split; [exact (Ht ackTimeout eq_refl eq_refl)|].
  split; [exact Hp1|]. split; [exact Hp2|exact Hs].
Defined.

(** The door is reported open a second time, at 6 s, while the timer of the
    first report is pending: that timer is cancelled and the new one runs
    from 6 s.  And when the timer of the first report fires instead, none is
    pending. *)
Lemma open_alarm_after_contact_report_witness :
  pending openSinceDevice !! 0 =
    Some {| delay := 5000; due := 6000; callback := OpenAlarmCheck 5 |} /\
  let st' := handleDataPoint (reportContact true) openSinceDevice in
  pending st' !! 1 = Some {| delay := 5000; due := 11000; callback := OpenAlarmCheck 5 |} /\
  (forall h tm, pending st' !! h = Some tm -> isOpenAlarm (callback tm) = true -> h = 1) /\
  nonePending isOpenAlarm (handleDataPoint (reportContact false) openSinceDevice) /\
  nonePending isOpenAlarm (fire 0 openSinceDevice).
Proof.
  assert (pending openSinceDevice !! 0 =
            Some {| delay := 5000; due := 6000; callback := OpenAlarmCheck 5 |}) as Hl
    by by vm_compute.
  assert (ownedBy isOpenAlarm openAlarmTimer openSinceDevice) as Hown
    by exact (openAlarm_owned openSinceDevice (TimersOwned_run _ _ (TimersOwned_init _ _ _))).
  split; [exact Hl|]. cbv zeta.
  destruct (open_alarm_after_contact_report openSinceDevice (reportContact true) Hown eq_refl)
    as (_ & Hopen & _ & _ & Hshot).
  destruct (open_alarm_after_contact_report openSinceDevice (reportContact false) Hown eq_refl)
    as (_ & _ & Hclosed & _).
  destruct (Hopen eq_refl) as (_ & Hnew & Hone); [by vm_compute|].
  destruct (Hshot 0 _ Hl eq_refl) as (_ & Hnone & _).
  split; [exact Hnew|]. split; [exact Hone|]. split; [exact (Hclosed eq_refl)|exact Hnone].
Defined.


Lemma getDataValue_by_datatype_witness :
  getDataValue {| dp := dp_runtime; datatype := 2; data := [x01; x02]%byte |} = VNum 258.
Proof.
  destruct (getDataValue_by_datatype
              {| dp := dp_runtime; datatype := 2; data := [x01; x02]%byte |})
    as (_ & _ & H & _).
  destruct H as [_ H]; [reflexivity|]. apply H. by vm_compute.
Defined.

Lemma safety_window_witness : runTimeSetting sampleDevice = 20.
Proof.
  destruct (safety_window sampleDevice true) as (_ & H & _).
  apply H. left. reflexivity.
Defined.

Lemma status_report_frame_witness :
  capabilities (handleDataPoint (reportStatus x02) sampleDevice)
    !! garage_Door_State_Capability = Some (VStr "2").
Proof.
  destruct (status_report_frame sampleDevice (reportStatus x02)) as (_ & _ & H & _);
    [reflexivity|].
  apply H; [by vm_compute|reflexivity].
Defined.

(** C3 as stated fails on the older revision: the write is rejected with
    an error that is not a timeout, and there is no pause and no retry.
    The safety timer is started as after an acknowledged write, and when it
    has fired nothing is left that could write again. *)
Lemma older_revision_never_retries :
  isTimeout noRoute = false /\
  let st := Legacy.run [RequestTrigger; WriteSettles 0 (Rejected noRoute)] sampleDevice in
  writes st = [pulse] /\
  inFlight st = ∅ /\
  safetyTimer st = Some 0 /\
  map_to_list (pending st) =
    [(0, {| delay := 20000; due := 20000; callback := SafetyCheck true |})] /\
  let st' := Legacy.run [Tick 20000; TimerFires 0] st in
  writes st' = [pulse] /\ inFlight st' = ∅ /\ pending st' = ∅.
Proof. by vm_compute. Qed.

(** The guard of [triggerDoorPulse] is [countdownSeconds <= 0]: with a
    countdown of -3 s the pulse is written at once, the status is moving
    and no countdown timer is set. *)
Lemma negative_countdown_sends_at_once :
  countdownSeconds negativeCountdownDevice = -3 /\
  let st' := triggerDoorPulse negativeCountdownDevice in
  writes st' = [pulse] /\
  capabilities st' !! garage_Door_State_Capability = Some status_moving /\
  delayedTriggerTimer st' = None /\
  pending st' = ∅.
Proof. by vm_compute. Qed.

(** C8 as stated fails: a four-byte payload with the top bit set decodes to
    a negative number, not to its big-endian unsigned reading. *)
Lemma getDataValue_not_unsigned :
  getDataValue highBitReport = VNum (-2147483648) /\
  bigEndianUnsigned (data highBitReport) = 2147483648 /\
  getDataValue highBitReport <> VNum (bigEndianUnsigned (data highBitReport)).
Proof. by vm_compute. Qed.

(** C9 as stated fails: with a run time of -5 s the safety timer is set for
    -5000 ms, which the host runs after 1 ms. *)
Lemma negative_run_time_window :
  runTimeSetting negativeRunTimeDevice = -5 /\
  pending (startSafetyTimer true negativeRunTimeDevice) !! 0 =
    Some {| delay := -5000; due := 1; callback := SafetyCheck true |}.
Proof. by vm_compute. Qed.

(** ** More on data parsing *)

Lemma toInt32_congr x y : x mod 2 ^ 32 = y mod 2 ^ 32 -> toInt32 x = toInt32 y.
Proof.
  intros H. unfold toInt32.
  rewrite <- (Zplus_mod_idemp_l x), <- (Zplus_mod_idemp_l y), H. reflexivity.
Qed.

Lemma bigEndianUnsigned_app pre tail :
  bigEndianUnsigned (pre ++ tail) =
  bigEndianUnsigned pre * 256 ^ Z.of_nat (length tail) + bigEndianUnsigned tail.
Proof.
  induction tail as [|c tail IH] using rev_ind.
  - rewrite app_nil_r. simpl. change (bigEndianUnsigned []) with 0. lia.
  - rewrite app_assoc, !bigEndianUnsigned_snoc, IH, length_app, Nat2Z.inj_add,
      Z.pow_add_r by lia.
    change (256 ^ Z.of_nat (length [c])) with 256. lia.
Qed.

(** X1.  [convertMultiByte] reads no more than the last four bytes of a
    payload: whatever comes before them is shifted out, and the result is
    always a signed 32-bit number. *)
Theorem convertMultiByte_last_four (chunks : list byte) :
  convertMultiByte chunks = convertMultiByte (drop (length chunks - 4) chunks) /\
  - 2 ^ 31 <= convertMultiByte chunks < 2 ^ 31.
Proof.
  split; [|rewrite convertMultiByte_wraps; apply toInt32_range].
  destruct (le_lt_dec (length chunks) 4) as [Hle|Hgt].
  - replace (length chunks - 4)%nat with 0%nat by lia. reflexivity.
  - rewrite <- (take_drop (length chunks - 4) chunks) at 1.
    rewrite !convertMultiByte_wraps, bigEndianUnsigned_app.
    apply toInt32_congr.
    rewrite length_drop.
    replace (length chunks - (length chunks - 4))%nat with 4%nat by lia.
    change (256 ^ Z.of_nat 4) with (2 ^ 32).
    rewrite Z.add_comm, Z.mod_add by lia. reflexivity.
Qed.

(** X2.  Which contact reports read as open: the value [isOpen] that
    [handleDataPoint] takes from a report, by datatype.  A boolean is open
    iff its first byte is 1; a number iff it is not a multiple of 2^32 (the
    wrap-around of [<<]); an enum iff its first byte is not 0; an empty
    boolean or enum payload is closed; raw data and any other datatype are
    open whatever the bytes. *)
Theorem contact_open_by_datatype (v : DpValue) :
  truthy (getDataValue v) =
  if datatype v =? 1 then from_option (fun b => byteZ b =? 1) false (head (data v))
  else if datatype v =? 2 then negb (bigEndianUnsigned (data v) mod 2 ^ 32 =? 0)
  else if datatype v =? 4 then from_option (fun b => negb (byteZ b =? 0)) false (head (data v))
  else true.
Proof.
  unfold getDataValue.
  destruct (Z.eqb_spec (datatype v) 1) as [->|H1]; [by destruct (data v)|].
  destruct (Z.eqb_spec (datatype v) 2) as [->|H2].
  { simpl. rewrite convertMultiByte_wraps. f_equal. unfold toInt32.
    pose proof (Z.mod_pos_bound (bigEndianUnsigned (data v) + 2 ^ 31) (2 ^ 32)).
    pose proof (Z.mod_pos_bound (bigEndianUnsigned (data v)) (2 ^ 32)).
    destruct (Z.eqb_spec (bigEndianUnsigned (data v) mod 2 ^ 32) 0) as [E|E];
      destruct (Z.eqb_spec ((bigEndianUnsigned (data v) + 2 ^ 31) mod 2 ^ 32 - 2 ^ 31) 0)
        as [E'|E']; try done; exfalso.
    - apply E'. rewrite <- Zplus_mod_idemp_l, E. reflexivity.
    - apply E. rewrite <- (Z.add_simpl_r (bigEndianUnsigned (data v)) (2 ^ 31)).
      rewrite <- Zminus_mod_idemp_l.
      replace ((bigEndianUnsigned (data v) + 2 ^ 31) mod 2 ^ 32) with (2 ^ 31) by lia.
      reflexivity. }
  destruct (Z.eqb_spec (datatype v) 4) as [->|H4]; [by destruct (data v)|].
  destruct (datatype v) as [|[p|p|]|]; try done.
  destruct p as [[]|[[]|[]|]|]; try done.
Qed.

Lemma prefix_app p s : String.prefix p s = true <-> exists post, s = p ++ post.
Proof.
  revert s. induction p as [|c p IH]; intros s.
  - split; [intros _; by exists s|by destruct s].
  - destruct s as [|c' s]; simpl; [split; [done|by intros [post [=]]]|].
    destruct (Ascii.ascii_dec c c') as [->|Hne].
    + rewrite IH. split; intros [post H]; exists post.
      * by rewrite H.
      * by injection H.
    + split; [done|]. intros [post H]. by injection H.
Qed.

Lemma includes_app s pat :
  includes s pat = true <-> exists pre post, s = pre ++ pat ++ post.
Proof.
  induction s as [|c s IH]; cbn [includes].
  - rewrite orb_false_r, prefix_app. split.
    + intros [post H]. by exists EmptyString, post.
    + intros (pre & post & H). destruct pre as [|c pre]; [by exists post|done].
  - rewrite orb_true_iff, prefix_app, IH. split.
    + intros [[post H]|(pre & post & H)].
      * by exists EmptyString, post.
      * exists (String c pre), post. by rewrite H.
    + intros (pre & post & H). destruct pre as [|c' pre].
      * left. by exists post.
      * right. exists pre, post. by injection H.
Qed.

(** X3.  The error of a rejected write counts as a timeout exactly when it
    has a message in which [Timeout] occurs, with this capital; an error
    without a message does not. *)
Theorem isTimeout_substring (err : JsError) :
  isTimeout err = true <-> exists pre post, message err = Some (pre ++ "Timeout" ++ post).
Proof.
  unfold isTimeout. destruct (message err) as [m|].
  - rewrite andb_true_iff, includes_app. split.
    + intros [_ (pre & post & ->)]. by exists pre, post.
    + intros (pre & post & [= ->]). split; [|by exists pre, post].
      by destruct pre.
  - split; [done|]. by intros (pre & post & H).
Qed.

(** ** What the timer fields refer to *)

Lemma FieldsTyped_same st st' :
  pending st' = pending st -> nextTimer st' = nextTimer st ->
  delayedTriggerTimer st' = delayedTriggerTimer st ->
  safetyTimer st' = safetyTimer st -> openAlarmTimer st' = openAlarmTimer st ->
  FieldsTyped st -> FieldsTyped st'.
Proof.
  intros Hp Hn Hd Hs Ho [? ? ? ? ? ?]. split; rewrite ?Hp, ?Hn, ?Hd, ?Hs, ?Ho; done.
Qed.

(** The cases of [FieldsTyped] after a handler. *)
Ltac typed_solve :=
  simpl in *;
  try match goal with
    | E : ?f = Some _, Hf : ?f = Some _ |- _ => rewrite E in Hf
    end;
  repeat match goal with
    | H : Some _ = Some _ |- _ => injection H as H; subst
    end;
  try match goal with
    | Hb : forall h, ?f = Some h -> h < _, Hf : ?f = Some ?h |- _ =>
        pose proof (Hb _ Hf)
    end;
  first [lia | congruence | by eauto].

Ltac typed_cases :=
  split; simpl; [intros ? Hf; typed_solve ..| | |];
  intros ? ? Hf Hl; lookups; simpl in *; try done; try typed_solve.

Lemma FieldsTyped_clearTimeout h st : FieldsTyped st -> FieldsTyped (clearTimeout h st).
Proof. intros [B1 B2 B3 K1 K2 K3]. destruct h as [h|]; [|done]. typed_cases. Qed.

(** A timer just set is not the one any field refers to. *)
Lemma FieldsTyped_setTimeout cb ms st :
  FieldsTyped st -> FieldsTyped (snd (setTimeout cb ms st)).
Proof. intros [B1 B2 B3 K1 K2 K3]. typed_cases. Qed.

Lemma FieldsTyped_setCapabilityValue c v st :
  FieldsTyped st -> FieldsTyped (setCapabilityValue c v st).
Proof.
  apply FieldsTyped_same; unfold setCapabilityValue; by destruct (hasCapability c st).
Qed.

Lemma FieldsTyped_setIfHas c v st : FieldsTyped st -> FieldsTyped (setIfHas c v st).
Proof.
  unfold setIfHas. destruct (hasCapability c st); [|done].
  apply FieldsTyped_setCapabilityValue.
Qed.

Lemma FieldsTyped_triggerFlow card st : FieldsTyped st -> FieldsTyped (triggerFlow card st).
Proof. apply FieldsTyped_same; unfold triggerFlow; by case_bool_decide. Qed.

Lemma FieldsTyped_startSafetyTimer e st :
  FieldsTyped st -> FieldsTyped (startSafetyTimer e st).
Proof.
  intros [B1 B2 B3 K1 K2 K3]. unfold startSafetyTimer.
  destruct (safetyTimer st) as [h0|] eqn:E; simpl; typed_cases.
Qed.

Lemma FieldsTyped_startOpenAlarmTimer st :
  FieldsTyped st -> FieldsTyped (startOpenAlarmTimer st).
Proof.
  intros [B1 B2 B3 K1 K2 K3]. unfold startOpenAlarmTimer.
  destruct (openAlarmTimer st) as [h0|] eqn:E; simpl;
    destruct (_ <=? 0); simpl; typed_cases.
Qed.

Lemma FieldsTyped_sendPulse st : FieldsTyped st -> FieldsTyped (sendPulse st).
Proof.
  intros H. apply (FieldsTyped_same (setIfHas garage_Door_State_Capability
                                       (VStr "moving") st)); try done.
  by apply FieldsTyped_setIfHas.
Qed.

Lemma FieldsTyped_triggerDoorPulse st :
  FieldsTyped st -> FieldsTyped (triggerDoorPulse st).
Proof.
  intros H. unfold triggerDoorPulse.
  set (st1 := clearTimeout (delayedTriggerTimer st) st).
  set (st2 := clearTimeout (safetyTimer st1) st1).
  assert (FieldsTyped st2) as H2 by by do 2 apply FieldsTyped_clearTimeout.
  destruct (countdownSeconds st2 <=? 0); [by apply FieldsTyped_sendPulse|].
  set (st3 := setIfHas _ _ st2).
  assert (FieldsTyped st3) as [B1 B2 B3 K1 K2 K3] by by apply FieldsTyped_setIfHas.
  change (FieldsTyped (with_delayedTriggerTimer (Some (nextTimer st3))
            (snd (setTimeout SendPulse (countdownSeconds st2 * 1000) st3)))).
  typed_cases.
Qed.

Lemma FieldsTyped_handleDataPoint data st :
  FieldsTyped st -> FieldsTyped (handleDataPoint data st).
Proof.
  intros H. unfold handleDataPoint.
  destruct (dp data =? dp_garageDoorContact).
  - destruct (truthy _); [apply FieldsTyped_startOpenAlarmTimer|apply FieldsTyped_clearTimeout].
    all: do 2 apply FieldsTyped_setIfHas; apply FieldsTyped_setCapabilityValue.
    all: by do 2 apply FieldsTyped_clearTimeout.
  - destruct (dp data =? dp_status); [|done].
    destruct (hasCapability _ _); [|done]. destruct (toString _); [|done].
    by apply FieldsTyped_setCapabilityValue.
Qed.

Lemma FieldsTyped_writeChangedSettings newSettings changedKeys rest st :
  FieldsTyped st -> FieldsTyped (writeChangedSettings newSettings changedKeys rest st).
Proof.
  induction rest as [|key rest IH]; intros H; simpl.
  - unfold afterSettingWrites. destruct (existsb _ _); [|done].
    destruct (strictEqBool _ _); [|done]. by apply FieldsTyped_startOpenAlarmTimer.
  - destruct (settingsMap key); [by apply (FieldsTyped_same st)|by apply IH].
Qed.

Lemma FieldsTyped_runCallback cb st : FieldsTyped st -> FieldsTyped (runCallback cb st).
Proof.
  intros H. destruct cb; simpl.
  - by apply FieldsTyped_sendPulse.
  - by apply (FieldsTyped_same st).
  - by apply FieldsTyped_setCapabilityValue.
  - unfold safetyCheck. destruct (negb _); [|done].
    by apply FieldsTyped_triggerFlow, FieldsTyped_setIfHas, FieldsTyped_setCapabilityValue.
  - unfold openAlarmCheck. destruct (strictEqBool _ _); [|done].
    by apply FieldsTyped_triggerFlow.
Qed.

Lemma FieldsTyped_runContinuation k o st :
  FieldsTyped st -> FieldsTyped (runContinuation k o st).
Proof.
  intros H. destruct k; simpl.
  - unfold afterPulseWrite. destruct o as [|err]; [by apply FieldsTyped_startSafetyTimer|].
    destruct (isTimeout err); [by apply FieldsTyped_startSafetyTimer|].
    by apply FieldsTyped_setTimeout.
  - unfold afterRetryWrite. destruct o as [|err]; [by apply FieldsTyped_startSafetyTimer|].
    by apply FieldsTyped_setTimeout, FieldsTyped_setIfHas.
  - by apply FieldsTyped_writeChangedSettings.
Qed.

Lemma FieldsTyped_step ev st : FieldsTyped st -> FieldsTyped (step ev st).
Proof.
  intros H. destruct ev as [t| |data|h|c o|newSettings changedKeys|s|]; simpl.
  - by apply (FieldsTyped_same st).
  - by apply FieldsTyped_triggerDoorPulse.
  - by apply FieldsTyped_handleDataPoint.
  - unfold fire. destruct (pending st !! h) as [tm|]; [|done].
    apply FieldsTyped_runCallback. by apply (FieldsTyped_clearTimeout (Some h)).
  - unfold settle. destruct (inFlight st !! c) as [k|]; [|done].
    apply FieldsTyped_runContinuation. by apply (FieldsTyped_same st).
  - by apply FieldsTyped_writeChangedSettings.
  - by apply (FieldsTyped_same st).
  - unfold onDeleted. by do 3 apply FieldsTyped_clearTimeout.
Qed.

Lemma FieldsTyped_run evs : forall st, FieldsTyped st -> FieldsTyped (run evs st).
Proof.
  induction evs as [|ev evs IH]; intros st H; simpl; [done|].
  by apply IH, FieldsTyped_step.
Qed.

Lemma FieldsTyped_init caps s cards : FieldsTyped (init caps s cards).
Proof. split; simpl; try done; intros h tm _ Hl; by rewrite lookup_empty in Hl. Qed.

(** X4.  On every run each timer field holds a handle that was handed
    out, and if that timer is still pending it is a timer of the field's
    own kind: [clearTimeout] on a field never cancels a timer of another
    kind. *)
Theorem fields_keep_their_kind (caps : gmap string JsVal) (s : gmap string SettingVal)
    (cards : gset string) (evs : list Event) :
  FieldsTyped (run evs (init caps s cards)).
Proof. apply FieldsTyped_run, FieldsTyped_init. Qed.

(** A timer that no field tracks is not the one a field refers to. *)
Lemma untracked_not_field st h tm :
  FieldsTyped st -> pending st !! h = Some tm -> isUntracked (callback tm) = true ->
  delayedTriggerTimer st <> Some h /\ safetyTimer st <> Some h /\
  openAlarmTimer st <> Some h.
Proof.
  intros [B1 B2 B3 K1 K2 K3] Hl Hu. repeat split; intros Hf.
  - pose proof (K1 _ _ Hf Hl). by destruct (callback tm).
  - pose proof (K2 _ _ Hf Hl). by destruct (callback tm).
  - pose proof (K3 _ _ Hf Hl). by destruct (callback tm).
Qed.

Lemma lookup_cancelTimer_ne (f : option Z) h (p : gmap Z Timer) :
  f <> Some h -> cancelTimer f p !! h = p !! h.
Proof.
  intros Hne. destruct f as [h0|]; [|done]. simpl.
  apply lookup_delete_ne. congruence.
Qed.

Lemma step_keeps_untracked ev st h tm :
  TimersOwned st -> FieldsTyped st ->
  pending st !! h = Some tm -> isUntracked (callback tm) = true ->
  ev <> TimerFires h ->
  pending (step ev st) !! h = Some tm.
Proof.
  intros Hown Htyped Hl Hu Hev.
  destruct (untracked_not_field st h tm Htyped Hl Hu) as (Hd & Hs & Ho).
  pose proof (handles_fresh st Hown _ _ Hl) as Hfresh.
  assert (forall st1, pending st1 = pending st -> nextTimer st1 = nextTimer st ->
            openAlarmTimer st1 = openAlarmTimer st ->
            pending (startOpenAlarmTimer st1) !! h = Some tm) as Hopen.
  { intros st1 Hp Hn Hoa. unfold startOpenAlarmTimer. cbv zeta.
    destruct (_ <=? 0); exec; rewrite ?Hp, ?Hn, ?Hoa.
    - by rewrite lookup_cancelTimer_ne.
    - rewrite lookup_insert_ne by lia. by rewrite lookup_cancelTimer_ne. }
  assert (forall e st1, pending st1 = pending st -> nextTimer st1 = nextTimer st ->
            safetyTimer st1 = safetyTimer st ->
            pending (startSafetyTimer e st1) !! h = Some tm) as Hsafe.
  { intros e st1 Hp Hn Hsf. exec. rewrite Hp, Hn, Hsf.
    rewrite lookup_insert_ne by lia. by rewrite lookup_cancelTimer_ne. }
  assert (forall newSettings changedKeys rest st1,
            pending st1 = pending st -> nextTimer st1 = nextTimer st ->
            openAlarmTimer st1 = openAlarmTimer st ->
            pending (writeChangedSettings newSettings changedKeys rest st1) !! h = Some tm)
    as Hloop.
  { intros newSettings changedKeys rest. induction rest as [|key rest IH];
      intros st1 Hp Hn Hoa; simpl.
    - unfold afterSettingWrites. destruct (existsb _ _); [|by rewrite Hp].
      cbv zeta. destruct (strictEqBool _ _); [|by rewrite Hp]. by apply Hopen.
    - destruct (settingsMap key); [simpl; by rewrite Hp|by apply IH]. }
  destruct ev as [t| |data|h'|c o|newSettings changedKeys|s|]; simpl.
  - done.
  - rewrite triggerDoorPulse_unfold. cbv zeta. destruct (_ <=? 0); exec.
    + by rewrite !lookup_cancelTimer_ne.
    + rewrite lookup_insert_ne by lia. by rewrite !lookup_cancelTimer_ne.
  - unfold handleDataPoint. cbv zeta. destruct (dp data =? dp_garageDoorContact).
    + destruct (truthy _).
      * set (st5 := setIfHas _ _ _).
        assert (pending st5 !! h = Some tm) as H5
          by (subst st5; exec; by rewrite !lookup_cancelTimer_ne).
        assert (nextTimer st5 = nextTimer st /\ openAlarmTimer st5 = openAlarmTimer st)
          as [Hn5 Ho5] by (subst st5; by exec).
        unfold startOpenAlarmTimer. cbv zeta.
        destruct (_ <=? 0); exec; rewrite ?Hn5, ?Ho5.
        -- by rewrite lookup_cancelTimer_ne.
        -- rewrite lookup_insert_ne by lia. by rewrite lookup_cancelTimer_ne.
      * exec. by rewrite !lookup_cancelTimer_ne.
    + destruct (dp data =? dp_status); [|done]. destruct (hasCapability _ _); [|done].
      destruct (toString _); [|done]. by exec.
  - assert (h' <> h) as Hne by congruence.
    unfold fire. destruct (pending st !! h') as [tm'|]; [|done].
    assert (delete h' (pending st) !! h = Some tm) as Hl'
      by by rewrite lookup_delete_ne.
    destruct (callback tm'); simpl.
    + by exec.
    + by exec.
    + by exec.
    + unfold safetyCheck, triggerFlow. cbv zeta. destruct (negb _); [|done].
      case_bool_decide; by exec.
    + unfold openAlarmCheck, triggerFlow. cbv zeta. destruct (strictEqBool _ _); [|done].
      by case_bool_decide.
  - unfold settle. destruct (inFlight st !! c) as [k|]; [|done].
    destruct k as [e|e|newSettings changedKeys rest]; simpl.
    + unfold afterPulseWrite. destruct o as [|err]; [by apply Hsafe|].
      destruct (isTimeout err); [by apply Hsafe|]. simpl.
      by rewrite lookup_insert_ne by lia.
    + unfold afterRetryWrite. destruct o as [|err]; [by apply Hsafe|]. exec.
      by rewrite lookup_insert_ne by lia.
    + by apply Hloop.
  - by apply Hloop.
  - done.
  - exec. by rewrite !lookup_cancelTimer_ne.
Qed.

(** X5.  Nothing cancels the pause before the retry or the status
    recovery: on any run on which such a timer does not fire it stays
    pending, whatever requests, reports, settings changes and removal come
    in between. *)
Theorem untracked_timer_survives (evs : list Event) (st : Device) (h : Z) (tm : Timer) :
  TimersOwned st -> FieldsTyped st ->
  pending st !! h = Some tm -> isUntracked (callback tm) = true ->
  Forall (fun ev => ev <> TimerFires h) evs ->
  pending (run evs st) !! h = Some tm.
Proof.
  revert st. induction evs as [|ev evs IH]; intros st Hown Htyped Hl Hu Hevs; [done|].
  inversion Hevs as [|? ? Hev Hrest]; subst. simpl. apply IH; try done.
  - by apply TimersOwned_step.
  - by apply FieldsTyped_step.
  - by apply step_keeps_untracked.
Qed.

Lemma FieldsTyped_setCountdownTimer cd st :
  FieldsTyped st -> FieldsTyped (setCountdownTimer cd st).
Proof. intros [B1 B2 B3 K1 K2 K3]. unfold setCountdownTimer. typed_cases. Qed.

Lemma FieldsTyped_awaitCapability c v k s :
  FieldsTyped (device s) -> FieldsTyped (device (awaitCapability c v k s)).
Proof. apply FieldsTyped_setCapabilityValue. Qed.

Lemma FieldsTyped_interleaved_sendPulse s :
  FieldsTyped (device s) -> FieldsTyped (device (Interleaved.sendPulse s)).
Proof.
  intros H. unfold Interleaved.sendPulse. destruct (hasCapability _ _).
  - by apply FieldsTyped_awaitCapability.
  - by apply (FieldsTyped_same (device s)).
Qed.

Lemma FieldsTyped_afterStatusStored isOpen s :
  FieldsTyped (device s) -> FieldsTyped (device (Interleaved.afterStatusStored isOpen s)).
Proof.
  intros H. destruct isOpen; simpl.
  - by apply FieldsTyped_startOpenAlarmTimer.
  - by apply FieldsTyped_clearTimeout.
Qed.

Lemma FieldsTyped_afterButtonSynced isOpen s :
  FieldsTyped (device s) -> FieldsTyped (device (Interleaved.afterButtonSynced isOpen s)).
Proof.
  intros H. unfold Interleaved.afterButtonSynced. destruct (hasCapability _ _).
  - by apply FieldsTyped_awaitCapability.
  - by apply FieldsTyped_afterStatusStored.
Qed.

Lemma FieldsTyped_resume k s :
  FieldsTyped (device s) -> FieldsTyped (device (Interleaved.resume k s)).
Proof.
  intros H. destruct k; simpl.
  - by apply FieldsTyped_setCountdownTimer.
  - by apply (FieldsTyped_same (device s)).
  - by apply FieldsTyped_setTimeout.
  - unfold Interleaved.afterButtonForced. destruct (hasCapability _ _).
    + by apply FieldsTyped_awaitCapability.
    + by apply FieldsTyped_triggerFlow.
  - by apply FieldsTyped_triggerFlow.
  - unfold Interleaved.afterContactStored. destruct (hasCapability _ _).
    + by apply FieldsTyped_awaitCapability.
    + by apply FieldsTyped_afterButtonSynced.
  - by apply FieldsTyped_afterButtonSynced.
  - by apply FieldsTyped_afterStatusStored.
Qed.

Lemma FieldsTyped_interleaved_step oc s :
  FieldsTyped (device s) -> FieldsTyped (device (Interleaved.step oc s)).
Proof.
  intros H. destruct oc as [[t| |data|h|c o|newSettings changedKeys|stored|]|a]; simpl.
  - by apply (FieldsTyped_same (device s)).
  - unfold Interleaved.triggerDoorPulse. cbv zeta.
    set (s2 := onDevice _ (onDevice _ s)).
    assert (FieldsTyped (device s2)) as H2
      by (subst s2; simpl; by do 2 apply FieldsTyped_clearTimeout).
    destruct (_ <=? 0); [by apply FieldsTyped_interleaved_sendPulse|].
    destruct (hasCapability _ _).
    + by apply FieldsTyped_awaitCapability.
    + by apply FieldsTyped_setCountdownTimer.
  - unfold Interleaved.handleDataPoint. cbv zeta.
    destruct (dp data =? dp_garageDoorContact).
    + apply FieldsTyped_awaitCapability. simpl. by do 2 apply FieldsTyped_clearTimeout.
    + destruct (dp data =? dp_status); [|done]. destruct (hasCapability _ _); [|done].
      destruct (toString _); [|done]. by apply FieldsTyped_setCapabilityValue.
  - unfold Interleaved.fire. destruct (pending (device s) !! h) as [tm|]; [|done].
    set (s1 := onDevice _ s).
    assert (FieldsTyped (device s1)) as H1
      by (subst s1; simpl; by apply (FieldsTyped_clearTimeout (Some h))).
    destruct (callback tm); simpl.
    + by apply FieldsTyped_interleaved_sendPulse.
    + by apply (FieldsTyped_same (device s1)).
    + by apply FieldsTyped_setCapabilityValue.
    + unfold Interleaved.safetyCheck. cbv zeta. destruct (negb _); [|done].
      by apply FieldsTyped_awaitCapability.
    + unfold openAlarmCheck. destruct (strictEqBool _ _); [|done].
      by apply FieldsTyped_triggerFlow.
  - unfold Interleaved.settle. destruct (inFlight (device s) !! c) as [k|]; [|done].
    set (s1 := onDevice _ s).
    assert (FieldsTyped (device s1)) as H1
      by (subst s1; simpl; by apply (FieldsTyped_same (device s))).
    destruct k; simpl.
    + by apply (FieldsTyped_runContinuation (AfterPulseWrite _)).
    + unfold Interleaved.afterRetryWrite. destruct o as [|err].
      * by apply FieldsTyped_startSafetyTimer.
      * destruct (hasCapability _ _).
        -- by apply FieldsTyped_awaitCapability.
        -- by apply FieldsTyped_setTimeout.
    + by apply FieldsTyped_writeChangedSettings.
  - by apply FieldsTyped_writeChangedSettings.
  - by apply (FieldsTyped_same (device s)).
  - unfold onDeleted. by do 3 apply FieldsTyped_clearTimeout.
  - unfold Interleaved.capabilitySettles. destruct (awaited s !! a) as [k|]; [|done].
    by apply FieldsTyped_resume.
Qed.

Lemma FieldsTyped_interleaved_run ocs : forall s,
  FieldsTyped (device s) -> FieldsTyped (device (Interleaved.run ocs s)).
Proof.
  induction ocs as [|oc ocs IH]; intros s H; simpl; [done|].
  by apply IH, FieldsTyped_interleaved_step.
Qed.

(** X6.  [onDeleted] cancels the timers that its three fields refer to and
    no other.  On every run, however the handlers overlap, that leaves no
    safety timer and no open-alarm timer pending; a countdown timer that
    [delayedTriggerTimer] does not refer to is kept, and so is every pause
    before a retry and every status-recovery timer.  The writes in flight,
    the capabilities, the write log and the alerts are as before: a
    [sendPulse] that is under way goes on after the device is deleted. *)
Theorem onDeleted_timers (caps : gmap string JsVal) (s : gmap string SettingVal)
    (cards : gset string) (ocs : list Occurrence) :
  let st := device (Interleaved.run ocs (Interleaved.boot (init caps s cards))) in
  let st' := onDeleted st in
  pending st' =
    cancelTimer (openAlarmTimer st)
      (cancelTimer (delayedTriggerTimer st) (cancelTimer (safetyTimer st) (pending st))) /\
  nonePending isSafety st' /\ nonePending isOpenAlarm st' /\
  (forall h tm, pending st !! h = Some tm -> isCountdown (callback tm) = true ->
                delayedTriggerTimer st <> Some h -> pending st' !! h = Some tm) /\
  (forall h tm, pending st !! h = Some tm -> isUntracked (callback tm) = true ->
                pending st' !! h = Some tm) /\
  inFlight st' = inFlight st /\ writes st' = writes st /\
  capabilities st' = capabilities st /\ alerts st' = alerts st.
Proof.
  intros st st'.
  assert (TimersTracked st) as [Hf Hs Ho] by apply TimersTracked_reachable.
  assert (FieldsTyped st) as Htyped
    by apply FieldsTyped_interleaved_run, FieldsTyped_init.
  assert (pending st' =
            cancelTimer (openAlarmTimer st)
              (cancelTimer (delayedTriggerTimer st)
                 (cancelTimer (safetyTimer st) (pending st)))) as Hp
    by (subst st'; by exec).
  assert (forall h tm, pending st' !! h = Some tm ->
            pending st !! h = Some tm /\ delayedTriggerTimer st <> Some h /\
            safetyTimer st <> Some h /\ openAlarmTimer st <> Some h) as Hleft.
  { intros h tm. rewrite Hp. intros Hl.
    destruct (openAlarmTimer st) as [h1|]; destruct (delayedTriggerTimer st) as [h2|];
      destruct (safetyTimer st) as [h3|]; simpl in Hl; lookups;
      repeat split; congruence. }
  split; [done|]. split; [|split; [|split; [|split]]].
  - intros h tm Hl. destruct (Hleft _ _ Hl) as (Hl0 & _ & Hsf & _).
    destruct (isSafety (callback tm)) eqn:Hk; [|done]. by destruct Hsf; apply (Hs h tm).
  - intros h tm Hl. destruct (Hleft _ _ Hl) as (Hl0 & _ & _ & Hoa).
    destruct (isOpenAlarm (callback tm)) eqn:Hk; [|done]. by destruct Hoa; apply (Ho h tm).
  - intros h tm Hl Hk Hd. rewrite Hp, !lookup_cancelTimer_ne; try done.
    + intros Heq. pose proof (safety_is_safety st Htyped _ _ Heq Hl).
      by destruct (callback tm).
    + intros Heq. pose proof (openAlarm_is_openAlarm st Htyped _ _ Heq Hl).
      by destruct (callback tm).
  - intros h tm Hl Hu.
    destruct (untracked_not_field st h tm Htyped Hl Hu) as (Hd & Hsf & Hoa).
    by rewrite Hp, !lookup_cancelTimer_ne.
  - subst st'. by exec.
Qed.

(** X7.  On a contact report the door button follows the contact: a
    device that has the button capability ends with the button equal to the
    stored contact value, a device that has not gets none, and the report
    issues no write, settles none and raises no alert. *)
Theorem contact_report_button (st : Device) (data : DpValue) :
  dp data = dp_garageDoorContact ->
  hasCapability alarm_contact st = true ->
  let st' := handleDataPoint data st in
  (hasCapability garage_Door_Button st = true ->
     capabilities st' !! garage_Door_Button = capabilities st' !! alarm_contact) /\
  (hasCapability garage_Door_Button st = false ->
     capabilities st' !! garage_Door_Button = None) /\
  writes st' = writes st /\ inFlight st' = inFlight st /\ alerts st' = alerts st.
Proof.
  intros Hdp Hc%hasCapability_is_Some st'. subst st'.
  unfold handleDataPoint. rewrite Hdp, Z.eqb_refl. cbv zeta.
  assert (alarm_contact <> garage_Door_Button) by done.
  assert (alarm_contact <> garage_Door_State_Capability) by done.
  assert (garage_Door_Button <> garage_Door_State_Capability) by done.
  split; [|split].
  - intros Hb%hasCapability_is_Some.
    destruct (truthy _); exec; try destruct (_ <=? 0); exec; by caps.
  - intros Hb. apply not_true_iff_false in Hb. rewrite hasCapability_is_Some in Hb.
    assert (capabilities st !! garage_Door_Button = None) as Hnone
      by (destruct (capabilities st !! garage_Door_Button); [by destruct Hb|done]).
    destruct (truthy _); exec; try destruct (_ <=? 0); exec; rewrite ?lookup_storeCapability_ne by done.
    all: unfold storeCapability at 1; rewrite bool_decide_eq_false_2;
      rewrite ?lookup_storeCapability_ne by done; try done.
    all: by rewrite Hnone; intros [? ?].
  - destruct (truthy _); exec; try destruct (_ <=? 0); by exec.
Qed.

(** ** The closures of the safety and open-alarm timers *)

Lemma lookup_storeCapability_None c c' v (caps : gmap string JsVal) :
  caps !! c = None -> storeCapability c' v caps !! c = None.
Proof.
  intros Hnone. destruct (decide (c' = c)) as [->|Hne].
  - unfold storeCapability. rewrite bool_decide_eq_false_2; [done|].
    rewrite Hnone. by intros [? ?].
  - by rewrite lookup_storeCapability_ne.
Qed.

Lemma hasCapability_false c st :
  hasCapability c st = false <-> capabilities st !! c = None.
Proof.
  rewrite <- not_true_iff_false, hasCapability_is_Some.
  destruct (capabilities st !! c); split; try done.
  intros H. destruct H. eauto.
Qed.

(** X8.  The three effects of the safety alarm do not depend on one
    another: when the closure finds the contact different from the expected
    state, the button is set iff the device has the button capability, the
    status becomes Alarm iff it has the status capability, and the alert is
    raised iff the card is registered.  A missing capability or card drops
    its own effect only. *)
Theorem safety_alarm_effects (st : Device) (h : Z) (tm : Timer) (expected : bool) :
  pending st !! h = Some tm ->
  callback tm = SafetyCheck expected ->
  getCapabilityValue alarm_contact st <> VBool expected ->
  let contact := getCapabilityValue alarm_contact st in
  let st' := fire h st in
  (hasCapability garage_Door_Button st = true ->
     capabilities st' !! garage_Door_Button = Some contact) /\
  (hasCapability garage_Door_Button st = false ->
     capabilities st' !! garage_Door_Button = None) /\
  (hasCapability garage_Door_State_Capability st = true ->
     capabilities st' !! garage_Door_State_Capability = Some status_alarm) /\
  (hasCapability garage_Door_State_Capability st = false ->
     capabilities st' !! garage_Door_State_Capability = None) /\
  ("runtime_alarm_triggered" ∈ flowCards st ->
     alerts st' = (alerts st ++ ["runtime_alarm_triggered"])%list) /\
  ("runtime_alarm_triggered" ∉ flowCards st -> alerts st' = alerts st).
Proof.
  intros Hl Hcb Hdiff%strictEqBool_false contact st'. subst st'.
  unfold fire. rewrite Hl, Hcb. cbn [runCallback]. unfold safetyCheck. cbv zeta.
  change (getCapabilityValue alarm_contact
            (with_timers (nextTimer st) (delete h (pending st)) st)) with contact.
  fold contact in Hdiff. rewrite Hdiff. cbn [negb].
  assert (garage_Door_Button <> garage_Door_State_Capability) by done.
  unfold triggerFlow. exec.
  split; [|split; [|split; [|split; [|split]]]].
  - intros Hb%hasCapability_is_Some. case_bool_decide; exec; by caps.
  - intros Hb%hasCapability_false. case_bool_decide; exec.
    all: rewrite lookup_storeCapability_ne by done.
    all: by apply lookup_storeCapability_None.
  - intros Hs%hasCapability_is_Some. case_bool_decide; exec; by caps.
  - intros Hs%hasCapability_false. case_bool_decide; exec.
    all: apply lookup_storeCapability_None.
    all: by rewrite lookup_storeCapability_ne.
  - intros Hcard. rewrite bool_decide_eq_true_2 by done. by exec.
  - intros Hcard. rewrite bool_decide_eq_false_2 by done. by exec.
Qed.

(** X9.  When the open-alarm timer fires, the alert is raised iff the
    contact is still [true] and the card is registered; capabilities, writes
    and calls in flight are untouched, and no open-alarm timer is pending
    afterwards: the timer is not set again. *)
Theorem open_alarm_fires (st : Device) (h : Z) (tm : Timer) (seconds : Z) :
  TimersOwned st ->
  pending st !! h = Some tm ->
  callback tm = OpenAlarmCheck seconds ->
  let st' := fire h st in
  (getCapabilityValue alarm_contact st = VBool true ->
   "opentime_alarm_triggered" ∈ flowCards st ->
     alerts st' = (alerts st ++ ["opentime_alarm_triggered"])%list) /\
  (getCapabilityValue alarm_contact st <> VBool true \/
   "opentime_alarm_triggered" ∉ flowCards st ->
     alerts st' = alerts st) /\
  capabilities st' = capabilities st /\ writes st' = writes st /\
  inFlight st' = inFlight st /\
  pending st' = delete h (pending st) /\
  nonePending isOpenAlarm st'.
Proof.
  intros Hown Hl Hcb st'. subst st'.
  unfold fire. rewrite Hl, Hcb. cbn [runCallback]. unfold openAlarmCheck, triggerFlow.
  cbv zeta.
  change (getCapabilityValue alarm_contact
            (with_timers (nextTimer st) (delete h (pending st)) st))
    with (getCapabilityValue alarm_contact st).
  split; [|split].
  - intros Hopen%strictEqBool_true Hcard. rewrite Hopen.
    rewrite bool_decide_eq_true_2 by done. by exec.
  - intros [Hclosed%strictEqBool_false|Hcard].
    + by rewrite Hclosed.
    + destruct (strictEqBool _ _); [|done]. by rewrite bool_decide_eq_false_2.
  - assert (nonePending isOpenAlarm (with_timers (nextTimer st) (delete h (pending st)) st))
      as Hnone.
    { intros h' tm' Hl'. simpl in Hl'. lookups.
      destruct (isOpenAlarm (callback tm')) eqn:Hk; [|done].
      destruct (TimersOwned_atMostOne st Hown) as (_ & _ & Hone).
      destruct (Hone h tm h' tm'); try done. by rewrite Hcb. }
    destruct (strictEqBool _ _); [|done]. by case_bool_decide.
Qed.

(** An acknowledged write and one rejected with a timeout are followed by
    the safety timer. *)
Lemma afterPulseWrite_proceeds e o st :
  (forall err, o = Rejected err -> isTimeout err = true) ->
  afterPulseWrite e o st = startSafetyTimer e st.
Proof.
  intros Ho. unfold afterPulseWrite. destruct o as [|err]; [done|]. by rewrite (Ho err).
Qed.

(** X10.  A pulse that no contact report follows always ends in the
    runtime alarm: [sendPulse], its write acknowledged or rejected with a
    timeout, and the safety timer firing, with no report in between, leave
    one write, one alert and the status Alarm, whatever the contact value
    was, since the expected state is the negation of the value read when the
    pulse was sent.  The older revision ends the same way whatever the
    outcome of the write. *)
Theorem unconfirmed_cycle_alarms (st : Device) (o : WriteOutcome) (t : Z) :
  hasCapability garage_Door_State_Capability st = true ->
  "runtime_alarm_triggered" ∈ flowCards st ->
  (forall err, o = Rejected err -> isTimeout err = true) ->
  let cycle := [WriteSettles (nextCall st) o; Tick t; TimerFires (nextTimer st)] in
  let st' := run cycle (sendPulse st) in
  writes st' = (writes st ++ [pulse])%list /\
  alerts st' = (alerts st ++ ["runtime_alarm_triggered"])%list /\
  capabilities st' !! garage_Door_State_Capability = Some status_alarm /\
  (hasCapability garage_Door_Button st = true ->
     capabilities st' !! garage_Door_Button =
       Some (getCapabilityValue alarm_contact st)) /\
  (forall o',
     Legacy.run [WriteSettles (nextCall st) o'; Tick t; TimerFires (nextTimer st)]
       (sendPulse st) = st').
Proof.
  intros Hs%hasCapability_is_Some Hcard Ho cycle st'.
  subst st' cycle. unfold run, Legacy.run. cbn [fold_left step Legacy.step].
  rewrite sendPulse_effect. cbv zeta.
  unfold settle, Legacy.settle.
  cbn [inFlight with_calls with_capabilities]. rewrite lookup_insert_eq.
  cbn [runContinuation Legacy.runContinuation]. unfold Legacy.afterPulseWrite.
  rewrite afterPulseWrite_proceeds by done. clear Ho. exec.
  unfold fire, Legacy.fire. exec. rewrite lookup_insert_eq.
  cbn [callback runCallback Legacy.runCallback]. exec.
  assert (alarm_contact <> garage_Door_State_Capability) by done.
  assert (garage_Door_Button <> garage_Door_State_Capability) by done.
  rewrite lookup_storeCapability_ne by done.
  pose proof (expected_differs_from_contact (default VNull (capabilities st !! alarm_contact)))
    as Hdiff.
  apply strictEqBool_false in Hdiff. rewrite Hdiff. cbn [negb].
  unfold triggerFlow. exec. rewrite bool_decide_eq_true_2 by done. exec.
  split; [done|]. split; [done|]. split; [by caps|]. split.
  { intros Hb%hasCapability_is_Some. by caps. }
  done.
Qed.

(** ** The loop of [onSettings] *)

Lemma with_calls_with_calls n f w n' f' w' st :
  with_calls n f w (with_calls n' f' w' st) = with_calls n f w st.
Proof. done. Qed.

Lemma with_calls_id st : with_calls (nextCall st) (inFlight st) (writes st) st = st.
Proof. by destruct st. Qed.

Lemma startOpenAlarmTimer_with_calls n f w st :
  startOpenAlarmTimer (with_calls n f w st) = with_calls n f w (startOpenAlarmTimer st).
Proof.
  unfold startOpenAlarmTimer. cbv zeta.
  destruct (openAlarmTimer st) as [h|] eqn:E; simpl; rewrite E; simpl;
    unfold openAlarmTimeSetting; simpl; by destruct (_ <=? 0).
Qed.

Lemma afterSettingWrites_with_calls changedKeys n f w st :
  afterSettingWrites changedKeys (with_calls n f w st) =
  with_calls n f w (afterSettingWrites changedKeys st).
Proof.
  unfold afterSettingWrites. destruct (existsb _ _); [|done]. cbv zeta.
  change (getCapabilityValue alarm_contact (with_calls n f w st))
    with (getCapabilityValue alarm_contact st).
  destruct (strictEqBool _ _); [|done]. apply startOpenAlarmTimer_with_calls.
Qed.

Lemma writes_afterSettingWrites changedKeys st :
  writes (afterSettingWrites changedKeys st) = writes st.
Proof.
  unfold afterSettingWrites. destruct (existsb _ _); [|done]. cbv zeta.
  destruct (strictEqBool _ _); [|done].
  unfold startOpenAlarmTimer. cbv zeta. destruct (_ <=? 0); by exec.
Qed.

(** The loop of [onSettings], each write settling before anything else
    happens: after [length os] outcomes the first [length os + 1] writes
    are issued, and once the last one has settled the device is what
    [afterSettingWrites] makes of the one before the call. *)
Lemma writeChangedSettings_settled newSettings changedKeys rest : forall st os,
  (length os <= length (settingWrites newSettings rest))%nat ->
  let st' := run (settlesFrom (nextCall st) os)
               (writeChangedSettings newSettings changedKeys rest st) in
  writes st' = (writes st ++ take (S (length os)) (settingWrites newSettings rest))%list /\
  with_calls (nextCall st) (inFlight st) (writes st) st' =
    if decide (length os = length (settingWrites newSettings rest))
    then afterSettingWrites changedKeys st else st.
Proof.
  induction rest as [|key rest IH]; intros st os Hlen.
  - destruct os; [|simpl in Hlen; lia]. simpl.
    rewrite writes_afterSettingWrites, app_nil_r. split; [done|].
    by rewrite <- afterSettingWrites_with_calls, with_calls_id.
  - unfold settingWrites in *. cbn [omap list_omap writeChangedSettings] in *.
    destruct (settingsMap key) as [dpId|]; cbn [fmap option_fmap option_map] in *;
      [|by apply IH].
    destruct os as [|o os].
    + cbn [settlesFrom run fold_left]. split; [done|].
      unfold writeData32. rewrite with_calls_with_calls, with_calls_id.
      by rewrite decide_False.
    + cbn [settlesFrom run fold_left step length] in *.
      unfold settle. cbn [inFlight writeData32 with_calls]. rewrite lookup_insert_eq.
      cbn [runContinuation nextCall writes with_calls].
      set (st1 := with_calls _ _ _ _).
      destruct (IH st1 os) as [Hw Hs]; [lia|].
      change (nextCall st1) with (nextCall st + 1) in Hw, Hs.
      fold (run (settlesFrom (nextCall st + 1) os)
              (writeChangedSettings newSettings changedKeys rest st1)).
      split.
      * rewrite Hw. subst st1. simpl. by rewrite <- app_assoc.
      * apply (f_equal (with_calls (nextCall st) (inFlight st) (writes st))) in Hs.
        rewrite with_calls_with_calls in Hs. rewrite Hs.
        destruct (decide (length os = _)) as [E|E].
        -- rewrite decide_True by (simpl; lia).
           rewrite <- afterSettingWrites_with_calls. subst st1. unfold writeData32.
           by rewrite !with_calls_with_calls, with_calls_id.
        -- rewrite decide_False by (simpl; lia).
           subst st1. unfold writeData32.
           by rewrite !with_calls_with_calls, with_calls_id.
Qed.

Lemma settingWrites_not_to_door newSettings changedKeys :
  Forall (fun w => writesToDoor w = false) (settingWrites newSettings changedKeys).
Proof.
  unfold settingWrites. induction changedKeys as [|key rest IH]; [constructor|].
  cbn [omap list_omap]. unfold settingsMap at 1.
  repeat (destruct (String.eqb key _); [by constructor|]).
  destruct (isInherited key); [by constructor|done].
Qed.

Lemma afterSettingWrites_frame changedKeys st :
  capabilities (afterSettingWrites changedKeys st) = capabilities st /\
  alerts (afterSettingWrites changedKeys st) = alerts st /\
  settings (afterSettingWrites changedKeys st) = settings st.
Proof.
  unfold afterSettingWrites. destruct (existsb _ _); [|done]. cbv zeta.
  destruct (strictEqBool _ _); [|done].
  unfold startOpenAlarmTimer. cbv zeta. destruct (_ <=? 0); by exec.
Qed.

(** X11.  [onSettings] writes the changed settings one at a time, in the
    order of [changedKeys]: the keys [settingsMap] does not know are
    skipped, the next write is issued only when the one before has settled,
    and a rejected write does not stop the loop.  No write goes to the door
    trigger, and capabilities, alerts and stored settings are as before. *)
Theorem onSettings_writes (st : Device) (newSettings : gmap string SettingVal)
    (changedKeys : list string) (os : list WriteOutcome) :
  (length os <= length (settingWrites newSettings changedKeys))%nat ->
  let st' := run (settlesFrom (nextCall st) os) (onSettings newSettings changedKeys st) in
  writes st' =
    (writes st ++ take (S (length os)) (settingWrites newSettings changedKeys))%list /\
  Forall (fun w => writesToDoor w = false) (settingWrites newSettings changedKeys) /\
  capabilities st' = capabilities st /\ alerts st' = alerts st /\
  settings st' = settings st.
Proof.
  intros Hlen st'.
  destruct (writeChangedSettings_settled newSettings changedKeys changedKeys st os Hlen)
    as [Hw Hs].
  fold (onSettings newSettings changedKeys st) in Hw, Hs. fold st' in Hw, Hs.
  split; [done|]. split; [apply settingWrites_not_to_door|].
  destruct (afterSettingWrites_frame changedKeys st) as (Hc & Ha & Hset).
  assert (capabilities st' = capabilities (with_calls (nextCall st) (inFlight st) (writes st) st')
          /\ alerts st' = alerts (with_calls (nextCall st) (inFlight st) (writes st) st')
          /\ settings st' = settings (with_calls (nextCall st) (inFlight st) (writes st) st'))
    as (-> & -> & ->) by done.
  rewrite Hs. by destruct (decide _).
Qed.


(** X12.  After the loop of [onSettings]: when [open_alarm_time] is among
    the changed keys and the contact is [true], the open-alarm timer is set
    again, for the number of seconds of the stored settings
    ([this.getSettings()]), not of [newSettings]; with that number at 0 or
    below the timer is only cleared.  Otherwise no timer is touched. *)
Theorem onSettings_open_alarm (st : Device) (newSettings : gmap string SettingVal)
    (changedKeys : list string) (os : list WriteOutcome) :
  TimersOwned st ->
  length os = length (settingWrites newSettings changedKeys) ->
  let st' := run (settlesFrom (nextCall st) os) (onSettings newSettings changedKeys st) in
  let seconds := openAlarmTimeSetting st in
  let contact := getCapabilityValue alarm_contact st in
  (In "open_alarm_time" changedKeys -> contact = VBool true -> 0 < seconds ->
     openAlarmTimer st' = Some (nextTimer st) /\
     pending st' !! nextTimer st =
       Some {| delay := seconds * 1000;
               due := now st + effectiveDelay (seconds * 1000);
               callback := OpenAlarmCheck seconds |} /\
     atMostOne isOpenAlarm st') /\
  (In "open_alarm_time" changedKeys -> contact = VBool true -> seconds <= 0 ->
     nonePending isOpenAlarm st') /\
  (~ In "open_alarm_time" changedKeys \/ contact <> VBool true ->
     pending st' = pending st /\ openAlarmTimer st' = openAlarmTimer st /\
     nextTimer st' = nextTimer st).
Proof.
  intros Hown Hlen st' seconds contact.
  destruct (writeChangedSettings_settled newSettings changedKeys changedKeys st os)
    as [_ Hs]; [lia|].
  fold (onSettings newSettings changedKeys st) in Hs. fold st' in Hs.
  rewrite decide_True in Hs by done.
  assert (pending st' = pending (afterSettingWrites changedKeys st) /\
          openAlarmTimer st' = openAlarmTimer (afterSettingWrites changedKeys st) /\
          nextTimer st' = nextTimer (afterSettingWrites changedKeys st)) as (Hp & Ho & Hn)
    by by rewrite <- Hs.
  assert (In "open_alarm_time" changedKeys <->
          existsb (String.eqb "open_alarm_time") changedKeys = true) as Hin.
  { rewrite existsb_exists. split.
    - intros H. exists "open_alarm_time". split; [done|]. apply String.eqb_refl.
    - intros (key & H & ->%String.eqb_eq). done. }
  assert (TimersOwned st') as Hown'.
  { subst st'. by apply TimersOwned_run, TimersOwned_onSettings. }
  split; [|split].
  - intros Hkey%Hin Hopen%strictEqBool_true Hpos.
    rewrite Hp, Ho. unfold afterSettingWrites. rewrite Hkey. cbv zeta.
    fold contact. rewrite Hopen.
    destruct (startOpenAlarmTimer_on st Hpos) as [H1 H2].
    split; [done|]. split; [done|]. by destruct (TimersOwned_atMostOne st' Hown') as (_ & _ & ?).
  - intros Hkey%Hin Hopen%strictEqBool_true Hoff.
    apply (nonePending_same _ (afterSettingWrites changedKeys st)); [done|].
    unfold afterSettingWrites. rewrite Hkey. cbv zeta. fold contact. rewrite Hopen.
    rewrite startOpenAlarmTimer_off by done. by apply nonePending_clear_openAlarm.
  - intros Hno. rewrite Hp, Ho, Hn. unfold afterSettingWrites.
    destruct (existsb _ _) eqn:Hkey; [|done]. cbv zeta. fold contact.
    destruct Hno as [Hno|Hclosed%strictEqBool_false]; [|by rewrite Hclosed].
    destruct Hno. by apply Hin.
Qed.

Lemma legacy_writeChangedSettings_settled newSettings changedKeys rest : forall st os,
  (length os <= length (settingWrites newSettings rest))%nat ->
  let st' := Legacy.run (settlesFrom (nextCall st) os)
               (Legacy.writeChangedSettings newSettings changedKeys rest st) in
  writes st' = (writes st ++ take (S (length os)) (settingWrites newSettings rest))%list /\
  with_calls (nextCall st) (inFlight st) (writes st) st' = st.
Proof.
  induction rest as [|key rest IH]; intros st os Hlen.
  - destruct os; [|simpl in Hlen; lia]. simpl. rewrite app_nil_r. split; [done|].
    apply with_calls_id.
  - unfold settingWrites in *. cbn [omap list_omap Legacy.writeChangedSettings] in *.
    destruct (settingsMap key) as [dpId|]; cbn [fmap option_fmap option_map] in *;
      [|by apply IH].
    destruct os as [|o os].
    + cbn [settlesFrom Legacy.run fold_left]. split; [done|].
      unfold writeData32. by rewrite with_calls_with_calls, with_calls_id.
    + cbn [settlesFrom Legacy.run fold_left Legacy.step length] in *.
      unfold Legacy.settle. cbn [inFlight writeData32 with_calls]. rewrite lookup_insert_eq.
      cbn [Legacy.runContinuation nextCall writes with_calls].
      set (st1 := with_calls _ _ _ _).
      destruct (IH st1 os) as [Hw Hs]; [lia|].
      change (nextCall st1) with (nextCall st + 1) in Hw, Hs.
      fold (Legacy.run (settlesFrom (nextCall st + 1) os)
              (Legacy.writeChangedSettings newSettings changedKeys rest st1)).
      split.
      * rewrite Hw. subst st1. simpl. by rewrite <- app_assoc.
      * apply (f_equal (with_calls (nextCall st) (inFlight st) (writes st))) in Hs.
        rewrite with_calls_with_calls in Hs. rewrite Hs.
        subst st1. unfold writeData32.
        by rewrite !with_calls_with_calls, with_calls_id.
Qed.

(** X13.  The older revision's [onSettings] issues the same writes and
    changes nothing else: no timer, no capability, no alert. *)
Theorem legacy_onSettings_writes (st : Device) (newSettings : gmap string SettingVal)
    (changedKeys : list string) (os : list WriteOutcome) :
  (length os <= length (settingWrites newSettings changedKeys))%nat ->
  let st' := Legacy.run (settlesFrom (nextCall st) os)
               (Legacy.onSettings newSettings changedKeys st) in
  writes st' =
    (writes st ++ take (S (length os)) (settingWrites newSettings changedKeys))%list /\
  capabilities st' = capabilities st /\ alerts st' = alerts st /\
  pending st' = pending st /\ nextTimer st' = nextTimer st /\
  openAlarmTimer st' = openAlarmTimer st /\ safetyTimer st' = safetyTimer st /\
  delayedTriggerTimer st' = delayedTriggerTimer st.
Proof.
  intros Hlen st'.
  destruct (legacy_writeChangedSettings_settled newSettings changedKeys changedKeys st os Hlen)
    as [Hw Hs].
  fold (Legacy.onSettings newSettings changedKeys st) in Hw, Hs. fold st' in Hw, Hs.
  split; [done|]. repeat split.
  - exact (f_equal capabilities Hs).
  - exact (f_equal alerts Hs).
  - exact (f_equal pending Hs).
  - exact (f_equal nextTimer Hs).
  - exact (f_equal openAlarmTimer Hs).
  - exact (f_equal safetyTimer Hs).
  - exact (f_equal delayedTriggerTimer Hs).
Qed.

(** ** While no cycle is under way *)

Lemma extendedBy_refl {A : Type} (P : A -> Prop) l : extendedBy P l l.
Proof. exists []. by rewrite app_nil_r. Qed.

Lemma extendedBy_same {A : Type} (P : A -> Prop) l l' : l' = l -> extendedBy P l l'.
Proof. intros ->. apply extendedBy_refl. Qed.

Lemma extendedBy_trans {A : Type} (P : A -> Prop) l1 l2 l3 :
  extendedBy P l1 l2 -> extendedBy P l2 l3 -> extendedBy P l1 l3.
Proof.
  intros (n1 & -> & H1) (n2 & -> & H2). exists (n1 ++ n2)%list.
  split; [by rewrite app_assoc|]. by apply Forall_app.
Qed.

Lemma extendedBy_one {A : Type} (P : A -> Prop) l x : P x -> extendedBy P l (l ++ [x])%list.
Proof. intros H. exists [x]. split; [done|]. by constructor. Qed.

Lemma writes_alerts_startOpenAlarmTimer st :
  writes (startOpenAlarmTimer st) = writes st /\
  alerts (startOpenAlarmTimer st) = alerts st.
Proof. unfold startOpenAlarmTimer. cbv zeta. destruct (_ <=? 0); by exec. Qed.

Lemma writes_alerts_handleDataPoint data st :
  writes (handleDataPoint data st) = writes st /\
  alerts (handleDataPoint data st) = alerts st.
Proof.
  unfold handleDataPoint. cbv zeta. destruct (dp data =? dp_garageDoorContact).
  - destruct (truthy _).
    + destruct (writes_alerts_startOpenAlarmTimer
                  (setIfHas garage_Door_State_Capability (VStr "open")
                     (setIfHas garage_Door_Button (VBool true)
                        (setCapabilityValue alarm_contact (VBool true)
                           (clearTimeout
                              (delayedTriggerTimer (clearTimeout (safetyTimer st) st))
                              (clearTimeout (safetyTimer st) st)))))) as [-> ->].
      by exec.
    + by exec.
  - destruct (dp data =? dp_status); [|done]. destruct (hasCapability _ _); [|done].
    destruct (toString _); [|done]. by exec.
Qed.

Lemma settingsMap_not_door key dp v :
  settingsMap key = Some dp -> writesToDoor (WriteData32 dp v) = false.
Proof.
  unfold settingsMap. repeat (destruct (String.eqb key _); [by intros [= <-]|]).
  destruct (isInherited key); [by intros [= <-]|done].
Qed.

(** One stretch of the loop of [onSettings] issues at most one write, never
    to the door trigger, and raises no alert. *)
Lemma writes_alerts_writeChangedSettings newSettings changedKeys rest st :
  extendedBy (fun w => writesToDoor w = false) (writes st)
    (writes (writeChangedSettings newSettings changedKeys rest st)) /\
  alerts (writeChangedSettings newSettings changedKeys rest st) = alerts st.
Proof.
  induction rest as [|key rest IH]; simpl.
  - rewrite writes_afterSettingWrites.
    destruct (afterSettingWrites_frame changedKeys st) as (_ & -> & _).
    split; [apply extendedBy_refl|done].
  - destruct (settingsMap key) as [dpId|] eqn:E; [|done].
    split; [|done]. apply extendedBy_one. by apply (settingsMap_not_door key).
Qed.

(** While nothing of a door cycle is under way, an event that is not a
    trigger request starts none, writes nothing to the door trigger and
    raises no alert but the open-time alarm. *)
Lemma Quiet_step ev st :
  noRequest ev -> Quiet st ->
  Quiet (step ev st) /\
  extendedBy (fun w => writesToDoor w = false) (writes st) (writes (step ev st)) /\
  extendedBy (fun a => a = "opentime_alarm_triggered") (alerts st) (alerts (step ev st)).
Proof.
  intros Hev (Hc & Hs & Hp & Hr).
  destruct ev as [t| |data|h|c o|newSettings changedKeys|s|]; simpl.
  - repeat split; try done; apply extendedBy_refl.
  - done.
  - destruct (writes_alerts_handleDataPoint data st) as [Hw Ha].
    split; [|split; by apply extendedBy_same].
    repeat split; try by apply nonePending_handleDataPoint.
    apply (noPulseInFlight_same st); [apply inFlight_handleDataPoint|done].
  - unfold fire. destruct (pending st !! h) as [tm|] eqn:Hl;
      [|repeat split; try done; apply extendedBy_refl].
    set (st1 := with_timers (nextTimer st) (delete h (pending st)) st).
    assert (forall kind, nonePending kind st -> nonePending kind st1) as Hsame
      by (intros kind; apply (nonePending_clearTimeout _ (Some h))).
    destruct (callback tm) eqn:Hcb; simpl.
    + specialize (Hc _ _ Hl). by rewrite Hcb in Hc.
    + specialize (Hr _ _ Hl). by rewrite Hcb in Hr.
    + split; [|split; apply extendedBy_same; unfold recoverStatus; by exec].
      repeat split; try (apply nonePending_setCapabilityValue; by apply Hsame).
      apply (noPulseInFlight_same st); [|done]. unfold recoverStatus. by exec.
    + specialize (Hs _ _ Hl). by rewrite Hcb in Hs.
    + split; [repeat split; try (apply nonePending_openAlarmCheck; by apply Hsame)|].
      * apply (noPulseInFlight_same st); [|done]. unfold openAlarmCheck. cbv zeta.
        destruct (strictEqBool _ _); [|done]. by rewrite inFlight_triggerFlow.
      * unfold openAlarmCheck, triggerFlow. cbv zeta.
        destruct (strictEqBool _ _); [|split; apply extendedBy_refl].
        case_bool_decide; [|split; apply extendedBy_refl].
        split; [apply extendedBy_refl|by apply extendedBy_one].
  - unfold settle. destruct (inFlight st !! c) as [k|] eqn:Hl;
      [|repeat split; try done; apply extendedBy_refl].
    set (st1 := with_calls _ _ _ st).
    destruct k as [e|e|newSettings changedKeys rest]; simpl.
    + by specialize (Hp _ _ Hl).
    + by specialize (Hp _ _ Hl).
    + destruct (writes_alerts_writeChangedSettings newSettings changedKeys rest st1)
        as [Hw Ha].
      split; [|split; [done|by apply extendedBy_same]].
      repeat split;
        try (apply nonePending_writeChangedSettings; [done|];
             by apply (nonePending_same _ st)).
      apply noPulseInFlight_writeChangedSettings.
      intros c' k' Hl'. simpl in Hl'. apply lookup_delete_Some in Hl' as [_ Hl'].
      by apply (Hp c').
  - destruct (writes_alerts_writeChangedSettings newSettings changedKeys changedKeys st)
      as [Hw Ha].
    split; [|split; [done|by apply extendedBy_same]].
    repeat split; try by apply nonePending_writeChangedSettings.
    by apply noPulseInFlight_writeChangedSettings.
  - repeat split; try done; apply extendedBy_refl.
  - split; [|split; apply extendedBy_same; unfold onDeleted; by exec].
    repeat split; try by apply nonePending_onDeleted.
    apply (noPulseInFlight_same st); [|done]. unfold onDeleted. by exec.
Qed.

Lemma Quiet_run evs : forall st,
  Forall noRequest evs -> Quiet st ->
  Quiet (run evs st) /\
  extendedBy (fun w => writesToDoor w = false) (writes st) (writes (run evs st)) /\
  extendedBy (fun a => a = "opentime_alarm_triggered") (alerts st) (alerts (run evs st)).
Proof.
  induction evs as [|ev evs IH]; intros st Hevs Hq; simpl.
  - repeat split; try apply Hq; apply extendedBy_refl.
  - inversion Hevs as [|? ? Hev Hrest]; subst.
    destruct (Quiet_step ev st Hev Hq) as (Hq1 & Hw1 & Ha1).
    destruct (IH (step ev st) Hrest Hq1) as (Hq2 & Hw2 & Ha2).
    split; [done|]. split; by eapply extendedBy_trans.
Qed.

(** X14.  The door is never pulsed without a request: on a run without
    trigger requests nothing is written to the door trigger, no countdown or
    safety timer is set, and no alert but the open-time alarm is raised. *)
Theorem no_pulse_without_request (caps : gmap string JsVal)
    (s : gmap string SettingVal) (cards : gset string) (evs : list Event) :
  Forall noRequest evs ->
  let st := run evs (init caps s cards) in
  Forall (fun w => writesToDoor w = false) (writes st) /\
  Forall (fun a => a = "opentime_alarm_triggered") (alerts st) /\
  nonePending isCountdown st /\ nonePending isSafety st.
Proof.
  intros Hevs st.
  destruct (Quiet_run evs (init caps s cards) Hevs) as ((Hc & Hs & _) & Hw & Ha).
  { repeat split; try apply nonePending_init. intros c k Hl. simpl in Hl.
    by rewrite lookup_empty in Hl. }
  destruct Hw as (ws & Hw & Hws). destruct Ha as (als & Ha & Hals).
  subst st. rewrite Hw, Ha. simpl. done.
Qed.

(** ** What does not belong to a door cycle *)

Lemma CalmDevice_refl st : CalmDevice st st.
Proof. split; try done; apply extendedBy_refl. Qed.

Lemma CalmDevice_trans st1 st2 st3 :
  CalmDevice st1 st2 -> CalmDevice st2 st3 -> CalmDevice st1 st3.
Proof.
  intros [O1 P1 F1 W1 A1] [O2 P2 F2 W2 A2]. split.
  - eauto.
  - intros h tm Hl Hk. eauto.
  - intros c k Hl Hk. eauto.
  - by eapply extendedBy_trans.
  - by eapply extendedBy_trans.
Qed.

(** A handler that touches no timer of a cycle, no write and no alert. *)
Lemma CalmDevice_frame st st' :
  (TimersOwned st -> TimersOwned st') ->
  (forall h tm, pending st' !! h = Some tm -> ofCycle (callback tm) = true ->
                pending st !! h = Some tm) ->
  inFlight st' = inFlight st -> writes st' = writes st -> alerts st' = alerts st ->
  CalmDevice st st'.
Proof.
  intros Ho Hp Hf Hw Ha. split; try done.
  - by rewrite Hf.
  - by apply extendedBy_same.
  - by apply extendedBy_same.
Qed.

Lemma CalmDevice_clearTimeout f st : CalmDevice st (clearTimeout f st).
Proof.
  apply CalmDevice_frame; try by destruct f.
  - apply TimersOwned_clearTimeout.
  - intros h tm Hl _. by apply (pending_clearTimeout_subset f).
Qed.

Lemma CalmDevice_setCapabilityValue c v st : CalmDevice st (setCapabilityValue c v st).
Proof.
  apply CalmDevice_frame; try (unfold setCapabilityValue; by destruct (hasCapability c st)).
  apply TimersOwned_setCapabilityValue.
Qed.

Lemma CalmDevice_setRecoveryTimer st : CalmDevice st (setRecoveryTimer st).
Proof.
  apply CalmDevice_frame; try done.
  - by apply TimersOwned_setTimeout.
  - intros h tm Hl Hk. simpl in Hl. by lookups.
Qed.

Lemma CalmDevice_startOpenAlarmTimer st : CalmDevice st (startOpenAlarmTimer st).
Proof.
  apply CalmDevice_frame.
  - apply TimersOwned_startOpenAlarmTimer.
  - intros h tm Hl Hk. revert Hl. unfold startOpenAlarmTimer. cbv zeta.
    destruct (_ <=? 0); [apply pending_clearTimeout_subset|].
    cbn [setTimeout pending with_openAlarmTimer with_timers]. intros Hl.
    apply lookup_insert_Some in Hl as [[_ <-]|[_ Hl]]; [done|].
    by apply pending_clearTimeout_subset in Hl.
  - apply inFlight_startOpenAlarmTimer.
  - apply writes_alerts_startOpenAlarmTimer.
  - apply writes_alerts_startOpenAlarmTimer.
Qed.

Lemma CalmDevice_openAlarmCheck st : CalmDevice st (openAlarmCheck st).
Proof.
  unfold openAlarmCheck, triggerFlow. cbv zeta.
  destruct (strictEqBool _ _); [|apply CalmDevice_refl].
  case_bool_decide; [|apply CalmDevice_refl].
  split; try done; [by apply TimersOwned_same|apply extendedBy_refl|by apply extendedBy_one].
Qed.

Lemma CalmDevice_writeChangedSettings newSettings changedKeys rest st :
  CalmDevice st (writeChangedSettings newSettings changedKeys rest st).
Proof.
  induction rest as [|key rest IH]; simpl.
  - unfold afterSettingWrites. destruct (existsb _ _); [|apply CalmDevice_refl].
    destruct (strictEqBool _ _); [|apply CalmDevice_refl].
    apply CalmDevice_startOpenAlarmTimer.
  - destruct (settingsMap key) as [dp|] eqn:E; [|done].
    split; try done.
    + apply TimersOwned_writeData32.
    + intros c k Hl Hk. simpl in Hl.
      apply lookup_insert_Some in Hl as [[_ <-]|[_ Hl]]; done.
    + apply extendedBy_one. by apply (settingsMap_not_door key).
    + apply extendedBy_refl.
Qed.

Lemma Calm_refl s : Calm s s.
Proof. split; [apply CalmDevice_refl|done]. Qed.

Lemma Calm_trans s1 s2 s3 : Calm s1 s2 -> Calm s2 s3 -> Calm s1 s3.
Proof.
  intros [D1 A1] [D2 A2]. split; [by eapply CalmDevice_trans|]. eauto.
Qed.

Lemma Calm_onDevice f s : CalmDevice (device s) (f (device s)) -> Calm s (onDevice f s).
Proof. by split. Qed.

Lemma Calm_awaitCapability c v k s :
  ofCycleAwait k = false -> Calm s (awaitCapability c v k s).
Proof.
  intros Hk. split; [apply CalmDevice_setCapabilityValue|].
  intros a k' Hl Hk'. simpl in Hl.
  apply lookup_insert_Some in Hl as [[_ <-]|[_ Hl]]; [congruence|done].
Qed.

Lemma Calm_afterStatusStored isOpen s : Calm s (Interleaved.afterStatusStored isOpen s).
Proof.
  apply Calm_onDevice. destruct isOpen;
    [apply CalmDevice_startOpenAlarmTimer|apply CalmDevice_clearTimeout].
Qed.

Lemma Calm_afterButtonSynced isOpen s : Calm s (Interleaved.afterButtonSynced isOpen s).
Proof.
  unfold Interleaved.afterButtonSynced. destruct (hasCapability _ _).
  - by apply Calm_awaitCapability.
  - apply Calm_afterStatusStored.
Qed.

Lemma Calm_afterContactStored isOpen s : Calm s (Interleaved.afterContactStored isOpen s).
Proof.
  unfold Interleaved.afterContactStored. destruct (hasCapability _ _).
  - by apply Calm_awaitCapability.
  - apply Calm_afterButtonSynced.
Qed.

(** What does not belong to a door cycle leaves the cycles as they are. *)
Lemma calm_step oc s : calm oc s = true -> Calm s (Interleaved.step oc s).
Proof.
  intros Hcalm. destruct oc as [[t| |data|h|c o|newSettings changedKeys|stored|]|a]; simpl.
  - apply Calm_onDevice, CalmDevice_frame; try done. by apply TimersOwned_same.
  - done.
  - unfold Interleaved.handleDataPoint. cbv zeta.
    destruct (dp data =? dp_garageDoorContact).
    + eapply Calm_trans; [|by apply Calm_awaitCapability].
      eapply Calm_trans; apply Calm_onDevice, CalmDevice_clearTimeout.
    + destruct (dp data =? dp_status); [|apply Calm_refl].
      destruct (hasCapability _ _); [|apply Calm_refl].
      destruct (toString _); [|apply Calm_refl].
      apply Calm_onDevice, CalmDevice_setCapabilityValue.
  - simpl in Hcalm. unfold Interleaved.fire.
    destruct (pending (device s) !! h) as [tm|] eqn:Hl; [|apply Calm_refl].
    eapply Calm_trans; [apply Calm_onDevice, (CalmDevice_clearTimeout (Some h))|].
    destruct (callback tm); try done; simpl.
    + apply Calm_onDevice, CalmDevice_setCapabilityValue.
    + apply Calm_onDevice, CalmDevice_openAlarmCheck.
  - simpl in Hcalm. unfold Interleaved.settle.
    destruct (inFlight (device s) !! c) as [k|] eqn:Hl; [|apply Calm_refl].
    eapply Calm_trans.
    { apply (Calm_onDevice
               (fun st => with_calls (nextCall st) (delete c (inFlight st)) (writes st) st)).
      split.
      - by apply TimersOwned_same.
      - done.
      - intros c' k' Hl' _. simpl in Hl'. by apply lookup_delete_Some in Hl' as [_ Hl'].
      - apply extendedBy_refl.
      - apply extendedBy_refl. }
    destruct k; try done; simpl.
    apply Calm_onDevice, CalmDevice_writeChangedSettings.
  - apply Calm_onDevice, CalmDevice_writeChangedSettings.
  - apply Calm_onDevice, CalmDevice_frame; try done. by apply TimersOwned_same.
  - apply Calm_onDevice. unfold onDeleted.
    eapply CalmDevice_trans; [|apply CalmDevice_clearTimeout].
    eapply CalmDevice_trans; apply CalmDevice_clearTimeout.
  - simpl in Hcalm. unfold Interleaved.capabilitySettles.
    destruct (awaited s !! a) as [k|] eqn:Hl; [|apply Calm_refl].
    apply (Calm_trans _ {| device := device s; nextAwait := nextAwait s;
                           awaited := delete a (awaited s) |}).
    { split; [apply CalmDevice_refl|]. intros a' k' Hl' _. simpl in Hl'.
      by apply lookup_delete_Some in Hl' as [_ Hl']. }
    destruct k; try done; simpl.
    + apply Calm_onDevice, CalmDevice_setRecoveryTimer.
    + apply Calm_afterContactStored.
    + apply Calm_afterButtonSynced.
    + apply Calm_afterStatusStored.
Qed.

Lemma nonePending_calm kind st st' :
  (forall cb, kind cb = true -> ofCycle cb = true) ->
  CalmDevice st st' -> nonePending kind st -> nonePending kind st'.
Proof.
  intros Hkind Hcalm Hnone h tm Hl. destruct (kind (callback tm)) eqn:Hk; [|done].
  rewrite <- (Hnone h tm); [done|]. apply (calm_pending _ _ Hcalm); [done|]. by apply Hkind.
Qed.

Lemma noPulseInFlight_calm st st' :
  CalmDevice st st' -> noPulseInFlight st -> noPulseInFlight st'.
Proof.
  intros Hcalm Hnone c k Hl. destruct (isPulseContinuation k) eqn:Hk; [|done].
  rewrite <- (Hnone c k); [done|]. by apply (calm_inFlight _ _ Hcalm).
Qed.

Lemma Idle_calm st st' : CalmDevice st st' -> Idle st -> Idle st'.
Proof.
  intros Hcalm [Hp Hr]. split; [by apply (noPulseInFlight_calm st)|].
  apply (nonePending_calm _ st); [|done..]. by intros [].
Qed.

Lemma Quiet_calm st st' : CalmDevice st st' -> Quiet st -> Quiet st'.
Proof.
  intros Hcalm (Hc & Hs & Hi). split; [|split; [|by apply (Idle_calm st)]].
  - apply (nonePending_calm _ st); [|done..]. by intros [].
  - apply (nonePending_calm _ st); [|done..]. by intros [].
Qed.

Lemma noneAwaited_calm kind s s' :
  (forall k, kind k = true -> ofCycleAwait k = true) ->
  Calm s s' -> noneAwaited kind s -> noneAwaited kind s'.
Proof.
  intros Hkind [_ Hcalm] Hnone a k Hl. destruct (kind k) eqn:Hk; [|done].
  rewrite <- (Hnone a k); [done|]. apply Hcalm; [done|]. by apply Hkind.
Qed.

(** While nothing of a door cycle is under way or suspended, what happens
    next belongs to no cycle, unless it is a trigger request. *)
Lemma QuietHost_calm oc s :
  oc <> Arrives RequestTrigger -> QuietHost s -> calm oc s = true.
Proof.
  intros Hoc [(Hc & Hs & Hp & Hr) Ha].
  destruct oc as [[t| |data|h|c o|newSettings changedKeys|stored|]|a]; simpl; try done.
  - destruct (pending (device s) !! h) as [tm|] eqn:Hl; [|done].
    unfold ofCycle. by rewrite (Hc _ _ Hl), (Hs _ _ Hl), (Hr _ _ Hl).
  - destruct (inFlight (device s) !! c) as [k|] eqn:Hl; [|done]. by rewrite (Hp _ _ Hl).
  - destruct (awaited s !! a) as [k|] eqn:Hl; [|done]. by rewrite (Ha _ _ Hl).
Qed.

Lemma QuietHost_run ocs : forall s,
  Forall (fun oc => oc <> Arrives RequestTrigger) ocs -> QuietHost s ->
  QuietHost (Interleaved.run ocs s) /\ Calm s (Interleaved.run ocs s).
Proof.
  induction ocs as [|oc ocs IH]; intros s Hocs Hq; simpl.
  - split; [done|apply Calm_refl].
  - inversion Hocs as [|? ? Hoc Hrest]; subst.
    pose proof (calm_step oc s (QuietHost_calm oc s Hoc Hq)) as Hcalm.
    destruct Hq as [Hq Ha].
    destruct (IH (Interleaved.step oc s) Hrest) as [Hq' Hcalm'].
    { split; [apply (Quiet_calm (device s)); [apply Hcalm|done]|].
      by apply (noneAwaited_calm _ s). }
    split; [done|]. by apply (Calm_trans _ (Interleaved.step oc s)).
Qed.

(** X15.  A contact report ends the cycle.  When no handler of a cycle is
    suspended (no trigger request, no [sendPulse] and no safety closure
    awaits a call on a capability, no [sendPulse] awaits its write or
    the end of the pause), and the pending safety and countdown timers are
    those that the fields refer to, then after the report and whatever
    follows it but a trigger request, in any interleaving, nothing is
    written to the door trigger, no runtime alarm is raised, and no
    countdown or safety timer is pending. *)
Theorem contact_report_ends_cycle (s : Host) (data : DpValue) (ocs : list Occurrence) :
  ownedBy isSafety safetyTimer (device s) ->
  ownedBy isCountdown delayedTriggerTimer (device s) ->
  Idle (device s) -> noneAwaited ofCycleAwait s ->
  dp data = dp_garageDoorContact ->
  Forall (fun oc => oc <> Arrives RequestTrigger) ocs ->
  let s' := Interleaved.run (Arrives (SensorReport data) :: ocs) s in
  extendedBy (fun w => writesToDoor w = false) (writes (device s)) (writes (device s')) /\
  extendedBy (fun a => a = "opentime_alarm_triggered")
    (alerts (device s)) (alerts (device s')) /\
  nonePending isCountdown (device s') /\ nonePending isSafety (device s').
Proof.
  intros Hs Hc Hidle Ha Hdp Hocs s'.
  set (s1 := Interleaved.step (Arrives (SensorReport data)) s).
  assert (calm (Arrives (SensorReport data)) s = true) as Hcalm by done.
  apply calm_step in Hcalm. fold s1 in Hcalm.
  assert (QuietHost s1) as Hq.
  { split; [|by apply (noneAwaited_calm _ s)].
    split; [|split; [|apply (Idle_calm (device s)); [apply Hcalm|done]]].
    - subst s1. cbn [Interleaved.step]. unfold Interleaved.handleDataPoint.
      rewrite Hdp, Z.eqb_refl. cbv zeta. cbn [device awaitCapability onDevice].
      apply nonePending_setCapabilityValue.
      set (st1 := clearTimeout (safetyTimer (device s)) (device s)).
      apply (nonePending_cancel_owned _ delayedTriggerTimer st1).
      apply (ownedBy_subset _ _ (device s)); [|by destruct (safetyTimer (device s))|done].
      intros h tm. apply pending_clearTimeout_subset.
    - subst s1. cbn [Interleaved.step]. unfold Interleaved.handleDataPoint.
      rewrite Hdp, Z.eqb_refl. cbv zeta. cbn [device awaitCapability onDevice].
      apply nonePending_setCapabilityValue, nonePending_clearTimeout.
      by apply (nonePending_cancel_owned _ safetyTimer). }
  destruct (QuietHost_run ocs s1 Hocs Hq) as [[(Hc' & Hs' & _) _] Hrest].
  pose proof (Calm_trans _ _ _ Hcalm Hrest) as [Hall _].
  split; [apply Hall|]. split; [apply Hall|]. done.
Qed.

(** ** The capabilities a device has *)

Lemma hasCapability_same c st st' :
  capabilities st' = capabilities st -> hasCapability c st' = hasCapability c st.
Proof. unfold hasCapability. by intros ->. Qed.

Lemma hasCapability_store c c' v st :
  hasCapability c (with_capabilities (storeCapability c' v (capabilities st)) st) =
  hasCapability c st.
Proof.
  unfold hasCapability. simpl. apply bool_decide_ext, is_Some_storeCapability.
Qed.

Lemma hasCapability_setCapabilityValue c c' v st :
  hasCapability c (setCapabilityValue c' v st) = hasCapability c st.
Proof. rewrite setCapabilityValue_store. apply hasCapability_store. Qed.

Lemma hasCapability_setIfHas c c' v st :
  hasCapability c (setIfHas c' v st) = hasCapability c st.
Proof. rewrite setIfHas_store. apply hasCapability_store. Qed.

Lemma capabilities_triggerFlow card st :
  capabilities (triggerFlow card st) = capabilities st.
Proof. unfold triggerFlow. by case_bool_decide. Qed.

Lemma capabilities_startOpenAlarmTimer st :
  capabilities (startOpenAlarmTimer st) = capabilities st.
Proof. unfold startOpenAlarmTimer. cbv zeta. destruct (_ <=? 0); by exec. Qed.

Lemma capabilities_startSafetyTimer e st :
  capabilities (startSafetyTimer e st) = capabilities st.
Proof. by exec. Qed.

Lemma capabilities_writeChangedSettings newSettings changedKeys rest st :
  capabilities (writeChangedSettings newSettings changedKeys rest st) = capabilities st.
Proof.
  induction rest as [|key rest IH]; simpl.
  - by destruct (afterSettingWrites_frame changedKeys st) as (-> & _).
  - by destruct (settingsMap key).
Qed.

Lemma capabilities_legacy_writeChangedSettings newSettings changedKeys rest st :
  capabilities (Legacy.writeChangedSettings newSettings changedKeys rest st) =
  capabilities st.
Proof.
  induction rest as [|key rest IH]; simpl; [done|]. by destruct (settingsMap key).
Qed.

Lemma hasCapability_triggerFlow c card st :
  hasCapability c (triggerFlow card st) = hasCapability c st.
Proof. apply hasCapability_same, capabilities_triggerFlow. Qed.

Lemma hasCapability_startOpenAlarmTimer c st :
  hasCapability c (startOpenAlarmTimer st) = hasCapability c st.
Proof. apply hasCapability_same, capabilities_startOpenAlarmTimer. Qed.

Lemma hasCapability_startSafetyTimer c e st :
  hasCapability c (startSafetyTimer e st) = hasCapability c st.
Proof. apply hasCapability_same, capabilities_startSafetyTimer. Qed.

Lemma hasCapability_writeChangedSettings c newSettings changedKeys rest st :
  hasCapability c (writeChangedSettings newSettings changedKeys rest st) =
  hasCapability c st.
Proof. apply hasCapability_same, capabilities_writeChangedSettings. Qed.

Lemma hasCapability_legacy_writeChangedSettings c newSettings changedKeys rest st :
  hasCapability c (Legacy.writeChangedSettings newSettings changedKeys rest st) =
  hasCapability c st.
Proof. apply hasCapability_same, capabilities_legacy_writeChangedSettings. Qed.

Lemma hasCapability_sendPulse c st : hasCapability c (sendPulse st) = hasCapability c st.
Proof. rewrite sendPulse_effect. apply hasCapability_store. Qed.

Lemma hasCapability_triggerDoorPulse c st :
  hasCapability c (triggerDoorPulse st) = hasCapability c st.
Proof.
  rewrite triggerDoorPulse_unfold. cbv zeta. destruct (_ <=? 0).
  - rewrite hasCapability_sendPulse. apply hasCapability_same. by exec.
  - rewrite setIfHas_store. unfold hasCapability. simpl.
    apply bool_decide_ext. rewrite is_Some_storeCapability. by exec.
Qed.

Lemma hasCapability_safetyCheck c e st :
  hasCapability c (safetyCheck e st) = hasCapability c st.
Proof.
  unfold safetyCheck. cbv zeta. destruct (negb _); [|done].
  rewrite hasCapability_triggerFlow.
  by rewrite hasCapability_setIfHas, hasCapability_setCapabilityValue.
Qed.

Lemma hasCapability_contact_report c (isOpen : bool) st :
  hasCapability c
    (setIfHas garage_Door_State_Capability (VStr (if isOpen then "open" else "closed"))
       (setIfHas garage_Door_Button (VBool isOpen)
          (setCapabilityValue alarm_contact (VBool isOpen)
             (clearTimeout (delayedTriggerTimer (clearTimeout (safetyTimer st) st))
                (clearTimeout (safetyTimer st) st))))) = hasCapability c st.
Proof.
  rewrite !hasCapability_setIfHas, hasCapability_setCapabilityValue.
  apply hasCapability_same. by exec.
Qed.

Lemma hasCapability_status_report c data st :
  hasCapability c
    (if hasCapability garage_Door_State_Capability st
     then match toString (getDataValue data) with
          | Some s => setCapabilityValue garage_Door_State_Capability (VStr s) st
          | None => st
          end
     else st) = hasCapability c st.
Proof.
  destruct (hasCapability garage_Door_State_Capability st); [|done].
  destruct (toString _); [|done]. apply hasCapability_setCapabilityValue.
Qed.

Lemma hasCapability_step c ev st : hasCapability c (step ev st) = hasCapability c st.
Proof.
  destruct ev as [t| |data|h|k o|newSettings changedKeys|s|]; simpl; try done.
  - apply hasCapability_triggerDoorPulse.
  - unfold handleDataPoint. cbv zeta. destruct (dp data =? dp_garageDoorContact).
    + destruct (truthy _).
      * rewrite hasCapability_startOpenAlarmTimer.
        apply (hasCapability_contact_report c true).
      * unfold stopOpenAlarmTimer. rewrite clearTimeout_cancel.
        apply (hasCapability_contact_report c false).
    + destruct (dp data =? dp_status); [|done]. apply hasCapability_status_report.
  - unfold fire. destruct (pending st !! h) as [tm|]; [|done].
    destruct (callback tm); simpl.
    + by rewrite hasCapability_sendPulse.
    + done.
    + unfold recoverStatus. by rewrite hasCapability_setCapabilityValue.
    + by rewrite hasCapability_safetyCheck.
    + unfold openAlarmCheck. cbv zeta. destruct (strictEqBool _ _); [|done].
      by rewrite hasCapability_triggerFlow.
  - unfold settle. destruct (inFlight st !! k) as [cont|]; [|done].
    destruct cont as [e|e|newSettings changedKeys rest]; simpl.
    + unfold afterPulseWrite.
      destruct o as [|err]; [|destruct (isTimeout err)];
        by rewrite ?hasCapability_startSafetyTimer.
    + unfold afterRetryWrite. destruct o as [|err].
      * by rewrite hasCapability_startSafetyTimer.
      * rewrite setIfHas_store. unfold hasCapability. simpl.
        apply bool_decide_ext, is_Some_storeCapability.
    + by rewrite hasCapability_writeChangedSettings.
  - apply hasCapability_writeChangedSettings.
  - apply hasCapability_same. unfold onDeleted. by exec.
Qed.

Lemma hasCapability_legacy_step c ev st :
  hasCapability c (Legacy.step ev st) = hasCapability c st.
Proof.
  destruct ev as [t| |data|h|k o|newSettings changedKeys|s|]; simpl; try done.
  - apply hasCapability_triggerDoorPulse.
  - unfold Legacy.handleDataPoint. cbv zeta. destruct (dp data =? dp_garageDoorContact).
    + apply hasCapability_contact_report.
    + destruct (dp data =? dp_status); [|done]. apply hasCapability_status_report.
  - unfold Legacy.fire. destruct (pending st !! h) as [tm|]; [|done].
    destruct (callback tm); simpl; try done.
    + by rewrite hasCapability_sendPulse.
    + by rewrite hasCapability_safetyCheck.
  - unfold Legacy.settle. destruct (inFlight st !! k) as [cont|]; [|done].
    destruct cont as [e|e|newSettings changedKeys rest]; simpl; try done.
    + unfold Legacy.afterPulseWrite.
      by rewrite hasCapability_startSafetyTimer.
    + by rewrite hasCapability_legacy_writeChangedSettings.
  - apply hasCapability_legacy_writeChangedSettings.
Qed.

(** X16.  No handler adds or removes a capability: after any run, in both
    revisions, the device has the capabilities it had. *)
Theorem capabilities_are_the_manifest (evs : list Event) (st : Device) (c : string) :
  hasCapability c (run evs st) = hasCapability c st /\
  hasCapability c (Legacy.run evs st) = hasCapability c st.
Proof.
  split; revert st; induction evs as [|ev evs IH]; intros st; simpl; try done.
  - unfold run in IH. by rewrite IH, hasCapability_step.
  - unfold Legacy.run in IH. by rewrite IH, hasCapability_legacy_step.
Qed.

(** ** What holds on every run *)

(** X17.  The driver only reads the stored settings: after any run they
    are what the host stored last.  In particular [onSettings] does not
    store [newSettings]. *)
Theorem settings_are_the_hosts (evs : list Event) (st : Device) :
  settings (run evs st) = lastStored evs (settings st).
Proof.
  revert st. induction evs as [|ev evs IH]; intros st; simpl; [done|].
  unfold run in IH. rewrite IH, settings_step. by destruct ev.
Qed.

(** X18.  On every run of the extended revision, however the handlers
    overlap, at most one safety timer and at most one open-alarm timer are
    pending.  Countdown timers are not bounded in this way: after two
    trigger requests of which the second arrives while the first awaits the
    status, two are pending. *)
Theorem one_timer_of_each_kind (caps : gmap string JsVal) (s : gmap string SettingVal)
    (cards : gset string) (ocs : list Occurrence) :
  let st := device (Interleaved.run ocs (Interleaved.boot (init caps s cards))) in
  let overlapped :=
    device (Interleaved.run overlappingRequests (Interleaved.boot countdownDevice)) in
  atMostOne isSafety st /\ atMostOne isOpenAlarm st /\
  Interleaved.feasibleRun overlappingRequests (Interleaved.boot countdownDevice) = true /\
  ~ atMostOne isCountdown overlapped.
Proof.
  intros st overlapped.
  assert (TimersTracked st) as [Hf Hs Ho] by apply TimersTracked_reachable.
  split; [by apply (ownedBy_atMostOne _ safetyTimer)|].
  split; [by apply (ownedBy_atMostOne _ openAlarmTimer)|].
  clear. split; [by vm_compute|].
  assert (pending overlapped !! 0 =
            Some {| delay := 5000; due := 5000; callback := SendPulse |}) as H0
    by by vm_compute.
  assert (pending overlapped !! 1 =
            Some {| delay := 5000; due := 5000; callback := SendPulse |}) as H1
    by (clear H0; by vm_compute).
  intros Hone. specialize (Hone _ _ _ _ H0 eq_refl H1 eq_refl). discriminate Hone.
Qed.

(** ** Cycles that do not overlap *)

Lemma nonePending_subset kind st st' :
  (forall cb, kind cb = true -> ofCycle cb = true) ->
  (forall h tm, pending st' !! h = Some tm -> ofCycle (callback tm) = true ->
                pending st !! h = Some tm) ->
  nonePending kind st -> nonePending kind st'.
Proof.
  intros Hkind Hsub Hnone h tm Hl. destruct (kind (callback tm)) eqn:Hk; [|done].
  rewrite <- (Hnone h tm); [done|]. apply Hsub; [done|]. by apply Hkind.
Qed.

Lemma CyclesApart_preserved s s' :
  TimersOwned (device s') ->
  (forall h tm, pending (device s') !! h = Some tm -> ofCycle (callback tm) = true ->
                pending (device s) !! h = Some tm) ->
  (forall c k, inFlight (device s') !! c = Some k -> isPulseContinuation k = true ->
               inFlight (device s) !! c = Some k) ->
  (forall a k, awaited s' !! a = Some k -> awaitsCountdown k || awaitsMoving k = true ->
               awaited s !! a = Some k) ->
  CyclesApart s -> CyclesApart s'.
Proof.
  intros Hown Hp Hf Ha [_ Hex Hrest Hreq Hone].
  assert (forall kind, (forall cb, kind cb = true -> ofCycle cb = true) ->
            nonePending kind (device s) -> nonePending kind (device s')) as Hnone
    by (intros kind Hkind; by apply nonePending_subset).
  assert (Idle (device s) -> Idle (device s')) as Hidle.
  { intros [Hi Hr]. split; [|apply Hnone; [by intros []|done]].
    intros c k Hl. destruct (isPulseContinuation k) eqn:Hk; [|done].
    rewrite <- (Hi c k); [done|]. by apply Hf. }
  assert (noneAwaited awaitsCountdown s -> noneAwaited awaitsCountdown s') as Hnc.
  { intros Hn a k Hl. destruct (awaitsCountdown k) eqn:Hk; [|done].
    rewrite <- (Hn a k); [done|]. apply Ha; [done|]. by rewrite Hk. }
  assert (noneAwaited awaitsMoving s -> noneAwaited awaitsMoving s') as Hnm.
  { intros Hn a k Hl. destruct (awaitsMoving k) eqn:Hk; [|done].
    rewrite <- (Hn a k); [done|]. apply Ha; [done|]. rewrite Hk. apply orb_true_r. }
  split.
  - done.
  - destruct Hex as [Hc|Hs]; [left|right]; (apply Hnone; [by intros []|done]).
  - destruct Hrest as [(H1 & H2 & H3)|Hc]; [left|right].
    + split; [by apply Hnc|]. split; [by apply Hnm|by apply Hidle].
    + apply Hnone; [by intros []|done].
  - destruct Hreq as [H1|(H1 & H2 & H3)]; [left; by apply Hnc|right].
    split; [apply Hnone; [by intros []|done]|]. split; [by apply Hidle|by apply Hnm].
  - intros a k a' k' H1 K1 H2 K2.
    apply (Hone a k a' k'); try done; apply Ha; try done; by rewrite ?K1, ?K2.
Qed.

Lemma CyclesApart_calm s s' : Calm s s' -> CyclesApart s -> CyclesApart s'.
Proof.
  intros [Hd Ha] Hap. apply (CyclesApart_preserved s); try done.
  - apply (calm_owned _ _ Hd), Hap.
  - apply Hd.
  - apply Hd.
  - intros a k Hl Hk. apply Ha; [done|]. unfold ofCycleAwait. by rewrite Hk.
Qed.

(** While a [sendPulse] is under way no countdown timer is pending and no
    trigger request is suspended, and that is all the cycles need. *)
Lemma CyclesApart_busy s :
  TimersOwned (device s) -> nonePending isCountdown (device s) ->
  noneAwaited awaitsCountdown s -> CyclesApart s.
Proof.
  intros Hown Hc Ha. split; try done; try by (left + right).
  intros a k a' k' H1 K1. by rewrite (Ha _ _ H1) in K1.
Qed.

Lemma CyclesApart_under_way s :
  CyclesApart s -> ~ (noneAwaited awaitsMoving s /\ Idle (device s)) ->
  nonePending isCountdown (device s) /\ noneAwaited awaitsCountdown s.
Proof.
  intros [_ _ Hrest Hreq _] Hbusy. split.
  - destruct Hrest as [(_ & H2 & H3)|Hc]; [by destruct Hbusy|done].
  - destruct Hreq as [H1|(_ & H2 & H3)]; [done|by destruct Hbusy].
Qed.

Lemma TimersOwned_setCountdownTimer cd st :
  TimersOwned st -> nonePending isCountdown st -> TimersOwned (setCountdownTimer cd st).
Proof. apply TimersOwned_countdown. Qed.

Lemma TimersOwned_interleaved_sendPulse s :
  TimersOwned (device s) -> TimersOwned (device (Interleaved.sendPulse s)).
Proof.
  intros H. unfold Interleaved.sendPulse. destruct (hasCapability _ _).
  - by apply TimersOwned_setCapabilityValue.
  - by apply TimersOwned_writeBool.
Qed.

Lemma pending_interleaved_sendPulse s :
  pending (device (Interleaved.sendPulse s)) = pending (device s).
Proof.
  unfold Interleaved.sendPulse. destruct (hasCapability _ _); simpl; [|done].
  unfold setCapabilityValue. by destruct (hasCapability _ _).
Qed.

Lemma noneAwaited_insert (kind : Resumption -> bool) a k (m : gmap Z Resumption) :
  kind k = false -> (forall a' k', m !! a' = Some k' -> kind k' = false) ->
  forall a' k', <[a := k]> m !! a' = Some k' -> kind k' = false.
Proof.
  intros Hk Hm a' k' Hl. apply lookup_insert_Some in Hl as [[_ <-]|[_ Hl]]; eauto.
Qed.

Lemma CyclesApart_sendPulse s :
  TimersOwned (device s) -> nonePending isCountdown (device s) ->
  noneAwaited awaitsCountdown s -> CyclesApart (Interleaved.sendPulse s).
Proof.
  intros Hown Hc Ha. apply CyclesApart_busy.
  - by apply TimersOwned_interleaved_sendPulse.
  - apply (nonePending_same _ (device s)); [apply pending_interleaved_sendPulse|done].
  - unfold Interleaved.sendPulse. destruct (hasCapability _ _); [|done].
    intros a k Hl. simpl in Hl. apply lookup_insert_Some in Hl as [[_ <-]|[_ Hl]]; eauto.
Qed.

(** The cycles stay apart as long as every trigger request comes at
    rest. *)
Lemma CyclesApart_step oc s :
  (oc = Arrives RequestTrigger -> AtRest s) ->
  CyclesApart s -> CyclesApart (Interleaved.step oc s).
Proof.
  intros Hreq Hap.
  destruct (calm oc s) eqn:Hcalm; [apply (CyclesApart_calm s); [by apply calm_step|done]|].
  pose proof (apart_owned s Hap) as Hown.
  destruct oc as [[t| |data|h|c o|newSettings changedKeys|stored|]|a]; try done;
    cbn [Interleaved.step].
  - (* a trigger request, at rest *)
    destruct (Hreq eq_refl) as (Hnc & Hnm & Hidle).
    unfold Interleaved.triggerDoorPulse. cbv zeta.
    set (st1 := clearTimeout (delayedTriggerTimer (device s)) (device s)).
    set (s2 := onDevice _ (onDevice _ s)).
    assert (TimersOwned st1) as Hown1 by by apply TimersOwned_clearTimeout.
    assert (device s2 = clearTimeout (safetyTimer st1) st1) as Hd2 by done.
    assert (TimersOwned (device s2)) as Hown2
      by (rewrite Hd2; by apply TimersOwned_clearTimeout).
    assert (nonePending isCountdown (device s2)) as Hc2.
    { rewrite Hd2. by apply nonePending_clearTimeout, nonePending_clear_countdown. }
    assert (nonePending isSafety (device s2)) as Hs2.
    { rewrite Hd2. by apply nonePending_clear_safety. }
    assert (Idle (device s2)) as Hidle2.
    { destruct Hidle as [Hi Hr]. rewrite Hd2. split.
      - apply (noPulseInFlight_same (device s)); [|done].
        subst st1. by rewrite !clearTimeout_cancel.
      - by do 2 apply nonePending_clearTimeout. }
    destruct (_ <=? 0); [by apply CyclesApart_sendPulse|].
    destruct (hasCapability _ _).
    + split; cbn [device awaited awaitCapability].
      * by apply TimersOwned_setCapabilityValue.
      * left. by apply nonePending_setCapabilityValue.
      * right. by apply nonePending_setCapabilityValue.
      * right. split; [by apply nonePending_setCapabilityValue|].
        split; [|unfold noneAwaited; cbn [awaited awaitCapability]; by apply noneAwaited_insert].
        destruct Hidle2 as [Hi Hr]. split.
        -- apply (noPulseInFlight_same (device s2)); [|done].
           unfold setCapabilityValue. by destruct (hasCapability _ _).
        -- by apply nonePending_setCapabilityValue.
      * intros a k a' k' H1 K1 H2 K2.
        apply lookup_insert_Some in H1 as [[<- _]|[_ H1]];
          [|by rewrite (Hnc _ _ H1) in K1].
        apply lookup_insert_Some in H2 as [[<- _]|[_ H2]]; [done|].
        by rewrite (Hnc _ _ H2) in K2.
    + split; cbn [device awaited onDevice].
      * by apply TimersOwned_setCountdownTimer.
      * right. apply (nonePending_same _ (snd (setTimeout SendPulse
                   (countdownSeconds (device s2) * 1000) (device s2)))); [done|].
        by apply nonePending_setTimeout.
      * left. split; [done|]. split; [done|].
        destruct Hidle2 as [Hi Hr]. split; [done|].
        apply (nonePending_same _ (snd (setTimeout SendPulse
                 (countdownSeconds (device s2) * 1000) (device s2)))); [done|].
        by apply nonePending_setTimeout.
      * by left.
      * intros a k a' k' H1 K1. by rewrite (Hnc _ _ H1) in K1.
  - (* a timer of a cycle fires *)
    simpl in Hcalm. unfold Interleaved.fire.
    destruct (pending (device s) !! h) as [tm|] eqn:Hl; [|done].
    set (s1 := onDevice _ s).
    assert (TimersOwned (device s1)) as Hown1
      by by apply (TimersOwned_clearTimeout (Some h)).
    destruct (callback tm) eqn:Hcb; try done; cbn [Interleaved.runCallback].
    + (* the countdown ends *)
      assert (nonePending isCountdown (device s1)) as Hc1
        by by apply (nonePending_countdown_fired h tm).
      apply CyclesApart_sendPulse; [done|done|].
      destruct (apart_rest s Hap) as [(Hnc & _)|Hc]; [done|].
      specialize (Hc _ _ Hl). by rewrite Hcb in Hc.
    + (* the pause ends *)
      destruct (CyclesApart_under_way s Hap) as [Hc Hnc].
      { intros [_ [_ Hr]]. specialize (Hr _ _ Hl). by rewrite Hcb in Hr. }
      apply CyclesApart_busy; [by apply TimersOwned_resumeAfterPause| |done].
      apply (nonePending_same _ (device s1)); [done|].
      by apply (nonePending_clearTimeout _ (Some h)).
    + (* the safety timer fires *)
      clear Hcalm. apply (CyclesApart_preserved s); try done.
      * unfold Interleaved.safetyCheck. cbv zeta. destruct (negb _); [|done].
        by apply TimersOwned_setCapabilityValue.
      * intros h' tm' Hl' _. revert Hl'.
        unfold Interleaved.safetyCheck. cbv zeta.
        assert (forall v, pending (setCapabilityValue garage_Door_Button v (device s1)) =
                          delete h (pending (device s))) as Hp.
        { intros v. unfold setCapabilityValue. by destruct (hasCapability _ _). }
        destruct (negb _); cbn [device awaitCapability]; rewrite ?Hp; simpl; intros Hl';
          by apply lookup_delete_Some in Hl' as [_ Hl'].
      * intros c k. unfold Interleaved.safetyCheck. cbv zeta.
        destruct (negb _); cbn [device awaitCapability]; [|done].
        unfold setCapabilityValue. by destruct (hasCapability _ _).
      * intros a k. unfold Interleaved.safetyCheck. cbv zeta.
        destruct (negb _); cbn [awaited awaitCapability]; [|done].
        intros Hl' Hk. simpl in Hl'.
        apply lookup_insert_Some in Hl' as [[_ <-]|[_ Hl']]; done.
  - (* the pulse write settles *)
    simpl in Hcalm. unfold Interleaved.settle.
    destruct (inFlight (device s) !! c) as [k|] eqn:Hl; [|done].
    set (s1 := onDevice _ s).
    assert (TimersOwned (device s1)) as Hown1 by by apply (TimersOwned_same (device s)).
    destruct (CyclesApart_under_way s Hap) as [Hc Hnc].
    { intros [_ [Hi _]]. specialize (Hi _ _ Hl). by rewrite Hi in Hcalm. }
    assert (nonePending isCountdown (device s1)) as Hc1 by done.
    destruct k as [e|e|]; try done; cbn [Interleaved.runContinuation].
    + apply CyclesApart_busy; [by apply TimersOwned_afterPulseWrite| |done].
      by apply nonePending_afterPulseWrite.
    + unfold Interleaved.afterRetryWrite. destruct o as [|err].
      * apply CyclesApart_busy; [by apply TimersOwned_startSafetyTimer| |done].
        by apply nonePending_startSafetyTimer.
      * destruct (hasCapability _ _).
        -- apply CyclesApart_busy; cbn [device awaited awaitCapability].
           ++ by apply TimersOwned_setCapabilityValue.
           ++ by apply nonePending_setCapabilityValue.
           ++ unfold noneAwaited; cbn [awaited awaitCapability]; by apply noneAwaited_insert.
        -- apply CyclesApart_busy; [by apply TimersOwned_setTimeout| |done].
           by apply nonePending_setTimeout.
  - (* a suspended handler of a cycle goes on *)
    simpl in Hcalm. unfold Interleaved.capabilitySettles.
    destruct (awaited s !! a) as [k|] eqn:Hl; [|done].
    set (s1 := {| device := device s; nextAwait := nextAwait s;
                  awaited := delete a (awaited s) |}).
    destruct k as [cd| | | | |isOpen|isOpen|isOpen]; try done; cbn [Interleaved.resume].
    + (* the request sets its countdown timer *)
      destruct (apart_request s Hap) as [Hnc|(Hs & Hidle & Hnm)];
        [by specialize (Hnc _ _ Hl)|].
      destruct (apart_rest s Hap) as [(Hnc & _)|Hc]; [by specialize (Hnc _ _ Hl)|].
      assert (noneAwaited awaitsCountdown s1) as Hnc1.
      { intros a' k' Hl'. simpl in Hl'. apply lookup_delete_Some in Hl' as [Hne Hl'].
        destruct (awaitsCountdown k') eqn:Hk'; [|done].
        destruct Hne. by apply (apart_one s Hap a (AfterCountdownStatus cd) a' k'). }
      split; cbn [device awaited onDevice s1].
      * by apply TimersOwned_setCountdownTimer.
      * right. apply (nonePending_same _ (snd (setTimeout SendPulse (cd * 1000) (device s))));
          [done|]. by apply nonePending_setTimeout.
      * left. split; [done|]. split.
        { intros a' k' Hl'. simpl in Hl'. apply lookup_delete_Some in Hl' as [_ Hl']. eauto. }
        destruct Hidle as [Hi Hr]. split; [done|].
        apply (nonePending_same _ (snd (setTimeout SendPulse (cd * 1000) (device s))));
          [done|]. by apply nonePending_setTimeout.
      * by left.
      * intros a1 k1 a2 k2 H1 K1. by rewrite (Hnc1 _ _ H1) in K1.
    + (* [sendPulse] writes the pulse *)
      destruct (CyclesApart_under_way s Hap) as [Hc Hnc].
      { intros [Hnm _]. by specialize (Hnm _ _ Hl). }
      apply CyclesApart_busy; cbn [device awaited onDevice s1].
      * by apply TimersOwned_writeBool.
      * done.
      * intros a' k' Hl'. simpl in Hl'. apply lookup_delete_Some in Hl' as [_ Hl']. eauto.
    + (* the safety closure goes on to the status *)
      apply (CyclesApart_preserved s); try done.
      * unfold Interleaved.afterButtonForced. destruct (hasCapability _ _).
        -- by apply TimersOwned_setCapabilityValue.
        -- by apply TimersOwned_triggerFlow.
      * intros h tm. unfold Interleaved.afterButtonForced.
        destruct (hasCapability _ _); cbn [device awaitCapability onDevice s1].
        -- unfold setCapabilityValue. by destruct (hasCapability _ _).
        -- unfold triggerFlow. by case_bool_decide.
      * intros c k. unfold Interleaved.afterButtonForced.
        destruct (hasCapability _ _); cbn [device awaitCapability onDevice s1].
        -- unfold setCapabilityValue. by destruct (hasCapability _ _).
        -- unfold triggerFlow. by case_bool_decide.
      * intros a' k'. unfold Interleaved.afterButtonForced.
        destruct (hasCapability _ _); cbn [awaited awaitCapability onDevice s1];
          intros Hl' Hk.
        -- apply lookup_insert_Some in Hl' as [[_ <-]|[_ Hl']]; [done|].
           by apply lookup_delete_Some in Hl' as [_ Hl'].
        -- by apply lookup_delete_Some in Hl' as [_ Hl'].
    + (* the safety closure raises the alarm *)
      apply (CyclesApart_preserved s); try done; cbn [device awaited onDevice s1].
      * by apply TimersOwned_triggerFlow.
      * intros h tm. unfold triggerFlow. by case_bool_decide.
      * intros c k. unfold triggerFlow. by case_bool_decide.
      * intros a' k' Hl' _. by apply lookup_delete_Some in Hl' as [_ Hl'].
Qed.

Lemma atRest_AtRest s : atRest s = true -> AtRest s.
Proof.
  unfold atRest. rewrite !andb_true_iff, !bool_decide_eq_true.
  intros [[[H1 H2] H3] H4]. by repeat split.
Qed.

Lemma CyclesApart_run ocs : forall s,
  requestsAtRest ocs s = true -> CyclesApart s -> CyclesApart (Interleaved.run ocs s).
Proof.
  induction ocs as [|oc ocs IH]; intros s Hocs Hap; simpl; [done|].
  simpl in Hocs. apply andb_true_iff in Hocs as [Hoc Hocs].
  apply IH; [done|]. apply CyclesApart_step; [|done].
  intros ->. by apply atRest_AtRest.
Qed.

Lemma CyclesApart_boot caps s cards : CyclesApart (Interleaved.boot (init caps s cards)).
Proof.
  apply CyclesApart_busy.
  - apply TimersOwned_init.
  - apply nonePending_init.
  - intros a k Hl. simpl in Hl. by rewrite lookup_empty in Hl.
Qed.

(** X19.  On every run of the extended revision on which each trigger
    request comes at rest, that is while no other request awaits the status
    before it sets its countdown timer and no [sendPulse] awaits the
    status, its write or the end of the pause, a countdown timer and a
    safety timer are never pending together, and at most one countdown
    timer is pending, however the handlers overlap otherwise. *)
Theorem countdown_safety_exclusive (caps : gmap string JsVal)
    (s : gmap string SettingVal) (cards : gset string) (ocs : list Occurrence) :
  requestsAtRest ocs (Interleaved.boot (init caps s cards)) = true ->
  let st := device (Interleaved.run ocs (Interleaved.boot (init caps s cards))) in
  Exclusive st /\ atMostOne isCountdown st.
Proof.
  intros Hocs st.
  destruct (CyclesApart_run ocs _ Hocs (CyclesApart_boot caps s cards))
    as [Hown Hex _ _ _].
  split; [done|]. by apply TimersOwned_atMostOne.
Qed.

(** ** Pulses and requests *)

Section counting.
Context {A : Type} (P : A -> bool).

Lemma countIn_empty : countIn P ∅ = 0%nat.
Proof. unfold countIn. by rewrite map_filter_empty, map_size_empty. Qed.

Lemma countIn_insert_le k v (m : gmap Z A) :
  (countIn P (<[k := v]> m) <= countIn P m + (if P v then 1 else 0))%nat.
Proof.
  unfold countIn. destruct (P v) eqn:E.
  - rewrite map_filter_insert_True by done. rewrite map_size_insert.
    destruct (_ !! k); simpl; lia.
  - rewrite map_filter_insert_False by (simpl; by rewrite E).
    rewrite map_filter_delete, map_size_delete. destruct (_ !! k); simpl; lia.
Qed.

Lemma countIn_insert_false k v (m : gmap Z A) :
  P v = false -> (countIn P (<[k := v]> m) <= countIn P m)%nat.
Proof. intros E. pose proof (countIn_insert_le k v m) as H. rewrite E in H. lia. Qed.

Lemma countIn_delete_le k (m : gmap Z A) : (countIn P (delete k m) <= countIn P m)%nat.
Proof.
  unfold countIn. rewrite map_filter_delete, map_size_delete.
  destruct (_ !! k); simpl; lia.
Qed.

Lemma countIn_delete k v (m : gmap Z A) :
  m !! k = Some v ->
  (countIn P (delete k m) + (if P v then 1 else 0) = countIn P m)%nat.
Proof.
  intros Hl. unfold countIn. rewrite map_filter_delete, map_size_delete.
  destruct (P v) eqn:E.
  - assert (filter (fun kv => P kv.2 = true) m !! k = Some v) as Hf
      by by apply map_lookup_filter_Some.
    rewrite Hf. simpl.
    assert (size (filter (fun kv : Z * A => P kv.2 = true) m) <> 0%nat).
    { apply map_size_ne_0_lookup. eauto. }
    lia.
  - assert (filter (fun kv => P kv.2 = true) m !! k = None) as Hf.
    { apply map_lookup_filter_None. right. intros v' Hl'. simpl.
      rewrite Hl in Hl'. injection Hl' as <-. by rewrite E. }
    rewrite Hf. simpl. lia.
Qed.
End counting.

Lemma countIn_cancelTimer_le P f (m : gmap Z Timer) :
  (countIn P (cancelTimer f m) <= countIn P m)%nat.
Proof. destruct f; [apply countIn_delete_le|done]. Qed.

(** Bounds for the count of a table built by [setTimeout] and
    [clearTimeout]. *)
Ltac bound P m :=
  lazymatch m with
  | <[?k := ?v]> ?m' =>
      first [ pose proof (countIn_insert_false P k v m' eq_refl)
            | pose proof (countIn_insert_le P k v m') ];
      bound P m'
  | cancelTimer ?f ?m' => pose proof (countIn_cancelTimer_le P f m'); bound P m'
  | delete ?k ?m' => pose proof (countIn_delete_le P k m'); bound P m'
  | _ => idtac
  end.

Ltac bounds :=
  unfold doorWrites, pulsesOwed;
  cbn [capabilities settings flowCards delayedTriggerTimer safetyTimer openAlarmTimer
       now nextTimer pending nextCall inFlight writes alerts with_capabilities
       with_settings with_delayedTriggerTimer with_safetyTimer with_openAlarmTimer
       with_now with_timers with_calls with_alerts fst snd];
  rewrite ?List.filter_app, ?length_app;
  lazymatch goal with
  | |- (?issued <= _)%nat =>
      lazymatch issued with
      | context [countIn countdownTimer ?m] => bound countdownTimer m
      | _ => idtac
      end;
      lazymatch issued with
      | context [countIn pauseTimer ?m] => bound pauseTimer m
      | _ => idtac
      end;
      lazymatch issued with
      | context [countIn isFirstWrite ?m] => bound isFirstWrite m
      | _ => idtac
      end
  end;
  simpl in *; try lia.

Lemma pulses_startSafetyTimer e st :
  (doorWrites (startSafetyTimer e st) + pulsesOwed (startSafetyTimer e st) <=
   doorWrites st + pulsesOwed st)%nat.
Proof. exec. bounds. Qed.

Lemma pulses_startOpenAlarmTimer st :
  (doorWrites (startOpenAlarmTimer st) + pulsesOwed (startOpenAlarmTimer st) <=
   doorWrites st + pulsesOwed st)%nat.
Proof. unfold startOpenAlarmTimer. cbv zeta. destruct (_ <=? 0); exec; bounds. Qed.

Lemma pulses_sendPulse st :
  (doorWrites (sendPulse st) + pulsesOwed (sendPulse st) <=
   doorWrites st + pulsesOwed st + 2)%nat.
Proof. rewrite sendPulse_effect. cbv zeta. bounds. Qed.

Lemma pulses_same st st' :
  pending st' = pending st -> inFlight st' = inFlight st -> writes st' = writes st ->
  (doorWrites st' + pulsesOwed st' = doorWrites st + pulsesOwed st)%nat.
Proof. unfold doorWrites, pulsesOwed. by intros -> -> ->. Qed.

Lemma pulses_writeChangedSettings newSettings changedKeys rest st :
  (doorWrites (writeChangedSettings newSettings changedKeys rest st) +
   pulsesOwed (writeChangedSettings newSettings changedKeys rest st) <=
   doorWrites st + pulsesOwed st)%nat.
Proof.
  induction rest as [|key rest IH]; simpl.
  - unfold afterSettingWrites. destruct (existsb _ _); [|done]. cbv zeta.
    destruct (strictEqBool _ _); [|done]. apply pulses_startOpenAlarmTimer.
  - destruct (settingsMap key) as [dpId|] eqn:E; [|done].
    pose proof (settingsMap_not_door key dpId (readSetting newSettings key) E) as E'.
    unfold writeData32, doorWrites, pulsesOwed.
    cbn [writes inFlight pending with_calls]. rewrite List.filter_app, length_app.
    cbn [List.filter]. rewrite E'. simpl.
    pose proof (countIn_insert_false isFirstWrite (nextCall st)
                  (AfterSettingWrite newSettings changedKeys rest) (inFlight st) eq_refl).
    lia.
Qed.

Lemma pulses_handleDataPoint data st :
  (doorWrites (handleDataPoint data st) + pulsesOwed (handleDataPoint data st) <=
   doorWrites st + pulsesOwed st)%nat.
Proof.
  unfold handleDataPoint. cbv zeta. destruct (dp data =? dp_garageDoorContact).
  - destruct (truthy _).
    + etrans; [apply pulses_startOpenAlarmTimer|]. exec. bounds.
    + exec. bounds.
  - destruct (dp data =? dp_status); [|done]. destruct (hasCapability _ _); [|done].
    destruct (toString _); [|done]. exec. bounds.
Qed.

(** One event adds two to what is issued and still owed if it is a trigger
    request, and nothing otherwise. *)
Lemma pulses_step ev st :
  (doorWrites (step ev st) + pulsesOwed (step ev st) <=
   doorWrites st + pulsesOwed st + (if isRequest ev then 2 else 0))%nat.
Proof.
  destruct ev as [t| |data|h|c o|newSettings changedKeys|s|]; simpl;
    rewrite ?Nat.add_0_r.
  - done.
  - rewrite triggerDoorPulse_unfold. cbv zeta. destruct (_ <=? 0).
    + etrans; [apply pulses_sendPulse|]. exec. bounds.
    + exec. bounds.
  - apply pulses_handleDataPoint.
  - unfold fire. destruct (pending st !! h) as [tm|] eqn:Hl; [|done].
    set (st1 := with_timers (nextTimer st) (delete h (pending st)) st).
    assert (doorWrites st1 + pulsesOwed st1 +
            (if isCountdown (callback tm) then 2 else 0) +
            (if isRetryPause (callback tm) then 1 else 0) =
            doorWrites st + pulsesOwed st)%nat as Hdel.
    { subst st1. unfold doorWrites, pulsesOwed. simpl.
      pose proof (countIn_delete countdownTimer h tm (pending st) Hl) as H1.
      pose proof (countIn_delete pauseTimer h tm (pending st) Hl) as H2.
      change (countdownTimer tm) with (isCountdown (callback tm)) in H1.
      change (pauseTimer tm) with (isRetryPause (callback tm)) in H2.
      destruct (isCountdown (callback tm)), (isRetryPause (callback tm)); lia. }
    destruct (callback tm) eqn:Hcb; simpl in *.
    + pose proof (pulses_sendPulse st1). lia.
    + assert (doorWrites (resumeAfterPause expectedEndState st1) +
              pulsesOwed (resumeAfterPause expectedEndState st1) <=
              doorWrites st1 + pulsesOwed st1 + 1)%nat; [|lia].
      unfold resumeAfterPause, writeBool. bounds.
    + rewrite (pulses_same st1); [lia|unfold recoverStatus; by exec..].
    + rewrite (pulses_same st1); [lia|..]; unfold safetyCheck, triggerFlow; cbv zeta;
        (destruct (negb _); [|done]); exec; by case_bool_decide.
    + rewrite (pulses_same st1); [lia|..]; unfold openAlarmCheck, triggerFlow; cbv zeta;
        (destruct (strictEqBool _ _); [|done]); by case_bool_decide.
  - unfold settle. destruct (inFlight st !! c) as [k|] eqn:Hl; [|done].
    set (st1 := with_calls (nextCall st) (delete c (inFlight st)) (writes st) st).
    assert (doorWrites st1 + pulsesOwed st1 + (if isFirstWrite k then 1 else 0) =
            doorWrites st + pulsesOwed st)%nat as Hdel.
    { subst st1. unfold doorWrites, pulsesOwed. simpl.
      pose proof (countIn_delete isFirstWrite c k (inFlight st) Hl). lia. }
    destruct k as [e|e|newSettings changedKeys rest]; simpl in *.
    + unfold afterPulseWrite.
      assert (doorWrites (snd (setTimeout (ResumeAfterPause e) 500 st1)) +
              pulsesOwed (snd (setTimeout (ResumeAfterPause e) 500 st1)) <=
              doorWrites st1 + pulsesOwed st1 + 1)%nat as Hpause
        by (unfold setTimeout; bounds).
      pose proof (pulses_startSafetyTimer e st1).
      destruct o as [|err]; [lia|]. destruct (isTimeout err); lia.
    + unfold afterRetryWrite.
      pose proof (pulses_startSafetyTimer e st1).
      destruct o as [|err]; [lia|].
      assert (doorWrites (snd (setTimeout RecoverStatus 3000
                (setIfHas garage_Door_State_Capability (VStr "error") st1))) +
              pulsesOwed (snd (setTimeout RecoverStatus 3000
                (setIfHas garage_Door_State_Capability (VStr "error") st1))) <=
              doorWrites st1 + pulsesOwed st1)%nat; [|lia].
      exec. bounds.
    + pose proof (pulses_writeChangedSettings newSettings changedKeys rest st1). lia.
  - apply pulses_writeChangedSettings.
  - done.
  - exec. bounds.
Qed.

Lemma requests_cons ev evs :
  requests (ev :: evs) = ((if isRequest ev then 1 else 0) + requests evs)%nat.
Proof. unfold requests. simpl. by destruct (isRequest ev). Qed.

Lemma pulses_run evs : forall st,
  (doorWrites (run evs st) + pulsesOwed (run evs st) <=
   doorWrites st + pulsesOwed st + 2 * requests evs)%nat.
Proof.
  induction evs as [|ev evs IH]; intros st; [simpl; lia|].
  rewrite requests_cons. cbn [run fold_left]. fold (run evs (step ev st)).
  pose proof (IH (step ev st)). pose proof (pulses_step ev st).
  destruct (isRequest ev); lia.
Qed.

(** The older revision: a request gives at most one write. *)
Lemma legacy_pulses_step ev st :
  (doorWrites (Legacy.step ev st) + countIn countdownTimer (pending (Legacy.step ev st)) <=
   doorWrites st + countIn countdownTimer (pending st) +
   (if isRequest ev then 1 else 0))%nat.
Proof.
  assert (forall newSettings changedKeys rest st0,
            (doorWrites (Legacy.writeChangedSettings newSettings changedKeys rest st0) +
             countIn countdownTimer
               (pending (Legacy.writeChangedSettings newSettings changedKeys rest st0)) <=
             doorWrites st0 + countIn countdownTimer (pending st0))%nat) as Hloop.
  { intros newSettings changedKeys rest. induction rest as [|key rest IH]; intros st0;
      simpl; [done|].
    destruct (settingsMap key) as [dpId|] eqn:E; [|done].
    pose proof (settingsMap_not_door key dpId (readSetting newSettings key) E) as E'.
    unfold writeData32, doorWrites. cbn [writes pending with_calls].
    rewrite List.filter_app, length_app. cbn [List.filter]. rewrite E'. simpl. lia. }
  assert (forall e st0,
            (doorWrites (startSafetyTimer e st0) +
             countIn countdownTimer (pending (startSafetyTimer e st0)) <=
             doorWrites st0 + countIn countdownTimer (pending st0))%nat) as Hsafe.
  { intros e st0. exec. bounds. }
  assert (forall st0,
            (doorWrites (sendPulse st0) + countIn countdownTimer (pending (sendPulse st0)) <=
             doorWrites st0 + countIn countdownTimer (pending st0) + 1)%nat) as Hsend.
  { intros st0. rewrite sendPulse_effect. cbv zeta. bounds. }
  destruct ev as [t| |data|h|c o|newSettings changedKeys|s|]; simpl;
    rewrite ?Nat.add_0_r.
  - done.
  - rewrite triggerDoorPulse_unfold. cbv zeta. destruct (_ <=? 0).
    + etrans; [apply Hsend|]. exec. bounds.
    + exec. bounds.
  - unfold Legacy.handleDataPoint. cbv zeta. destruct (dp data =? dp_garageDoorContact).
    + exec. bounds.
    + destruct (dp data =? dp_status); [|done]. destruct (hasCapability _ _); [|done].
      destruct (toString _); [|done]. by exec.
  - unfold Legacy.fire. destruct (pending st !! h) as [tm|] eqn:Hl; [|done].
    set (st1 := with_timers (nextTimer st) (delete h (pending st)) st).
    assert (doorWrites st1 + countIn countdownTimer (pending st1) +
            (if isCountdown (callback tm) then 1 else 0) =
            doorWrites st + countIn countdownTimer (pending st))%nat as Hdel.
    { subst st1. unfold doorWrites. simpl.
      pose proof (countIn_delete countdownTimer h tm (pending st) Hl) as H1.
      change (countdownTimer tm) with (isCountdown (callback tm)) in H1. lia. }
    destruct (callback tm) eqn:Hcb; cbn [Legacy.runCallback isCountdown] in *; try lia.
    + pose proof (Hsend st1). lia.
    + assert (doorWrites (safetyCheck expectedState st1) = doorWrites st1 /\
              pending (safetyCheck expectedState st1) = pending st1) as [-> ->]; [|lia].
      unfold safetyCheck, triggerFlow, doorWrites. cbv zeta. destruct (negb _); [|done].
      exec. by case_bool_decide.
  - unfold Legacy.settle. destruct (inFlight st !! c) as [k|] eqn:Hl; [|done].
    set (st1 := with_calls (nextCall st) (delete c (inFlight st)) (writes st) st).
    destruct k as [e|e|newSettings changedKeys rest]; simpl.
    + apply (Hsafe e st1).
    + done.
    + apply (Hloop _ _ _ st1).
  - apply Hloop.
  - done.
  - done.
Qed.

(** X20.  On every run the writes to the door trigger are at most twice
    the trigger requests in the extended revision, and at most the trigger
    requests in the older one. *)
Theorem pulses_per_request (caps : gmap string JsVal) (s : gmap string SettingVal)
    (cards : gset string) (evs : list Event) :
  (doorWrites (run evs (init caps s cards)) <= 2 * requests evs)%nat /\
  (doorWrites (Legacy.run evs (init caps s cards)) <= requests evs)%nat.
Proof.
  split.
  - pose proof (pulses_run evs (init caps s cards)) as H.
    unfold pulsesOwed at 2 in H. unfold doorWrites at 2 in H. simpl in H.
    rewrite !countIn_empty in H. simpl in H. lia.
  - assert (forall st,
              (doorWrites (Legacy.run evs st) +
               countIn countdownTimer (pending (Legacy.run evs st)) <=
               doorWrites st + countIn countdownTimer (pending st) + requests evs)%nat)
      as Hrun.
    { induction evs as [|ev evs IH]; intros st; [simpl; lia|].
      rewrite requests_cons. cbn [Legacy.run fold_left].
      fold (Legacy.run evs (Legacy.step ev st)).
      pose proof (IH (Legacy.step ev st)). pose proof (legacy_pulses_step ev st).
      destruct (isRequest ev); lia. }
    pose proof (Hrun (init caps s cards)) as H.
    unfold doorWrites at 2 in H. simpl in H. rewrite countIn_empty in H. simpl in H. lia.
Qed.

(** ** The contact value *)

Lemma contact_storeCapability c v (caps : gmap string JsVal) :
  c <> alarm_contact -> storeCapability c v caps !! alarm_contact = caps !! alarm_contact.
Proof. intros H. by apply lookup_storeCapability_ne. Qed.

Lemma contact_sendPulse st :
  capabilities (sendPulse st) !! alarm_contact = capabilities st !! alarm_contact.
Proof. rewrite sendPulse_effect. simpl. by apply contact_storeCapability. Qed.

Lemma contact_safetyCheck e st :
  capabilities (safetyCheck e st) !! alarm_contact = capabilities st !! alarm_contact.
Proof.
  unfold safetyCheck. cbv zeta. destruct (negb _); [|done].
  rewrite capabilities_triggerFlow. exec. by rewrite !contact_storeCapability.
Qed.

Lemma contact_status_report data st :
  capabilities
    (if hasCapability garage_Door_State_Capability st
     then match toString (getDataValue data) with
          | Some s => setCapabilityValue garage_Door_State_Capability (VStr s) st
          | None => st
          end
     else st) !! alarm_contact = capabilities st !! alarm_contact.
Proof.
  destruct (hasCapability garage_Door_State_Capability st); [|done].
  destruct (toString _); [|done]. exec. by apply contact_storeCapability.
Qed.

Lemma contact_step ev st :
  isContactReport ev = false ->
  capabilities (step ev st) !! alarm_contact = capabilities st !! alarm_contact.
Proof.
  destruct ev as [t| |data|h|k o|newSettings changedKeys|s|];
    cbn [step Legacy.step isContactReport]; try done.
  - intros _. rewrite triggerDoorPulse_unfold. cbv zeta. destruct (_ <=? 0).
    + rewrite contact_sendPulse. by exec.
    + exec. by apply contact_storeCapability.
  - intros Hdp. unfold handleDataPoint. rewrite Hdp. cbv zeta.
    destruct (dp data =? dp_status); [|done]. apply contact_status_report.
  - intros _. unfold fire. destruct (pending st !! h) as [tm|]; [|done].
    destruct (callback tm); cbn [runCallback].
    + by rewrite contact_sendPulse.
    + done.
    + unfold recoverStatus. exec. by apply contact_storeCapability.
    + by rewrite contact_safetyCheck.
    + unfold openAlarmCheck. cbv zeta. destruct (strictEqBool _ _); [|done].
      by rewrite capabilities_triggerFlow.
  - intros _. unfold settle. destruct (inFlight st !! k) as [cont|]; [|done].
    destruct cont as [e|e|newSettings changedKeys rest]; cbn [runContinuation].
    + unfold afterPulseWrite.
      destruct o as [|err]; [|destruct (isTimeout err)];
        by rewrite ?capabilities_startSafetyTimer.
    + unfold afterRetryWrite. destruct o as [|err].
      * by rewrite capabilities_startSafetyTimer.
      * exec. by apply contact_storeCapability.
    + by rewrite capabilities_writeChangedSettings.
  - intros _. unfold onSettings. by rewrite capabilities_writeChangedSettings.
  - intros _. unfold onDeleted. by exec.
Qed.

Lemma contact_legacy_step ev st :
  isContactReport ev = false ->
  capabilities (Legacy.step ev st) !! alarm_contact = capabilities st !! alarm_contact.
Proof.
  destruct ev as [t| |data|h|k o|newSettings changedKeys|s|];
    cbn [step Legacy.step isContactReport]; try done.
  - apply (contact_step RequestTrigger).
  - intros Hdp. unfold Legacy.handleDataPoint. rewrite Hdp. cbv zeta.
    destruct (dp data =? dp_status); [|done]. apply contact_status_report.
  - intros _. unfold Legacy.fire. destruct (pending st !! h) as [tm|]; [|done].
    destruct (callback tm); cbn [Legacy.runCallback]; try done.
    + by rewrite contact_sendPulse.
    + by rewrite contact_safetyCheck.
  - intros _. unfold Legacy.settle. destruct (inFlight st !! k) as [cont|]; [|done].
    destruct cont as [e|e|newSettings changedKeys rest]; cbn [Legacy.runContinuation];
      try done.
    + unfold Legacy.afterPulseWrite. by rewrite capabilities_startSafetyTimer.
    + by rewrite capabilities_legacy_writeChangedSettings.
  - intros _. unfold Legacy.onSettings. by rewrite capabilities_legacy_writeChangedSettings.
Qed.

(** X21.  Only a contact report changes [alarm_contact]: on a run without
    one, in both revisions, it keeps its value. *)
Theorem contact_only_from_reports (evs : list Event) (st : Device) :
  Forall (fun ev => isContactReport ev = false) evs ->
  capabilities (run evs st) !! alarm_contact = capabilities st !! alarm_contact /\
  capabilities (Legacy.run evs st) !! alarm_contact = capabilities st !! alarm_contact.
Proof.
  intros Hevs. split; revert st; induction Hevs as [|ev evs Hev Hevs IH]; intros st;
    simpl; try done.
  - unfold run in IH. by rewrite IH, contact_step.
  - unfold Legacy.run in IH. by rewrite IH, contact_legacy_step.
Qed.

(** ** The further properties on the sample devices *)

Lemma untracked_timer_survives_witness :
  pending (run [SensorReport (reportContact true); RequestTrigger; Deleted] pausedDevice)
    !! 0 = Some {| delay := 500; due := 500; callback := ResumeAfterPause true |}.
Proof.
  apply untracked_timer_survives.
  - apply TimersOwned_reachable.
  - apply FieldsTyped_run, FieldsTyped_init.
  - by vm_compute.
  - reflexivity.
  - repeat constructor; discriminate.
Defined.

Lemma onDeleted_timers_witness :
  let st := device (Interleaved.run overlappingRequests (Interleaved.boot countdownDevice)) in
  delayedTriggerTimer st = Some 1 /\
  pending (onDeleted st) !! 0 = Some {| delay := 5000; due := 5000; callback := SendPulse |}.
Proof.
  intros st. split; [by vm_compute|].
  destruct (onDeleted_timers (sampleCaps (VBool false)) {[ "count_down" := SNum 5 ]}
              sampleCards overlappingRequests) as (_ & _ & _ & H & _).
  apply H; [by vm_compute|reflexivity|by vm_compute].
Defined.

Lemma contact_report_button_witness :
  capabilities (handleDataPoint (reportContact true) sampleDevice) !! garage_Door_Button =
  capabilities (handleDataPoint (reportContact true) sampleDevice) !! alarm_contact.
Proof.
  destruct (contact_report_button sampleDevice (reportContact true)) as [H _];
    [reflexivity|by vm_compute|].
  apply H. by vm_compute.
Defined.

Lemma safety_alarm_effects_witness :
  capabilities (fire 0 armedWithoutCards) !! garage_Door_State_Capability =
    Some status_alarm /\
  alerts (fire 0 armedWithoutCards) = [].
Proof.
  assert (pending armedWithoutCards !! 0 =
            Some {| delay := 20000; due := 20000; callback := SafetyCheck true |}) as Hl
    by by vm_compute.
  destruct (safety_alarm_effects armedWithoutCards 0 _ true Hl) as (_ & _ & Hs & _ & _ & Ha);
    [reflexivity|by vm_compute|].
  split; [apply Hs; by vm_compute|apply Ha; set_solver].
Defined.

Lemma open_alarm_fires_witness :
  alerts (fire 0 openSinceDevice) = ["opentime_alarm_triggered"].
Proof.
  assert (pending openSinceDevice !! 0 =
            Some {| delay := 5000; due := 6000; callback := OpenAlarmCheck 5 |}) as Hl
    by by vm_compute.
  destruct (open_alarm_fires openSinceDevice 0 _ 5 (TimersOwned_reachable _ _ _ _) Hl)
    as [H _]; [reflexivity|].
  apply H; [by vm_compute|set_solver].
Defined.

Lemma unconfirmed_cycle_alarms_witness :
  alerts (run [WriteSettles 0 (Rejected ackTimeout); Tick 20000; TimerFires 0]
            (sendPulse sampleDevice)) = ["runtime_alarm_triggered"].
Proof.
  destruct (unconfirmed_cycle_alarms sampleDevice (Rejected ackTimeout) 20000)
    as (_ & H & _); [by vm_compute|set_solver|by intros err [= <-]|exact H].
Defined.

Lemma onSettings_writes_witness :
  writes (run (settlesFrom 0 [Rejected noRoute; Acked; Acked])
            (onSettings changedSettings ["run_time"; "name"; "toString"; "count_down"]
               sampleDevice)) =
  [ WriteData32 (DpNumber dp_runtime) (ArgValue (SNum 30));
    WriteData32 (DpMember "toString") (ArgMember "toString");
    WriteData32 (DpNumber dp_countdown) (ArgValue (SNum 5)) ].
Proof.
  destruct (onSettings_writes sampleDevice changedSettings
              ["run_time"; "name"; "toString"; "count_down"]
              [Rejected noRoute; Acked; Acked]) as [H _]; [by vm_compute|].
  etrans; [exact H|by vm_compute].
Defined.

Lemma onSettings_open_alarm_witness :
  let st := handleDataPoint (reportContact true) openAlarmDevice in
  pending (run (settlesFrom 0 [Acked]) (onSettings changedSettings ["open_alarm_time"] st))
    !! 1 = Some {| delay := 5000; due := 5000; callback := OpenAlarmCheck 5 |}.
Proof.
  intros st.
  destruct (onSettings_open_alarm st changedSettings ["open_alarm_time"] [Acked])
    as [H _]; [by apply TimersOwned_handleDataPoint, TimersOwned_init|by vm_compute|].
  destruct H as (_ & H & _); [by left|by vm_compute|by vm_compute|exact H].
Defined.

Lemma legacy_onSettings_writes_witness :
  writes (Legacy.run (settlesFrom 0 [Rejected noRoute; Acked; Acked])
            (Legacy.onSettings changedSettings ["run_time"; "name"; "toString"; "count_down"]
               sampleDevice)) =
  [ WriteData32 (DpNumber dp_runtime) (ArgValue (SNum 30));
    WriteData32 (DpMember "toString") (ArgMember "toString");
    WriteData32 (DpNumber dp_countdown) (ArgValue (SNum 5)) ].
Proof.
  destruct (legacy_onSettings_writes sampleDevice changedSettings
              ["run_time"; "name"; "toString"; "count_down"]
              [Rejected noRoute; Acked; Acked]) as [H _];
    [by vm_compute|].
  etrans; [exact H|by vm_compute].
Defined.

Lemma no_pulse_without_request_witness :
  Forall (fun w => writesToDoor w = false) (writes (run doorLeftOpen openAlarmDevice)).
Proof.
  destruct (no_pulse_without_request (sampleCaps (VBool false))
              {[ "open_alarm_time" := SNum 5 ]} sampleCards doorLeftOpen) as [H _];
    [repeat constructor; discriminate|exact H].
Defined.

(** A cycle is under way, the safety timer is pending; the door is reported
    open, the report is handled to its end, and at 20 s nothing is left to
    fire. *)
Lemma contact_report_ends_cycle_witness :
  pending (device armedHost) !! 0 =
    Some {| delay := 20000; due := 20000; callback := SafetyCheck true |} /\
  let s' := Interleaved.run
              [ Arrives (SensorReport (reportContact true));
                CapabilitySettles 1; CapabilitySettles 2; CapabilitySettles 3;
                Arrives (Tick 20000); Arrives (TimerFires 0) ] armedHost in
  nonePending isSafety (device s') /\
  extendedBy (fun a => a = "opentime_alarm_triggered")
    (alerts (device armedHost)) (alerts (device s')).
Proof.
  split; [by vm_compute|].
  assert (CyclesApart armedHost) as Hap.
  { apply CyclesApart_run; [by vm_compute|apply CyclesApart_boot]. }
  destruct (contact_report_ends_cycle armedHost (reportContact true)
              [ CapabilitySettles 1; CapabilitySettles 2; CapabilitySettles 3;
                Arrives (Tick 20000); Arrives (TimerFires 0) ])
    as (_ & Ha & _ & Hs).
  - exact (safety_owned _ (apart_owned _ Hap)).
  - exact (countdown_owned _ (apart_owned _ Hap)).
  - clear Hap. split.
    + apply (bool_decide_eq_true_1
               (map_Forall (fun _ k => isPulseContinuation k = false)
                  (inFlight (device armedHost)))). by vm_compute.
    + apply (bool_decide_eq_true_1
               (map_Forall (fun _ tm => isRetryPause (callback tm) = false)
                  (pending (device armedHost)))). by vm_compute.
  - clear Hap.
    apply (bool_decide_eq_true_1
             (map_Forall (fun _ k => ofCycleAwait k = false) (awaited armedHost))).
    by vm_compute.
  - reflexivity.
  - repeat constructor; discriminate.
  - split; [exact Hs|exact Ha].
Defined.

Lemma countdown_safety_exclusive_witness :
  Interleaved.feasibleRun requestDuringSafety (Interleaved.boot countdownDevice) = true /\
  Exclusive (device (Interleaved.run requestDuringSafety (Interleaved.boot countdownDevice))).
Proof.
  split; [by vm_compute|].
  apply (countdown_safety_exclusive (sampleCaps (VBool false)) {[ "count_down" := SNum 5 ]}
           sampleCards requestDuringSafety).
  by vm_compute.
Defined.

Lemma contact_only_from_reports_witness :
  capabilities (run retryOverlapsRequest countdownDevice) !! alarm_contact =
  Some (VBool false).
Proof.
  destruct (contact_only_from_reports retryOverlapsRequest countdownDevice) as [H _];
    [repeat constructor|exact H].
Defined.

(** The door is open and a cycle is under way; the report says closed. *)
Lemma legacy_contact_report_witness :
  pending armedOpenDevice !! 0 =
    Some {| delay := 20000; due := 20000; callback := SafetyCheck false |} /\
  let st' := Legacy.handleDataPoint (reportContact false) armedOpenDevice in
  nonePending isSafety st' /\
  capabilities st' !! alarm_contact = Some (VBool false) /\
  capabilities st' !! garage_Door_State_Capability = Some status_closed /\
  openAlarmTimer st' = None.
Proof.
  split; [by vm_compute|]. cbv zeta.
  destruct (legacy_contact_report armedOpenDevice (reportContact false))
    as (_ & _ & _ & Ho & _ & _ & Hs & _ & Hc & Hst);
    [reflexivity|by vm_compute|by vm_compute|].
  split; [|split; [exact Hc|split; [exact Hst|]]].
  - apply Hs. exact (safety_owned armedOpenDevice (TimersOwned_run _ _ (TimersOwned_init _ _ _))).
  - etrans; [exact Ho|by vm_compute].
Defined.

(** A countdown of 5 s, then the pulse and its acknowledgement: the events
    one by one give what the handlers give when each awaited call settles
    at once. *)
Lemma run_serial_witness :
  let start := Interleaved.boot scenarioDevice in
  device (Interleaved.run (Interleaved.serial countdownThenPulse start) start) =
    run countdownThenPulse scenarioDevice.
Proof.
  apply (run_serial countdownThenPulse (Interleaved.boot scenarioDevice)).
  apply awaitsFresh_boot.
Defined.
